(** * scripts/income.py: household income by state

    A shallow embedding of the fetch / transform / write pipeline of
    [scripts/income.py] and the properties stated about it.

    Conventions of the embedding:
    - a Python [str] is a [string]; the code points that occur are those
      of Latin-1, one per character;
    - a Python [int] is a [Z];
    - a Python [float] is a [float]: the rational number that it denotes
      exactly (a [Q] in lowest terms), or the negative zero;
    - a Python exception is a value of [exn], and a computation that may
      raise returns a [result];
    - a [dict] keyed by strings is a [gmap string _]; a dict whose
      iteration order matters is an association list. *)

From Stdlib Require Import ZArith QArith Qround Lia Lqa List Ascii String Permutation Sorted.
From stdpp Require Import base option list gmap strings.

Open Scope string_scope.
Open Scope list_scope.
Open Scope Z_scope.

(** ** Exceptions *)

Inductive exn : Type :=
  | ZipLengthError                 (* ValueError: zip() argument is shorter/longer *)
  | IntLiteralError (s : string)   (* ValueError: invalid literal for int() *)
  | IntDigitsLimitError            (* ValueError: exceeds the limit for integer string conversion *)
  | NotInTupleError (s : string)   (* ValueError: tuple.index(x): x not in tuple *)
  | InvalidFormatError             (* ValueError: Invalid API response format *)
  | KeyError (k : string)
  | ZeroDivisionError
  | OverflowError
  | TypeError
  | HTTPError (status : Z)         (* niquests.HTTPError *)
  | JSONDecodeError                (* niquests.JSONDecodeError *)
  | ConnectionError                (* niquests.ConnectionError *)
  | FileNotFoundError
  | FileExistsError
  | NotADirectoryError
  | IsADirectoryError
  | WriteError.                    (* OSError of a write that fails: no space left on the device, say *)

Inductive result (A : Type) : Type :=
  | Ok (a : A)
  | Raise (e : exn).
Arguments Ok {A} a.
Arguments Raise {A} e.

Definition bind {A B : Type} (r : result A) (k : A -> result B) : result B :=
  match r with
  | Ok a => k a
  | Raise e => Raise e
  end.

Notation "'let*' x ':=' r 'in' k" := (bind r (fun x => k))
  (at level 10, x name, r at level 100, k at level 200).

Definition is_ok {A : Type} (r : result A) : bool :=
  match r with Ok _ => true | Raise _ => false end.

(** Run [f] on every element, left to right, stopping at the first
    exception. *)
Fixpoint traverse {A B : Type} (f : A -> result B) (l : list A) : result (list B) :=
  match l with
  | [] => Ok []
  | a :: l' =>
      let* b := f a in
      let* bs := traverse f l' in
      Ok (b :: bs)
  end.

(** ** [int(str)] *)

Definition code (a : ascii) : Z := Z.of_N (N_of_ascii a).

(** Whitespace that [int] strips: the six characters of ASCII white
    space (tab to carriage return, and the space) and the two white space
    characters of Latin-1 beyond ASCII, U+0085 and U+00A0. The separators
    U+001C to U+001F are not stripped: they make the literal invalid. *)
Definition is_space (a : ascii) : bool :=
  let c := code a in
  ((9 <=? c) && (c <=? 13)) || (c =? 32) || (c =? 133) || (c =? 160).

Definition is_digit (a : ascii) : bool :=
  let c := code a in (48 <=? c) && (c <=? 57).

Definition digit_value (a : ascii) : Z := code a - 48.

Fixpoint lstrip (s : list ascii) : list ascii :=
  match s with
  | a :: s' => if is_space a then lstrip s' else s
  | [] => []
  end.

Definition strip (s : list ascii) : list ascii :=
  rev (lstrip (rev (lstrip s))).

(** Digits, with single underscores allowed between two digits. *)
Fixpoint digits_value (acc : Z) (after_digit : bool) (s : list ascii) : option Z :=
  match s with
  | [] => if after_digit then Some acc else None
  | a :: s' =>
      if is_digit a then digits_value (10 * acc + digit_value a) true s'
      else if (code a =? 95) && after_digit then digits_value acc false s'
      else None
  end.

Definition max_str_digits : nat := 4300.

Definition count_digits (s : list ascii) : nat :=
  length (filter (fun a => is_digit a = true) s).

Definition int (s : string) : result Z :=
  let body := strip (list_ascii_of_string s) in
  let signed :=
    match body with
    | a :: rest =>
        if code a =? 45 then (-1, rest)
        else if code a =? 43 then (1, rest)
        else (1, body)
    | [] => (1, body)
    end in
  match digits_value 0 false (snd signed) with
  | None => Raise (IntLiteralError s)
  | Some v =>
      if (max_str_digits <? count_digits (snd signed))%nat
      then Raise IntDigitsLimitError
      else Ok (fst signed * v)
  end.

(** ** [dict] and [zip] *)

(** [zip(a, b, strict=True)]. *)
Fixpoint zip_strict {A B : Type} (a : list A) (b : list B) : result (list (A * B)) :=
  match a, b with
  | [], [] => Ok []
  | x :: a', y :: b' =>
      let* r := zip_strict a' b' in
      Ok ((x, y) :: r)
  | _, _ => Raise ZipLengthError
  end.

(** [dict(pairs)]: a later pair replaces an earlier one with the same key. *)
Definition dict {V : Type} (pairs : list (string * V)) : gmap string V :=
  foldl (fun m p => <[p.1 := p.2]> m) ∅ pairs.

(** [d[k]]. *)
Definition getitem {V : Type} (d : gmap string V) (k : string) : result V :=
  match d !! k with
  | Some v => Ok v
  | None => Raise (KeyError k)
  end.

(** ** [float]: binary64 values as exact rationals, and the negative zero *)

(** A float: [Float q] is the float that denotes the rational [q] (in
    lowest terms; [Float 0] is [0.0]), [NegZero] is [-0.0]. *)
Inductive float : Type :=
  | Float (q : Q)
  | NegZero.

(** The rational that a float denotes. *)
Definition value (x : float) : Q :=
  match x with
  | Float q => q
  | NegZero => inject_Z 0
  end.

Coercion value : float >-> Q.

(** The sign bit of a float. *)
Definition signbit (x : float) : bool :=
  match x with
  | Float q => Qnum q <? 0
  | NegZero => true
  end.

(** The float of a value and of the sign of the computation that gave
    it: the sign is that of the value, but for a zero. *)
Definition with_sign (negative : bool) (q : Q) : float :=
  if (Qnum q =? 0) && negative then NegZero else Float q.

(** The integer nearest to [n / d] for [0 < d], a tie going to the even
    neighbour. *)
Definition round_half_even (n d : Z) : Z :=
  let f := n / d in
  match 2 * (n mod d) ?= d with
  | Lt => f
  | Gt => f + 1
  | Eq => if Z.even f then f else f + 1
  end.

(** [ratio_lt_pow2 n d e] decides [n / d < 2 ^ e] for [0 < d]. *)
Definition ratio_lt_pow2 (n d e : Z) : bool :=
  if 0 <=? e then n <? d * 2 ^ e else n * 2 ^ (- e) <? d.

(** The binary exponent of [n / d] for [0 < n] and [0 < d]: the [e] with
    [2 ^ e <= n / d < 2 ^ (e + 1)]. *)
Definition binary_exponent (n d : Z) : Z :=
  let e0 := Z.log2 n - Z.log2 d in
  if ratio_lt_pow2 n d e0 then e0 - 1 else e0.

(** The value [m * 2 ^ u] as a rational in lowest terms. *)
Definition dyadic (m u : Z) : Q :=
  if 0 <=? u then inject_Z (m * 2 ^ u)
  else Qred (Qmake m (Z.to_pos (2 ^ (- u)))).

(** The value of the binary64 number nearest to [n / d] ([d <> 0]), ties
    to even: 53 significant bits, the unit in the last place never below
    [2 ^ -1074], and [OverflowError] when the rounded magnitude reaches
    [2 ^ 1024]. *)
Definition binary64_of_ratio (n d : Z) : result Q :=
  if n =? 0 then Ok (inject_Z 0)
  else
    let a := Z.abs n in
    let b := Z.abs d in
    let u := Z.max (binary_exponent a b - 52) (-1074) in
    let m :=
      if 0 <=? u then round_half_even a (b * 2 ^ u)
      else round_half_even (a * 2 ^ (- u)) b in
    if (0 <=? u) && (2 ^ 1024 <=? m * 2 ^ u) then Raise OverflowError
    else Ok (dyadic (Z.sgn n * Z.sgn d * m) u).

(** The float nearest to [n / d], with the given sign when it is a
    zero. *)
Definition float_of_ratio (negative : bool) (n d : Z) : result float :=
  let* q := binary64_of_ratio n d in
  Ok (with_sign negative q).

(** [a / b] on two [int]s: true division, correctly rounded; the sign of
    a zero quotient (of a zero [a], or of an underflow) is negative when
    exactly one of [a] and [b] is negative. *)
Definition truediv (a b : Z) : result float :=
  if b =? 0 then Raise ZeroDivisionError
  else float_of_ratio (xorb (a <? 0) (b <? 0)) a b.

(** [round(x, 3)] on a float: the decimal with three places nearest to the
    exact value of [x] (ties to even), converted back to a float; the
    result has the sign of [x]. *)
Definition round3 (x : float) : result float :=
  float_of_ratio (signbit x)
    (round_half_even (1000 * Qnum (value x)) (Zpos (Qden (value x)))) 1000.

(** The float that the literal [0.1] denotes. *)
Definition float_0_1 : float := Float (Qmake 3602879701896397 36028797018963968).

(** ** Static tables *)

(** The arguments of the [IncomeGroup] literal type, in source order: the
    order that the sort key uses. *)
Definition IncomeGroup : list string :=
  [ "<10000";
    "10000 to 14999";
    "15000 to 24999";
    "25000 to 34999";
    "35000 to 49999";
    "75000 to 99999";
    "50000 to 74999";
    "100000 to 149999";
    "150000 to 199999";
    "200000+" ].

(** The ten brackets from the lowest income to the highest. *)
Definition brackets_low_to_high : list string :=
  [ "<10000";
    "10000 to 14999";
    "15000 to 24999";
    "25000 to 34999";
    "35000 to 49999";
    "50000 to 74999";
    "75000 to 99999";
    "100000 to 149999";
    "150000 to 199999";
    "200000+" ].

(** A value of [INCOME_MAPPING]: a plain string, a [BaseIncomeGroup] or an
    [AggregatedIncomeGroup]. *)
Inductive mapping : Type :=
  | Plain (s : string)
  | BaseIncomeGroup (group : string)
  | AggregatedIncomeGroup (group : string) (sum_vars : list string).

(** [INCOME_MAPPING.items()], in insertion order. *)
Definition INCOME_MAPPING : list (string * mapping) :=
  [ ("B19001_001E", Plain "total");
    ("B19001_002E", BaseIncomeGroup "<10000");
    ("B19001_003E", BaseIncomeGroup "10000 to 14999");
    ("B19001_004E,B19001_005E",
      AggregatedIncomeGroup "15000 to 24999" ["B19001_004E"; "B19001_005E"]);
    ("B19001_006E,B19001_007E",
      AggregatedIncomeGroup "25000 to 34999" ["B19001_006E"; "B19001_007E"]);
    ("B19001_008E,B19001_009E,B19001_010E",
      AggregatedIncomeGroup "35000 to 49999"
        ["B19001_008E"; "B19001_009E"; "B19001_010E"]);
    ("B19001_011E,B19001_012E",
      AggregatedIncomeGroup "50000 to 74999" ["B19001_011E"; "B19001_012E"]);
    ("B19001_013E", BaseIncomeGroup "75000 to 99999");
    ("B19001_014E,B19001_015E",
      AggregatedIncomeGroup "100000 to 149999" ["B19001_014E"; "B19001_015E"]);
    ("B19001_016E", BaseIncomeGroup "150000 to 199999");
    ("B19001_017E", BaseIncomeGroup "200000+") ].

Definition REGION_ITEMS : list (string * string) :=
  [ ("01", "south"); ("02", "west"); ("04", "west"); ("05", "south");
    ("06", "west"); ("08", "west"); ("09", "northeast"); ("10", "south");
    ("11", "south"); ("12", "south"); ("13", "south"); ("15", "west");
    ("16", "west"); ("17", "midwest"); ("18", "midwest"); ("19", "midwest");
    ("20", "midwest"); ("21", "south"); ("22", "south"); ("23", "northeast");
    ("24", "south"); ("25", "northeast"); ("26", "midwest"); ("27", "midwest");
    ("28", "south"); ("29", "midwest"); ("30", "west"); ("31", "midwest");
    ("32", "west"); ("33", "northeast"); ("34", "northeast"); ("35", "west");
    ("36", "northeast"); ("37", "south"); ("38", "midwest"); ("39", "midwest");
    ("40", "south"); ("41", "west"); ("42", "northeast"); ("44", "northeast");
    ("45", "south"); ("46", "midwest"); ("47", "south"); ("48", "south");
    ("49", "west"); ("50", "northeast"); ("51", "south"); ("53", "west");
    ("54", "south"); ("55", "midwest"); ("56", "west"); ("72", "other") ].

Definition REGION_MAPPING : gmap string string := dict REGION_ITEMS.

(** ** Records *)

Record CensusResponse : Type := {
  header : list string;
  data : list (list string);
}.

Record StateIncome : Type := {
  name : string;
  region : string;
  id : Z;
  pct : float;
  total : Z;
  group : string;
}.

(** ** The sort key *)

(** [t.index(x)] on a tuple. *)
Fixpoint index (x : string) (t : list string) : result Z :=
  match t with
  | [] => Raise (NotInTupleError x)
  | y :: t' =>
      if String.eqb y x then Ok 0
      else let* i := index x t' in Ok (i + 1)
  end.

Definition by_state_income_group (tp : list string) (record : StateIncome)
  : result (Z * Z) :=
  let* i := index (group record) tp in
  Ok (id record, i).

(** The order of Python tuples of two [int]s. *)
Definition key_le (a b : Z * Z) : bool :=
  (a.1 <? b.1) || ((a.1 =? b.1) && (a.2 <=? b.2)).

(** A stable sort of keyed items: an item goes in front of the first
    later item whose key is not smaller. *)
Fixpoint insert_keyed {A : Type} (x : (Z * Z) * A) (l : list ((Z * Z) * A))
  : list ((Z * Z) * A) :=
  match l with
  | [] => [x]
  | y :: l' => if key_le x.1 y.1 then x :: l else y :: insert_keyed x l'
  end.

Fixpoint sort_keyed {A : Type} (l : list ((Z * Z) * A)) : list ((Z * Z) * A) :=
  match l with
  | [] => []
  | x :: l' => insert_keyed x (sort_keyed l')
  end.

(** [sorted(l, key=key)]: every key is computed first, in list order;
    the sort is stable. *)
Definition sorted {A : Type} (key : A -> result (Z * Z)) (l : list A)
  : result (list A) :=
  let* keys := traverse key l in
  Ok (map snd (sort_keyed (combine keys l))).

(** ** The transform *)

(** [sum(int(state_data[var]) for var in sum_vars)]. *)
Fixpoint sum_of_vars (state_data : gmap string string) (sum_vars : list string)
  (acc : Z) : result Z :=
  match sum_vars with
  | [] => Ok acc
  | var :: rest =>
      let* s := getitem state_data var in
      let* n := int s in
      sum_of_vars state_data rest (acc + n)
  end.

(** One pass of the inner loop: the records appended for one item of
    [INCOME_MAPPING]. *)
Definition process_mapping (state_data : gmap string string) (state_fips : string)
  (total : Z) (item : string * mapping) : result (list StateIncome) :=
  let build (group : string) (count : Z) : result (list StateIncome) :=
    let* name := getitem state_data "NAME" in
    let* region := getitem REGION_MAPPING state_fips in
    let* id := int state_fips in
    let* quotient := truediv count total in
    let* pct := round3 quotient in
    Ok [ {| name := name; region := region; id := id; pct := pct;
            total := total; group := group |} ] in
  match item.2 with
  | Plain _ => Ok []
  | BaseIncomeGroup group =>
      let* s := getitem state_data item.1 in
      let* count := int s in
      build group count
  | AggregatedIncomeGroup group sum_vars =>
      let* count := sum_of_vars state_data sum_vars 0 in
      build group count
  end.

(** One pass of the outer loop: the records appended for one data row. *)
Definition process_row (header row : list string) : result (list StateIncome) :=
  let* pairs := zip_strict header row in
  let state_data := dict pairs in
  let* state_fips := getitem state_data "state" in
  match REGION_MAPPING !! state_fips with
  | None => Ok []
  | Some _ =>
      let* s := getitem state_data "B19001_001E" in
      let* total := int s in
      let* recs := traverse (process_mapping state_data state_fips total)
                     INCOME_MAPPING in
      Ok (concat recs)
  end.

(** The list [records] at the end of the outer loop. *)
Definition collect_records (census_data : CensusResponse) : result (list StateIncome) :=
  let* recs := traverse (process_row (header census_data)) (data census_data) in
  Ok (concat recs).

Definition process_state_records (census_data : CensusResponse)
  : result (list StateIncome) :=
  let* records := collect_records census_data in
  sorted (by_state_income_group IncomeGroup) records.

(** ** [repr] of [int] and [float] *)

Definition digit_char (d : Z) : ascii := ascii_of_N (Z.to_N (48 + d)).

(** The decimal digits of [n >= 0], most significant first; [fuel] bounds
    their number. *)
Fixpoint digits_of (fuel : nat) (n : Z) (acc : list ascii) : list ascii :=
  match fuel with
  | O => acc
  | S fuel' =>
      let acc' := digit_char (n mod 10) :: acc in
      if n <? 10 then acc' else digits_of fuel' (n / 10) acc'
  end.

Definition decimal (n : Z) : list ascii :=
  digits_of (S (Z.to_nat (Z.log2 n))) n [].

(** [repr(n)] for an [int]. *)
Definition int_repr (n : Z) : string :=
  string_of_list_ascii
    (if n <? 0 then "-"%char :: decimal (- n) else decimal n).

(** The decimal exponent of [a / b] for [0 < a] and [0 < b]: the [p] with
    [10 ^ p <= a / b < 10 ^ (p + 1)]. *)
Fixpoint decimal_exponent_up (fuel : nat) (a b p : Z) : Z :=
  match fuel with
  | O => p
  | S fuel' => if a <? 10 * b then p else decimal_exponent_up fuel' a (10 * b) (p + 1)
  end.

Fixpoint decimal_exponent_down (fuel : nat) (a b p : Z) : Z :=
  match fuel with
  | O => p
  | S fuel' => if b <=? a then p else decimal_exponent_down fuel' (10 * a) b (p - 1)
  end.

Definition decimal_exponent (a b : Z) : Z :=
  if b <=? a then decimal_exponent_up (S (Z.to_nat (Z.log2 a))) a b 0
  else decimal_exponent_down (S (Z.to_nat (Z.log2 b))) a b 0.

(** [x * 10 ^ (- e)] as a fraction, for [x = a / b]. *)
Definition scale10 (a b e : Z) : Z * Z :=
  if 0 <=? e then (a, b * 10 ^ e) else (a * 10 ^ (- e), b).

(** Whether the decimal [d * 10 ^ e] reads back as the float [x]. *)
Definition reads_back (x : Q) (d e : Z) : bool :=
  let v := if 0 <=? e then (d * 10 ^ e, 1) else (d, 10 ^ (- e)) in
  match binary64_of_ratio v.1 v.2 with
  | Ok y => Qeq_bool x y
  | Raise _ => false
  end.

(** The shortest decimal [d * 10 ^ e] that reads back as [x > 0], and of
    those the one nearest to [x], the one with the even last digit when
    two are as near: tried with [n], [n + 1], ... digits. *)
Fixpoint shortest_decimal (fuel : nat) (x : Q) (p : Z) (n : Z) : Z * Z :=
  let e := p - n + 1 in
  let q := scale10 (Qnum x) (Zpos (Qden x)) e in
  let lo := q.1 / q.2 in
  let hi := lo + 1 in
  let lo_ok := reads_back x lo e in
  let hi_ok := reads_back x hi e in
  let lo_nearer :=
    match 2 * (q.1 mod q.2) ?= q.2 with
    | Lt => true
    | Eq => Z.even lo
    | Gt => false
    end in
  match fuel with
  | O => (lo, e)
  | S fuel' =>
      if lo_ok && (lo_nearer || negb hi_ok) then (lo, e)
      else if hi_ok then (hi, e)
      else shortest_decimal fuel' x p (n + 1)
  end.

Fixpoint strip_zeros (fuel : nat) (d e : Z) : Z * Z :=
  match fuel with
  | O => (d, e)
  | S fuel' => if (d mod 10 =? 0) && (0 <? d) then strip_zeros fuel' (d / 10) (e + 1) else (d, e)
  end.

Definition zeros (n : Z) : list ascii := repeat "0"%char (Z.to_nat n).

Definition two_digits (n : Z) : list ascii :=
  if n <? 10 then "0"%char :: decimal n else decimal n.

(** The text of a positive float from its shortest digits [ds] and the
    position [decpt] of the decimal point: exponent notation when
    [decpt <= -4] or [decpt > 16]. *)
Definition format_short (ds : list ascii) (decpt : Z) : list ascii :=
  let n := Z.of_nat (length ds) in
  if (decpt <=? -4) || (16 <? decpt) then
    let mantissa :=
      match ds with
      | [] => []
      | [d] => [d]
      | d :: rest => d :: "."%char :: rest
      end in
    let ex := decpt - 1 in
    mantissa ++ "e"%char ::
      (if ex <? 0 then "-"%char :: two_digits (- ex) else "+"%char :: two_digits ex)
  else if decpt <=? 0 then
    "0"%char :: "."%char :: zeros (- decpt) ++ ds
  else if n <=? decpt then
    ds ++ zeros (decpt - n) ++ ["."%char; "0"%char]
  else
    take (Z.to_nat decpt) ds ++ "."%char :: drop (Z.to_nat decpt) ds.

(** [repr(x)] for a float. *)
Definition float_repr (x : float) : string :=
  match x with
  | NegZero => "-0.0"
  | Float x =>
      if Qnum x =? 0 then "0.0"
      else
        let a := Qmake (Z.abs (Qnum x)) (Qden x) in
        let p := decimal_exponent (Qnum a) (Zpos (Qden a)) in
        let de := shortest_decimal 17 a p 1 in
        let de' := strip_zeros 17 de.1 de.2 in
        let ds := decimal de'.1 in
        let body := format_short ds (Z.of_nat (length ds) + de'.2) in
        string_of_list_ascii (if Qnum x <? 0 then "-"%char :: body else body)
  end.

(** ** [json.dumps(data, indent=2)] *)

#[warnings="-register-all"]
Inductive json : Type :=
  | JNull
  | JBool (b : bool)
  | JInt (n : Z)
  | JFloat (x : float)
  | JStr (s : string)
  | JArr (items : list json)
  | JObj (members : list (string * json)).

Definition hex_char (d : Z) : ascii :=
  if d <? 10 then digit_char d else ascii_of_N (Z.to_N (87 + d)).

(** One character of a string literal with [ensure_ascii]: everything
    outside [' '..'~'], the quote and the backslash are escaped. *)
Definition escape_char (a : ascii) : list ascii :=
  let c := code a in
  if c =? 34 then ["\"%char; "034"%char]
  else if c =? 92 then ["\"%char; "\"%char]
  else if c =? 8 then ["\"%char; "b"%char]
  else if c =? 12 then ["\"%char; "f"%char]
  else if c =? 10 then ["\"%char; "n"%char]
  else if c =? 13 then ["\"%char; "r"%char]
  else if c =? 9 then ["\"%char; "t"%char]
  else if (32 <=? c) && (c <=? 126) then [a]
  else ["\"%char; "u"%char; "0"%char; "0"%char; hex_char (c / 16); hex_char (c mod 16)].

Definition encode_string (s : string) : list ascii :=
  "034"%char :: concat (map escape_char (list_ascii_of_string s)) ++ ["034"%char].

Definition newline_indent (indent level : nat) : list ascii :=
  "010"%char :: repeat " "%char (indent * level).

(** [sep.join(parts)]. *)
Fixpoint join (sep : list ascii) (parts : list (list ascii)) : list ascii :=
  match parts with
  | [] => []
  | [x] => x
  | x :: rest => x ++ sep ++ join sep rest
  end.

(** The encoder with an indent: an empty container is written closed; a
    non-empty one puts every element on a line of its own, one level
    deeper, and its closing bracket on a line at its own level. *)
Fixpoint encode (indent level : nat) (v : json) : list ascii :=
  match v with
  | JNull => list_ascii_of_string "null"
  | JBool true => list_ascii_of_string "true"
  | JBool false => list_ascii_of_string "false"
  | JInt n => list_ascii_of_string (int_repr n)
  | JFloat x => list_ascii_of_string (float_repr x)
  | JStr s => encode_string s
  | JArr [] => list_ascii_of_string "[]"
  | JArr items =>
      "["%char :: newline_indent indent (S level)
      ++ join (","%char :: newline_indent indent (S level))
           (map (encode indent (S level)) items)
      ++ newline_indent indent level ++ ["]"%char]
  | JObj [] => list_ascii_of_string "{}"
  | JObj members =>
      "{"%char :: newline_indent indent (S level)
      ++ join (","%char :: newline_indent indent (S level))
           (map (fun kv => encode_string kv.1 ++ ":"%char :: " "%char
                           :: encode indent (S level) kv.2) members)
      ++ newline_indent indent level ++ ["}"%char]
  end.

(** A [StateIncome] is a dict; its keys are in the order of the keyword
    arguments that built it. *)
Definition StateIncome_items (r : StateIncome) : json :=
  JObj [ ("name", JStr (name r));
         ("region", JStr (region r));
         ("id", JInt (id r));
         ("pct", JFloat (pct r));
         ("total", JInt (total r));
         ("group", JStr (group r)) ].

Definition json_dumps_indent2 (data : list StateIncome) : string :=
  string_of_list_ascii (encode 2 0 (JArr (map StateIncome_items data))).

(** ** Files *)

(** An absolute path: its components from the root. *)
Definition Path : Type := list string.

Definition parent (p : Path) : Path := removelast p.

(** [str(p)]. *)
Definition path_str (p : Path) : string :=
  match p with
  | [] => "/"
  | _ => String.concat EmptyString (map (fun c => String.append "/" c) p)
  end.

(** The directories and the regular files, with their bytes. The root is
    always a directory. *)
Record FileSystem : Type := {
  dirs : gset (list string);
  files : gmap (list string) string;
}.

Definition is_dir (fs : FileSystem) (p : Path) : bool :=
  bool_decide (p = [] \/ p ∈ dirs fs).

Definition is_file (fs : FileSystem) (p : Path) : bool :=
  bool_decide (is_Some (files fs !! p)).

(** The path and its ancestors below the root, outermost first. *)
Definition chain (p : Path) : list Path :=
  map (fun n => take n p) (seq 1 (length p)).

(** [p.mkdir(parents=True, exist_ok=True)]: every missing directory of the
    chain is created; a regular file on the chain is an error. *)
Definition mkdir_parents_exist_ok (p : Path) (fs : FileSystem) : result FileSystem :=
  if existsb (is_file fs) (chain p) then
    Raise (if is_file fs p then FileExistsError else NotADirectoryError)
  else
    Ok {| dirs := dirs fs ∪ list_to_set (chain p); files := files fs |}.

(** The UTF-8 bytes of a string of Latin-1 code points. *)
Definition utf8_char (a : ascii) : list ascii :=
  let c := code a in
  if c <? 128 then [a]
  else [ascii_of_N (Z.to_N (192 + c / 64)); ascii_of_N (Z.to_N (128 + c mod 64))].

Definition utf8 (s : string) : string :=
  string_of_list_ascii (concat (map utf8_char (list_ascii_of_string s))).

(** What the disk does with the bytes of a write: it takes them all, or
    the write fails with an [OSError] (no space left, say) when
    [written] of the bytes, at most, are in the file. *)
Inductive disk_outcome : Type :=
  | WriteAll
  | WriteFails (written : nat).

(** The bytes that are in the file when the write ends, and how it
    ends. *)
Definition written_bytes (disk : disk_outcome) (bytes : string) : string :=
  match disk with
  | WriteAll => bytes
  | WriteFails written =>
      string_of_list_ascii (take written (list_ascii_of_string bytes))
  end.

Definition write_result (disk : disk_outcome) : result unit :=
  match disk with
  | WriteAll => Ok tt
  | WriteFails _ => Raise WriteError
  end.

(** [p.write_text(text, encoding="utf-8", newline="\n")]: the file is
    opened for writing in an existing directory, which creates it or
    empties it, then the bytes are written, line feeds as they are. When
    the file cannot be opened nothing is changed; when the write fails
    the file is left with the bytes written so far. The file system
    comes back with the outcome. *)
Definition write_text (p : Path) (text : string) (disk : disk_outcome) (fs : FileSystem)
  : FileSystem * result unit :=
  if is_dir fs p then (fs, Raise IsADirectoryError)
  else if existsb (is_file fs) (chain (parent p)) then (fs, Raise NotADirectoryError)
  else if negb (is_dir fs (parent p)) then (fs, Raise FileNotFoundError)
  else
    ({| dirs := dirs fs; files := <[p := written_bytes disk (utf8 text)]> (files fs) |},
     write_result disk).

Definition write_json (data : list StateIncome) (output : Path) (disk : disk_outcome)
  (fs : FileSystem) : FileSystem * result unit :=
  write_text output (json_dumps_indent2 data) disk fs.


(** Whether a text ends with a line feed. *)
Definition ends_with_newline (s : string) : bool :=
  match rev (list_ascii_of_string s) with
  | a :: _ => code a =? 10
  | [] => false
  end.

(** ** The fetch *)

(** What the GET request comes back with: no response at all, or a status
    and a body. The body is [None] when it is not a JSON document; bodies
    that decode to anything but an array of arrays of strings are not
    represented. *)
Inductive http_outcome : Type :=
  | NoResponse
  | Response (status_code : Z) (body : option (list (list string))).

(** [response.raise_for_status()]. *)
Definition raise_for_status (status_code : Z) : result unit :=
  if (400 <=? status_code) && (status_code <? 600) then Raise (HTTPError status_code)
  else Ok tt.

Definition get_census_data (outcome : http_outcome) : result CensusResponse :=
  match outcome with
  | NoResponse => Raise ConnectionError
  | Response status_code body =>
      let* _ := raise_for_status status_code in
      match body with
      | None => Raise JSONDecodeError
      | Some data =>
          match data with
          | [] => Raise InvalidFormatError
          | first :: rest =>
              if (length data <? 2)%nat then Raise InvalidFormatError
              else Ok {| header := first; data := rest |}
          end
      end
  end.

(** ** The program *)

(** What a run can change: the files and the lines printed. *)
Record World : Type := {
  fs : FileSystem;
  stdout : list string;
}.

Definition print (line : string) (w : World) : World :=
  {| fs := fs w; stdout := stdout w ++ [line] |}.

Section Main.

(** The directory two levels above the script. *)
Variable REPO_ROOT : Path.

Definition OUTPUT_DIR : Path := REPO_ROOT ++ ["data"].
Definition OUTPUT_FILE : Path := OUTPUT_DIR ++ ["income.json"].

(** [main()], for what the request and the disk come back with: the
    world when the run ends, and the exception that ended it, if any. *)
Definition main (outcome : http_outcome) (disk : disk_outcome) (w : World)
  : World * result unit :=
  match get_census_data outcome with
  | Raise e => (w, Raise e)
  | Ok census_data =>
      match process_state_records census_data with
      | Raise e => (w, Raise e)
      | Ok records =>
          let w1 :=
            print (String.append "Found "
                     (String.append (int_repr (Z.of_nat (length records)))
                        " state-income group combinations")) w in
          match mkdir_parents_exist_ok (parent OUTPUT_FILE) (fs w1) with
          | Raise e => (w1, Raise e)
          | Ok fs2 =>
              match write_json records OUTPUT_FILE disk fs2 with
              | (fs3, Raise e) => ({| fs := fs3; stdout := stdout w1 |}, Raise e)
              | (fs3, Ok _) =>
                  (print (String.append "Data written to " (path_str OUTPUT_FILE))
                     {| fs := fs3; stdout := stdout w1 |}, Ok tt)
              end
          end
      end
  end.

End Main.

(** ** Notions used to state the properties *)

(** The field-to-value mapping of a row: header and row aligned by
    position. *)
Definition state_data_of (header row : list string) : gmap string string :=
  dict (combine header row).

(** The state code of a row, when the header has a ["state"] field that
    the row reaches. *)
Definition state_code (header row : list string) : option string :=
  state_data_of header row !! "state".

(** Whether the state code of a row is a key of [REGION_MAPPING]. *)
Definition in_region_table (header row : list string) : bool :=
  match state_code header row with
  | Some state_fips =>
      match REGION_MAPPING !! state_fips with
      | Some _ => true
      | None => false
      end
  | None => false
  end.

(** Whether an item of [INCOME_MAPPING] describes an income bracket. *)
Definition is_bracket (item : string * mapping) : bool :=
  match item.2 with
  | Plain _ => false
  | _ => true
  end.

(** The group label of an item of [INCOME_MAPPING]. *)
Definition group_of (item : string * mapping) : option string :=
  match item.2 with
  | Plain _ => None
  | BaseIncomeGroup g => Some g
  | AggregatedIncomeGroup g _ => Some g
  end.

(** The raw household count of a bracket in a row. *)
Definition bracket_count (state_data : gmap string string)
  (item : string * mapping) : result Z :=
  match item.2 with
  | Plain _ => Ok 0
  | BaseIncomeGroup _ =>
      let* s := getitem state_data item.1 in int s
  | AggregatedIncomeGroup _ sum_vars => sum_of_vars state_data sum_vars 0
  end.

(** The number of data rows whose state code is a key of
    [REGION_MAPPING]. *)
Definition count_region_rows (census_data : CensusResponse) : nat :=
  length (List.filter (in_region_table (header census_data)) (data census_data)).

(** A list is in the order of [sorted] with the given key. *)
Definition sorted_by_key {A : Type} (key : A -> result (Z * Z)) (l : list A) : Prop :=
  StronglySorted
    (fun a b => exists ka kb, key a = Ok ka /\ key b = Ok kb /\ key_le ka kb = true) l.

(** [record_of state_data state_fips total item r]: [r] is the record that
    the inner loop builds for a bracket [item] of a row. *)
Definition record_of (state_data : gmap string string) (state_fips : string)
  (households : Z) (item : string * mapping) (r : StateIncome) : Prop :=
  exists count quotient,
    bracket_count state_data item = Ok count /\
    truediv count households = Ok quotient /\
    round3 quotient = Ok (pct r) /\
    group_of item = Some (group r) /\
    state_data !! "NAME" = Some (name r) /\
    REGION_MAPPING !! state_fips = Some (region r) /\
    int state_fips = Ok (id r) /\
    total r = households.

(** [int(state_data[k])]. *)
Definition int_field (state_data : gmap string string) (k : string) : result Z :=
  let* s := getitem state_data k in int s.

(** The brackets of [INCOME_MAPPING]: its items without the total. *)
Definition brackets : list (string * mapping) :=
  List.filter is_bracket INCOME_MAPPING.

(** A row that the transform can process: it has the length of the
    header and a state code; and when the code is a key of
    [REGION_MAPPING], it has a name, its total is a non-zero integer,
    every field of every bracket is an integer, and no bracket count is
    beyond [2 ^ 1022] times the total, so that the quotient is in the
    range of a float. *)
Definition valid_row (header row : list string) : bool :=
  let state_data := state_data_of header row in
  (length row =? length header)%nat &&
  match state_code header row with
  | None => false
  | Some state_fips =>
      match REGION_MAPPING !! state_fips with
      | None => true
      | Some _ =>
          is_ok (getitem state_data "NAME") &&
          match int_field state_data "B19001_001E" with
          | Raise _ => false
          | Ok households =>
              negb (households =? 0) &&
              forallb (fun item =>
                         match bracket_count state_data item with
                         | Raise _ => false
                         | Ok count =>
                             Z.abs count <=? 2 ^ 1022 * Z.abs households
                         end) brackets
          end
      end
  end.

Definition valid_response (census_data : CensusResponse) : bool :=
  forallb (valid_row (header census_data)) (data census_data).

(** The sum of a list of integers and of the values of a list of
    floats. *)
Definition Zsum (l : list Z) : Z := fold_right Z.add 0 l.
Definition Qsum (l : list float) : Q :=
  fold_right (fun x sum => Qplus (value x) sum) (inject_Z 0) l.

(** A row whose brackets partition its households: the total is
    positive, no bracket count is negative, and the counts add up to the
    total. *)
Definition consistent_row (header row : list string) : bool :=
  let state_data := state_data_of header row in
  match int_field state_data "B19001_001E",
        traverse (bracket_count state_data) brackets with
  | Ok households, Ok counts =>
      (0 <? households) && forallb (Z.leb 0) counts
      && (Zsum counts =? households)
  | _, _ => false
  end.

(** A response in which every row of a state of the table is a
    consistent row. *)
Definition consistent_response (census_data : CensusResponse) : bool :=
  forallb (fun row =>
             implb (in_region_table (header census_data) row)
               (consistent_row (header census_data) row))
    (data census_data).

(** The values of the [Region] literal type. *)
Definition Region : list string :=
  [ "south"; "west"; "northeast"; "midwest"; "other" ].

(** Equality of two sort keys. *)
Definition key_eqb (a b : Z * Z) : bool := (a.1 =? b.1) && (a.2 =? b.2).

(** Whether a record is of the given state id and group. *)
Definition of_state_group (i : Z) (g : string) (r : StateIncome) : bool :=
  (id r =? i) && String.eqb (group r) g.

(** The state code of a row when it is a key of [REGION_MAPPING]. *)
Definition listed_code (header row : list string) : list string :=
  match state_code header row with
  | Some state_fips =>
      match REGION_MAPPING !! state_fips with
      | Some _ => [state_fips]
      | None => []
      end
  | None => []
  end.

(** The state codes of the rows of states of the table, in row order. *)
Definition listed_codes (census_data : CensusResponse) : list string :=
  flat_map (listed_code (header census_data)) (data census_data).

(** What identifies a record in the output: its state id and group. *)
Definition state_group (r : StateIncome) : Z * string := (id r, group r).

(** The records of a row, none when the row raises. *)
Definition records_of_row (header row : list string) : list StateIncome :=
  match process_row header row with
  | Ok recs => recs
  | Raise _ => []
  end.

(** The fields that an item of [INCOME_MAPPING] reads from a row. *)
Definition vars_of (item : string * mapping) : list string :=
  match item.2 with
  | Plain _ => []
  | BaseIncomeGroup _ => [item.1]
  | AggregatedIncomeGroup _ sum_vars => sum_vars
  end.

(** The fields that the transform reads from a row. *)
Definition fields_read : list string :=
  "state" :: "B19001_001E" :: "NAME" :: flat_map vars_of INCOME_MAPPING.

(** The exceptions that a row can raise: the [ValueError] of [zip] and of
    [int], the [KeyError] of a field that is read, and the two errors of
    the division. *)
Definition row_error (e : exn) : Prop :=
  match e with
  | ZipLengthError | IntLiteralError _ | IntDigitsLimitError
  | ZeroDivisionError | OverflowError => True
  | KeyError k => In k fields_read
  | _ => False
  end.

(** The line that [main] prints after the transform. *)
Definition found_line (records : list StateIncome) : string :=
  String.append "Found "
    (String.append (int_repr (Z.of_nat (length records)))
       " state-income group combinations").

(** Whether a character is one of the 128 characters of ASCII: those that
    UTF-8 writes as one byte. *)
Definition is_ascii (a : ascii) : bool := code a <? 128.

(** When the fetch raises: no response, a client or server error status,
    a body that is not JSON, or fewer than two entries. *)
Definition fetch_fails (outcome : http_outcome) : Prop :=
  match outcome with
  | NoResponse => True
  | Response status_code body =>
      400 <= status_code < 600 \/
      match body with
      | None => True
      | Some entries => (length entries < 2)%nat
      end
  end.

(** ** Sample data *)

(** The fields that the transform reads, in the order of the API. *)
Definition example_header : list string :=
  [ "state"; "NAME";
    "B19001_001E"; "B19001_002E"; "B19001_003E"; "B19001_004E"; "B19001_005E";
    "B19001_006E"; "B19001_007E"; "B19001_008E"; "B19001_009E"; "B19001_010E";
    "B19001_011E"; "B19001_012E"; "B19001_013E"; "B19001_014E"; "B19001_015E";
    "B19001_016E"; "B19001_017E" ].

(** A state of the table: 1000 households, 100 below 10000. *)
Definition alabama_row : list string :=
  [ "01"; "Alabama";
    "1000"; "100"; "90"; "40"; "45"; "50"; "55"; "30"; "40"; "50";
    "80"; "90"; "120"; "60"; "50"; "60"; "40" ].

(** A state of the table that reports no household. *)
Definition empty_state_row : list string :=
  [ "02"; "Alaska";
    "0"; "1"; "0"; "0"; "0"; "0"; "0"; "0"; "0"; "0";
    "0"; "0"; "0"; "0"; "0"; "0"; "0" ].

(** A state of the table whose total is not a number. *)
Definition unreadable_total_row : list string :=
  [ "04"; "Arizona";
    "n/a"; "1"; "0"; "0"; "0"; "0"; "0"; "0"; "0"; "0";
    "0"; "0"; "0"; "0"; "0"; "0"; "0" ].

(** A territory that the table does not list. *)
Definition guam_row : list string :=
  [ "66"; "Guam";
    "10"; "1"; "1"; "1"; "1"; "1"; "1"; "1"; "1"; "1";
    "0"; "0"; "0"; "0"; "0"; "0"; "1" ].

(** A row of the same territory cut short. *)
Definition short_guam_row : list string := [ "66"; "Guam"; "10" ].

(** A state of the table that reports no household and whose first
    bracket is not a number. *)
Definition unreadable_count_row : list string :=
  [ "05"; "Arkansas";
    "0"; "n/a"; "0"; "0"; "0"; "0"; "0"; "0"; "0"; "0";
    "0"; "0"; "0"; "0"; "0"; "0"; "0" ].

(** A state of the table whose brackets hold more than its total. *)
Definition overfull_row : list string :=
  [ "06"; "California";
    "1000"; "2000"; "90"; "40"; "45"; "50"; "55"; "30"; "40"; "50";
    "80"; "90"; "120"; "60"; "50"; "60"; "40" ].

(** A response without the name column. *)
Definition nameless_header : list string :=
  [ "state";
    "B19001_001E"; "B19001_002E"; "B19001_003E"; "B19001_004E"; "B19001_005E";
    "B19001_006E"; "B19001_007E"; "B19001_008E"; "B19001_009E"; "B19001_010E";
    "B19001_011E"; "B19001_012E"; "B19001_013E"; "B19001_014E"; "B19001_015E";
    "B19001_016E"; "B19001_017E" ].

Definition nameless_row : list string :=
  [ "01";
    "1000"; "100"; "90"; "40"; "45"; "50"; "55"; "30"; "40"; "50";
    "80"; "90"; "120"; "60"; "50"; "60"; "40" ].

(** A state of the table whose households are all in the first
    bracket. *)
Definition single_bracket_row : list string :=
  [ "01"; "Alabama";
    "1000"; "1000"; "0"; "0"; "0"; "0"; "0"; "0"; "0"; "0";
    "0"; "0"; "0"; "0"; "0"; "0"; "0" ].

(** The row of the scenario, its second bracket holding a number of 401
    digits. *)
Definition huge_count_row : list string :=
  [ "01"; "Alabama";
    "1000"; "100"; String "1"%char (string_of_list_ascii (repeat "0"%char 400));
    "40"; "45"; "50"; "55"; "30"; "40"; "50";
    "80"; "90"; "120"; "60"; "50"; "60"; "40" ].



(** No files yet, nothing printed. *)
Definition empty_world : World :=
  {| fs := {| dirs := ∅; files := ∅ |}; stdout := [] |}.

Example int_01 : int "01" = Ok 1.
Proof. reflexivity. Qed.

Example int_sp : int " -1_000 " = Ok (-1000).
Proof. reflexivity. Qed.

Example int_bad : int "1__0" = Raise (IntLiteralError "1__0").
Proof. reflexivity. Qed.

Example int_nbsp : int (String (ascii_of_nat 160) "12") = Ok 12.
Proof. reflexivity. Qed.

Example int_separator :
  int (String (ascii_of_nat 31) "1000")
  = Raise (IntLiteralError (String (ascii_of_nat 31) "1000")).
Proof. reflexivity. Qed.

Example dict_last : dict [("a", 1); ("b", 2); ("a", 3)] !! "a" = Some 3.
Proof. vm_compute. reflexivity. Qed.

Example truediv_100_1000 : truediv 100 1000 = Ok float_0_1.
Proof. vm_compute. reflexivity. Qed.

Example round3_0_1 : round3 float_0_1 = Ok float_0_1.
Proof. vm_compute. reflexivity. Qed.

Example round3_2675 : (let* x := truediv 2675 1000 in round3 x) = truediv 2675 1000.
Proof. vm_compute. reflexivity. Qed.

Example round3_tie : (let* x := truediv 1 16 in round3 x) = truediv 62 1000.
Proof. vm_compute. reflexivity. Qed.

Example truediv_big : truediv (10 ^ 400) 1 = Raise OverflowError.
Proof. vm_compute. reflexivity. Qed.

Example truediv_max :
  truediv (2 ^ 1024 - 2 ^ 970 - 1) 1 = Ok (Float (inject_Z (2 ^ 1024 - 2 ^ 971))).
Proof. vm_compute. reflexivity. Qed.

Example truediv_third :
  truediv 1 3 = Ok (Float (Qmake 6004799503160661 18014398509481984)).
Proof. vm_compute. reflexivity. Qed.

Example truediv_neg :
  truediv (-1) 3 = Ok (Float (Qmake (-6004799503160661) 18014398509481984)).
Proof. vm_compute. reflexivity. Qed.

Example truediv_tiny : truediv 1 (2 ^ 1075) = Ok (Float (inject_Z 0)).
Proof. vm_compute. reflexivity. Qed.

Example truediv_denorm :
  truediv 3 (2 ^ 1075) = Ok (Float (Qmake 1 (Z.to_pos (2 ^ 1073)))).
Proof. vm_compute. reflexivity. Qed.

Example truediv_zero_neg : truediv 0 (-5) = Ok NegZero.
Proof. vm_compute. reflexivity. Qed.

Example truediv_tiny_neg : truediv (-1) (2 ^ 1075) = Ok NegZero.
Proof. vm_compute. reflexivity. Qed.

Example truediv_zero_pos : truediv 0 5 = Ok (Float (inject_Z 0)).
Proof. vm_compute. reflexivity. Qed.

Example round3_small_neg : (let* x := truediv (-1) 3000 in round3 x) = Ok NegZero.
Proof. vm_compute. reflexivity. Qed.

Example round3_neg_zero : round3 NegZero = Ok NegZero.
Proof. vm_compute. reflexivity. Qed.

(** ** The [result] monad and [traverse] *)

Lemma bind_ok_inv {A B : Type} (r : result A) (k : A -> result B) (b : B) :
  bind r k = Ok b -> exists a, r = Ok a /\ k a = Ok b.
Proof.
  destruct r as [a|e]; simpl; intros H.
  - exists a. split; [reflexivity | exact H].
  - discriminate H.
Qed.

Lemma bind_raise_inv {A B : Type} (r : result A) (k : A -> result B) (e : exn) :
  bind r k = Raise e ->
  r = Raise e \/ exists a, r = Ok a /\ k a = Raise e.
Proof.
  destruct r as [a|e']; simpl; intros H.
  - right. exists a. split; [reflexivity | exact H].
  - left. congruence.
Qed.

Lemma is_ok_true {A : Type} (r : result A) :
  is_ok r = true <-> exists a, r = Ok a.
Proof.
  destruct r as [a|e]; simpl; split.
  - intros _. exists a. reflexivity.
  - reflexivity.
  - discriminate.
  - intros [a H]. discriminate H.
Qed.

Lemma is_ok_false {A : Type} (r : result A) :
  is_ok r = false <-> exists e, r = Raise e.
Proof.
  destruct r as [a|e]; simpl; split.
  - discriminate.
  - intros [e H]. discriminate H.
  - intros _. exists e. reflexivity.
  - reflexivity.
Qed.

Ltac inv_bind H :=
  let a := fresh "v" in
  let Ha := fresh "E" in
  apply bind_ok_inv in H; destruct H as (a & Ha & H).

Lemma traverse_app {A B : Type} (f : A -> result B) (l1 l2 : list A) :
  traverse f (l1 ++ l2) =
  (let* a := traverse f l1 in let* b := traverse f l2 in Ok (a ++ b)).
Proof.
  induction l1 as [|x l1 IH]; simpl.
  - destruct (traverse f l2); reflexivity.
  - destruct (f x) as [y|e]; simpl; [|reflexivity].
    rewrite IH. destruct (traverse f l1) as [ys|e]; simpl; [|reflexivity].
    destruct (traverse f l2); reflexivity.
Qed.

Lemma traverse_ok_Forall2 {A B : Type} (f : A -> result B) (l : list A) (bs : list B) :
  traverse f l = Ok bs <-> Forall2 (fun a b => f a = Ok b) l bs.
Proof.
  revert bs. induction l as [|x l IH]; intros bs; simpl.
  - split; intros H.
    + injection H as <-. constructor.
    + inversion H. reflexivity.
  - split; intros H.
    + inv_bind H. inv_bind H. injection H as <-.
      constructor; [assumption | apply IH; assumption].
    + inversion H as [|? y ? ys Hy Hys]; subst.
      rewrite Hy. simpl. apply IH in Hys. rewrite Hys. reflexivity.
Qed.

Lemma traverse_ok_length {A B : Type} (f : A -> result B) (l : list A) (bs : list B) :
  traverse f l = Ok bs -> length bs = length l.
Proof.
  intros H. apply traverse_ok_Forall2 in H.
  induction H; simpl; congruence.
Qed.

(** The exception of [traverse] is that of the first element that raises. *)
Lemma traverse_first_raise {A B : Type} (f : A -> result B)
  (l1 l2 : list A) (a : A) (bs : list B) (e : exn) :
  traverse f l1 = Ok bs -> f a = Raise e ->
  traverse f (l1 ++ a :: l2) = Raise e.
Proof.
  intros H1 Ha. rewrite traverse_app, H1. simpl. rewrite Ha. reflexivity.
Qed.

Lemma traverse_some_raise {A B : Type} (f : A -> result B) (l : list A) (a : A) :
  In a l -> is_ok (f a) = false -> is_ok (traverse f l) = false.
Proof.
  induction l as [|x l IH]; simpl; [tauto|].
  intros [->|Hin] Ha.
  - destruct (f a); [discriminate Ha | reflexivity].
  - destruct (f x); simpl; [|reflexivity].
    specialize (IH Hin Ha). destruct (traverse f l); [discriminate IH | reflexivity].
Qed.

Lemma traverse_all_ok {A B : Type} (f : A -> result B) (l : list A) :
  (forall a, In a l -> is_ok (f a) = true) -> is_ok (traverse f l) = true.
Proof.
  induction l as [|x l IH]; simpl; intros H; [reflexivity|].
  assert (Hx : is_ok (f x) = true) by (apply H; left; reflexivity).
  destruct (f x); [simpl | discriminate Hx].
  assert (Hl : is_ok (traverse f l) = true) by (apply IH; intros; apply H; right; assumption).
  destruct (traverse f l); [reflexivity | discriminate Hl].
Qed.

(** ** [zip] with [strict=True] *)

Lemma zip_strict_same_length {A B : Type} (a : list A) (b : list B) :
  length a = length b -> zip_strict a b = Ok (combine a b).
Proof.
  revert b. induction a as [|x a IH]; intros [|y b]; simpl; intros H;
    try discriminate H; [reflexivity|].
  rewrite IH by congruence. reflexivity.
Qed.

Lemma zip_strict_other_length {A B : Type} (a : list A) (b : list B) :
  length a <> length b -> zip_strict a b = Raise ZipLengthError.
Proof.
  revert b. induction a as [|x a IH]; intros [|y b]; simpl; intros H;
    try reflexivity; [congruence|].
  rewrite IH by congruence. reflexivity.
Qed.

Lemma zip_strict_ok_inv {A B : Type} (a : list A) (b : list B) (p : list (A * B)) :
  zip_strict a b = Ok p -> length a = length b /\ p = combine a b.
Proof.
  intros H. destruct (Nat.eq_dec (length a) (length b)) as [E|E].
  - rewrite (zip_strict_same_length a b E) in H. split; congruence.
  - rewrite (zip_strict_other_length a b E) in H. discriminate H.
Qed.

(** ** One row *)

Lemma process_row_other_length (header row : list string) :
  length row <> length header -> process_row header row = Raise ZipLengthError.
Proof.
  intros H. unfold process_row.
  rewrite zip_strict_other_length by congruence. reflexivity.
Qed.

Lemma process_row_same_length (header row : list string) :
  length row = length header ->
  process_row header row =
  (let state_data := state_data_of header row in
   let* state_fips := getitem state_data "state" in
   match REGION_MAPPING !! state_fips with
   | None => Ok []
   | Some _ =>
       let* s := getitem state_data "B19001_001E" in
       let* total := int s in
       let* recs := traverse (process_mapping state_data state_fips total)
                      INCOME_MAPPING in
       Ok (concat recs)
   end).
Proof.
  intros H. unfold process_row.
  rewrite zip_strict_same_length by congruence. reflexivity.
Qed.

Lemma process_row_ok_same_length (header row : list string) (recs : list StateIncome) :
  process_row header row = Ok recs -> length row = length header.
Proof.
  intros H. destruct (Nat.eq_dec (length row) (length header)) as [E|E]; [exact E|].
  rewrite process_row_other_length in H by exact E. discriminate H.
Qed.

Lemma getitem_ok {V : Type} (d : gmap string V) (k : string) (v : V) :
  getitem d k = Ok v <-> d !! k = Some v.
Proof.
  unfold getitem. destruct (d !! k); split; intros H; congruence.
Qed.

Lemma process_row_skipped (header row : list string) (state_fips : string) :
  length row = length header ->
  state_code header row = Some state_fips ->
  REGION_MAPPING !! state_fips = None ->
  process_row header row = Ok [].
Proof.
  intros Hlen Hcode Hreg. rewrite process_row_same_length by exact Hlen.
  cbv zeta. unfold state_code in Hcode.
  apply getitem_ok in Hcode. rewrite Hcode. cbn [bind].
  rewrite Hreg. reflexivity.
Qed.

Lemma process_mapping_length (state_data : gmap string string) (state_fips : string)
  (total : Z) (item : string * mapping) (recs : list StateIncome) :
  process_mapping state_data state_fips total item = Ok recs ->
  length recs = if is_bracket item then 1%nat else 0%nat.
Proof.
  unfold process_mapping, is_bracket. destruct item.2; intros H.
  - injection H as <-. reflexivity.
  - repeat inv_bind H. injection H as <-. reflexivity.
  - repeat inv_bind H. injection H as <-. reflexivity.
Qed.

Lemma traverse_process_mapping_length (state_data : gmap string string)
  (state_fips : string) (total : Z) (items : list (string * mapping))
  (recs : list (list StateIncome)) :
  traverse (process_mapping state_data state_fips total) items = Ok recs ->
  length (concat recs) = length (List.filter is_bracket items).
Proof.
  revert recs. induction items as [|item items IH]; intros recs H; simpl in H.
  - injection H as <-. reflexivity.
  - inv_bind H. inv_bind H. injection H as <-.
    apply process_mapping_length in E. apply IH in E0.
    simpl. rewrite length_app, E, E0.
    destruct (is_bracket item); reflexivity.
Qed.

Lemma process_row_length (header row : list string) (recs : list StateIncome) :
  process_row header row = Ok recs ->
  length recs = if in_region_table header row then 10%nat else 0%nat.
Proof.
  intros H. pose proof (process_row_ok_same_length _ _ _ H) as Hlen.
  rewrite process_row_same_length in H by exact Hlen. cbv zeta in H.
  inv_bind H. apply getitem_ok in E.
  unfold in_region_table, state_code. rewrite E.
  destruct (REGION_MAPPING !! v) as [r|].
  - repeat inv_bind H. injection H as <-.
    apply traverse_process_mapping_length in E2. rewrite E2. reflexivity.
  - injection H as <-. reflexivity.
Qed.

(** ** Sorting *)

Lemma insert_keyed_Permutation {A : Type} (x : (Z * Z) * A) (l : list ((Z * Z) * A)) :
  Permutation (insert_keyed x l) (x :: l).
Proof.
  induction l as [|y l IH]; simpl.
  - apply Permutation_refl.
  - destruct (key_le x.1 y.1).
    + apply Permutation_refl.
    + eapply Permutation_trans; [apply perm_skip, IH | apply perm_swap].
Qed.

Lemma sort_keyed_Permutation {A : Type} (l : list ((Z * Z) * A)) :
  Permutation (sort_keyed l) l.
Proof.
  induction l as [|x l IH]; simpl.
  - apply Permutation_refl.
  - eapply Permutation_trans; [apply insert_keyed_Permutation | apply perm_skip, IH].
Qed.

Lemma key_le_total (a b : Z * Z) : key_le a b = false -> key_le b a = true.
Proof. unfold key_le. destruct a, b; simpl. lia. Qed.

Lemma key_le_trans (a b c : Z * Z) :
  key_le a b = true -> key_le b c = true -> key_le a c = true.
Proof. unfold key_le. destruct a, b, c; simpl. lia. Qed.

Lemma insert_keyed_StronglySorted {A : Type} (x : (Z * Z) * A) (l : list ((Z * Z) * A)) :
  StronglySorted (fun a b => key_le a.1 b.1 = true) l ->
  StronglySorted (fun a b => key_le a.1 b.1 = true) (insert_keyed x l).
Proof.
  induction l as [|y l IH]; simpl; intros Hs.
  - constructor; [constructor | constructor].
  - inversion Hs as [|? ? Hl Hy]; subst.
    destruct (key_le x.1 y.1) eqn:E.
    + constructor; [exact Hs|]. constructor; [exact E|].
      eapply List.Forall_impl; [|exact Hy]. intros z Hz. simpl in Hz.
      eapply key_le_trans; eassumption.
    + constructor; [apply IH; exact Hl|].
      eapply Permutation_Forall; [apply Permutation_sym, insert_keyed_Permutation|].
      constructor; [apply key_le_total; exact E | exact Hy].
Qed.

Lemma sort_keyed_StronglySorted {A : Type} (l : list ((Z * Z) * A)) :
  StronglySorted (fun a b => key_le a.1 b.1 = true) (sort_keyed l).
Proof.
  induction l as [|x l IH]; simpl.
  - constructor.
  - apply insert_keyed_StronglySorted, IH.
Qed.

Lemma sorted_ok_inv {A : Type} (key : A -> result (Z * Z)) (l out : list A) :
  sorted key l = Ok out ->
  exists keys, traverse key l = Ok keys /\ out = map snd (sort_keyed (combine keys l)).
Proof.
  unfold sorted. intros H. inv_bind H. injection H as <-.
  exists v. split; [assumption | reflexivity].
Qed.

Lemma combine_keys_snd {A K : Type} (key : A -> result K) (l : list A) (keys : list K) :
  traverse key l = Ok keys ->
  map snd (combine keys l) = l /\
  Forall (fun p => key p.2 = Ok p.1) (combine keys l).
Proof.
  intros H. apply traverse_ok_Forall2 in H.
  induction H as [|a k l ks Hk H [IH1 IH2]]; simpl.
  - split; constructor.
  - split; [congruence|]. constructor; assumption.
Qed.

Lemma sorted_Permutation {A : Type} (key : A -> result (Z * Z)) (l out : list A) :
  sorted key l = Ok out -> Permutation out l.
Proof.
  intros H. apply sorted_ok_inv in H. destruct H as (keys & Hk & ->).
  destruct (combine_keys_snd key l keys Hk) as [Hs _].
  rewrite <- Hs at 2. apply Permutation_map, sort_keyed_Permutation.
Qed.

Lemma StronglySorted_map {A B : Type} (f : A -> B) (R : B -> B -> Prop) (l : list A) :
  StronglySorted (fun a b => R (f a) (f b)) l -> StronglySorted R (map f l).
Proof.
  induction 1 as [|a l Hl IH Ha]; simpl; constructor; [exact IH|].
  apply List.Forall_map. exact Ha.
Qed.

Lemma StronglySorted_impl_on {A : Type} (R S : A -> A -> Prop) (P : A -> Prop) (l : list A) :
  (forall a b, P a -> P b -> R a b -> S a b) ->
  Forall P l -> StronglySorted R l -> StronglySorted S l.
Proof.
  intros HRS HP Hs. induction Hs as [|a l Hl IH Ha]; constructor.
  - apply IH. inversion HP; assumption.
  - inversion HP as [|? ? Pa Pl]; subst.
    rewrite List.Forall_forall in *. intros b Hb.
    apply HRS; [exact Pa | apply Pl; exact Hb | apply Ha; exact Hb].
Qed.

Lemma sorted_sorted_by_key {A : Type} (key : A -> result (Z * Z)) (l out : list A) :
  sorted key l = Ok out -> sorted_by_key key out.
Proof.
  intros H. apply sorted_ok_inv in H. destruct H as (keys & Hk & ->).
  destruct (combine_keys_snd key l keys Hk) as [_ Hall].
  unfold sorted_by_key. apply StronglySorted_map.
  apply (StronglySorted_impl_on (fun a b => key_le a.1 b.1 = true) _
           (fun p => key p.2 = Ok p.1)).
  - intros a b Ha Hb Hab. exists a.1, b.1. auto.
  - eapply Permutation_Forall; [apply Permutation_sym, sort_keyed_Permutation | exact Hall].
  - apply sort_keyed_StronglySorted.
Qed.

Lemma sorted_all_keys_ok {A : Type} (key : A -> result (Z * Z)) (l : list A) :
  (forall a, In a l -> is_ok (key a) = true) -> is_ok (sorted key l) = true.
Proof.
  intros H. unfold sorted. apply traverse_all_ok in H.
  destruct (traverse key l); [reflexivity | discriminate H].
Qed.

(** ** The records of a row *)

Lemma process_mapping_plain (state_data : gmap string string) (state_fips : string)
  (total : Z) (item : string * mapping) :
  is_bracket item = false ->
  process_mapping state_data state_fips total item = Ok [].
Proof.
  unfold is_bracket, process_mapping. destruct item.2; [reflexivity | discriminate..].
Qed.

Lemma process_mapping_bracket (state_data : gmap string string) (state_fips : string)
  (total : Z) (item : string * mapping) (recs : list StateIncome) :
  is_bracket item = true ->
  process_mapping state_data state_fips total item = Ok recs ->
  exists r, recs = [r] /\ record_of state_data state_fips total item r.
Proof.
  unfold is_bracket, process_mapping, record_of, bracket_count, group_of.
  destruct item.2 as [s|g|g vars]; intros Hb H; [discriminate Hb|..].
  - repeat inv_bind H. injection H as <-.
    apply getitem_ok in E1, E2. eexists. split; [reflexivity|]. simpl.
    exists v0, v4. rewrite E. simpl. auto 10.
  - repeat inv_bind H. injection H as <-.
    apply getitem_ok in E0, E1. eexists. split; [reflexivity|]. simpl.
    exists v, v3. auto 10.
Qed.

Lemma process_mapping_group (state_data : gmap string string) (state_fips : string)
  (total : Z) (item : string * mapping) (recs : list StateIncome) :
  process_mapping state_data state_fips total item = Ok recs ->
  Forall (fun r => group_of item = Some (group r)) recs.
Proof.
  intros H. destruct (is_bracket item) eqn:Hb.
  - destruct (process_mapping_bracket _ _ _ _ _ Hb H) as (r & -> & Hr).
    constructor; [|constructor].
    destruct Hr as (? & ? & ? & ? & ? & ?). tauto.
  - rewrite process_mapping_plain in H by exact Hb. injection H as <-. constructor.
Qed.

(** Every group label of [INCOME_MAPPING] has a position in [IncomeGroup]. *)
Lemma income_mapping_groups_indexed :
  Forall (fun item => forall g, group_of item = Some g ->
                       is_ok (index g IncomeGroup) = true) INCOME_MAPPING.
Proof.
  unfold INCOME_MAPPING.
  repeat (constructor; [unfold group_of; simpl; intros g Hg;
                        try discriminate Hg; injection Hg as <-; reflexivity|]).
  constructor.
Qed.

Lemma traverse_concat_Forall {A B : Type} (f : A -> result (list B)) (P : B -> Prop)
  (l : list A) (out : list (list B)) :
  (forall a bs, In a l -> f a = Ok bs -> Forall P bs) ->
  traverse f l = Ok out -> Forall P (concat out).
Proof.
  intros Hf H. apply traverse_ok_Forall2 in H.
  induction H as [|a bs l bss Hab H IH]; simpl.
  - constructor.
  - apply List.Forall_app. split.
    + apply (Hf a); [left; reflexivity | exact Hab].
    + apply IH. intros a' bs' Hin. apply Hf. right. exact Hin.
Qed.

Lemma process_row_groups_indexed (header row : list string) (recs : list StateIncome) :
  process_row header row = Ok recs ->
  Forall (fun r => is_ok (by_state_income_group IncomeGroup r) = true) recs.
Proof.
  intros H. pose proof (process_row_ok_same_length _ _ _ H) as Hlen.
  rewrite process_row_same_length in H by exact Hlen. cbv zeta in H.
  inv_bind H. destruct (REGION_MAPPING !! v) as [reg|].
  - repeat inv_bind H. injection H as <-.
    eapply traverse_concat_Forall; [|exact E2].
    intros item bs Hin Hbs. apply process_mapping_group in Hbs.
    pose proof income_mapping_groups_indexed as Hidx.
    rewrite List.Forall_forall in Hidx. specialize (Hidx item Hin).
    eapply List.Forall_impl; [|exact Hbs]. intros r Hr. simpl in Hr.
    unfold by_state_income_group. specialize (Hidx _ Hr).
    destruct (index (group r) IncomeGroup); [reflexivity | discriminate Hidx].
  - injection H as <-. constructor.
Qed.

(** ** The whole transform *)

Lemma collect_records_groups_indexed (census_data : CensusResponse)
  (records : list StateIncome) :
  collect_records census_data = Ok records ->
  Forall (fun r => is_ok (by_state_income_group IncomeGroup r) = true) records.
Proof.
  unfold collect_records. intros H. inv_bind H. injection H as <-.
  eapply traverse_concat_Forall; [|exact E].
  intros row bs _ Hbs. eapply process_row_groups_indexed. exact Hbs.
Qed.

(** The sort never raises: the transform raises exactly what the loop
    raises. *)
Lemma process_state_records_raise (census_data : CensusResponse) (e : exn) :
  process_state_records census_data = Raise e <->
  collect_records census_data = Raise e.
Proof.
  unfold process_state_records.
  destruct (collect_records census_data) as [records|e'] eqn:E; simpl.
  - apply collect_records_groups_indexed in E.
    assert (Hs : is_ok (sorted (by_state_income_group IncomeGroup) records) = true).
    { apply sorted_all_keys_ok. rewrite List.Forall_forall in E. exact E. }
    destruct (sorted _ records); [|discriminate Hs].
    split; intros H; discriminate H.
  - reflexivity.
Qed.

Lemma process_state_records_ok (census_data : CensusResponse) (records : list StateIncome) :
  collect_records census_data = Ok records ->
  exists out, process_state_records census_data = Ok out /\
              Permutation out records /\
              sorted_by_key (by_state_income_group IncomeGroup) out.
Proof.
  intros E. unfold process_state_records. rewrite E. simpl.
  apply collect_records_groups_indexed in E.
  assert (Hs : is_ok (sorted (by_state_income_group IncomeGroup) records) = true).
  { apply sorted_all_keys_ok. rewrite List.Forall_forall in E. exact E. }
  destruct (sorted _ records) as [out|] eqn:Es; [|discriminate Hs].
  exists out. split; [reflexivity|]. split.
  - eapply sorted_Permutation. exact Es.
  - eapply sorted_sorted_by_key. exact Es.
Qed.

Lemma process_state_records_ok_inv (census_data : CensusResponse) (out : list StateIncome) :
  process_state_records census_data = Ok out ->
  exists records, collect_records census_data = Ok records /\
                  Permutation out records /\
                  sorted_by_key (by_state_income_group IncomeGroup) out.
Proof.
  intros H. destruct (collect_records census_data) as [records|e] eqn:E.
  - destruct (process_state_records_ok _ _ E) as (out' & H' & Hp & Hs).
    rewrite H in H'. injection H' as <-. exists records. auto.
  - apply process_state_records_raise in E. congruence.
Qed.

Lemma traverse_process_row_length (header : list string) (rows : list (list string))
  (recs : list (list StateIncome)) :
  traverse (process_row header) rows = Ok recs ->
  length (concat recs) = (10 * length (List.filter (in_region_table header) rows))%nat.
Proof.
  revert recs. induction rows as [|row rows IH]; intros recs H; simpl in H.
  - injection H as <-. reflexivity.
  - inv_bind H. inv_bind H. injection H as <-.
    apply process_row_length in E. apply IH in E0.
    simpl. rewrite length_app, E, E0.
    destruct (in_region_table header row); simpl; lia.
Qed.

Lemma collect_records_length (census_data : CensusResponse) (records : list StateIncome) :
  collect_records census_data = Ok records ->
  length records = (10 * count_region_rows census_data)%nat.
Proof.
  unfold collect_records, count_region_rows. intros H. inv_bind H. injection H as <-.
  apply traverse_process_row_length. exact E.
Qed.

Lemma process_state_records_length (census_data : CensusResponse) (out : list StateIncome) :
  process_state_records census_data = Ok out ->
  length out = (10 * count_region_rows census_data)%nat.
Proof.
  intros H. apply process_state_records_ok_inv in H.
  destruct H as (records & Hc & Hp & _).
  rewrite (Permutation_length Hp). apply collect_records_length. exact Hc.
Qed.

Example repr_0_1 : float_repr float_0_1 = "0.1".
Proof. vm_compute. reflexivity. Qed.

Example repr_third : float_repr (Float (Qmake 6004799503160661 18014398509481984)) = "0.3333333333333333".
Proof. vm_compute. reflexivity. Qed.

Example repr_0_333 : float_repr (Float (Qmake 5998794703657501 18014398509481984)) = "0.333".
Proof. vm_compute. reflexivity. Qed.

Example repr_100 : float_repr (Float (inject_Z 100)) = "100.0".
Proof. vm_compute. reflexivity. Qed.

Example repr_1e16 : float_repr (Float (inject_Z (10 ^ 16))) = "1e+16".
Proof. vm_compute. reflexivity. Qed.

Example repr_1e15 : float_repr (Float (inject_Z (10 ^ 15))) = "1000000000000000.0".
Proof. vm_compute. reflexivity. Qed.

Example repr_2_pow_70 : float_repr (Float (inject_Z (2 ^ 70))) = "1.1805916207174113e+21".
Proof. vm_compute. reflexivity. Qed.

Example repr_neg_half : float_repr (Float (Qmake (-1) 2)) = "-0.5".
Proof. vm_compute. reflexivity. Qed.

Example repr_0_001 : (let* x := truediv 1 1000 in Ok (float_repr x)) = Ok "0.001".
Proof. vm_compute. reflexivity. Qed.

Example repr_small : (let* x := truediv 3 200000 in Ok (float_repr x)) = Ok "1.5e-05".
Proof. vm_compute. reflexivity. Qed.

Example repr_0_3 : (let* x := truediv 3 10 in Ok (float_repr x)) = Ok "0.3".
Proof. vm_compute. reflexivity. Qed.

Example repr_sum : float_repr (Float (Qmake 1351079888211149 4503599627370496)) = "0.30000000000000004".
Proof. vm_compute. reflexivity. Qed.

Example repr_max : float_repr (Float (inject_Z (2 ^ 1024 - 2 ^ 971))) = "1.7976931348623157e+308".
Proof. vm_compute. reflexivity. Qed.

Example repr_min : float_repr (Float (Qmake 1 (Z.to_pos (2 ^ 1074)))) = "5e-324".
Proof. vm_compute. reflexivity. Qed.

Example repr_neg_zero : float_repr NegZero = "-0.0" /\ float_repr (Float (inject_Z 0)) = "0.0".
Proof. split; reflexivity. Qed.

Example repr_tie :
  float_repr (Float (Qmake 4938271560493699 4)) = "1234567890123424.8".
Proof. vm_compute. reflexivity. Qed.

Example int_repr_examples :
  int_repr 0 = "0" /\ int_repr 1000 = "1000" /\ int_repr (-42) = "-42".
Proof. vm_compute. auto. Qed.

(** ** Properties of the transform *)

(** The output of the transform is in the order of the sort key: by state
    id, then by the position of the group in [IncomeGroup]. *)
Lemma process_state_records_sorted (census_data : CensusResponse)
  (out : list StateIncome) :
  process_state_records census_data = Ok out ->
  sorted_by_key (by_state_income_group IncomeGroup) out.
Proof.
  intros H. apply process_state_records_ok_inv in H.
  destruct H as (records & _ & _ & Hs). exact Hs.
Qed.

(** C1: the ten records of a state come out in the order of the
    [IncomeGroup] literal, in which "75000 to 99999" stands before
    "50000 to 74999": for the one-row response of [alabama_row] the
    groups are not in low-to-high income order. *)
Theorem brackets_not_low_to_high :
  exists out,
    process_state_records {| header := example_header; data := [alabama_row] |} = Ok out /\
    map group out =
      [ "<10000"; "10000 to 14999"; "15000 to 24999"; "25000 to 34999";
        "35000 to 49999"; "75000 to 99999"; "50000 to 74999";
        "100000 to 149999"; "150000 to 199999"; "200000+" ] /\
    map id out = [1; 1; 1; 1; 1; 1; 1; 1; 1; 1] /\
    map group out <> brackets_low_to_high.
Proof.
  eexists. split; [vm_compute; reflexivity|].
  split; [reflexivity|]. split; [reflexivity|].
  intros H. discriminate H.
Qed.

Lemma collect_records_some_raise (census_data : CensusResponse) (row : list string) :
  In row (data census_data) ->
  is_ok (process_row (header census_data) row) = false ->
  exists e, process_state_records census_data = Raise e.
Proof.
  intros Hin Hrow.
  pose proof (traverse_some_raise _ _ _ Hin Hrow) as Ht.
  destruct (collect_records census_data) as [records|e] eqn:E.
  - unfold collect_records in E.
    destruct (traverse (process_row (header census_data)) (data census_data));
      [discriminate Ht | discriminate E].
  - exists e. apply process_state_records_raise. exact E.
Qed.

(** The transform raises what the first failing row raises. *)
Lemma process_state_records_first_raise (header : list string)
  (rows1 rows2 : list (list string)) (row : list string)
  (recs : list (list StateIncome)) (e : exn) :
  traverse (process_row header) rows1 = Ok recs ->
  process_row header row = Raise e ->
  process_state_records {| header := header; data := rows1 ++ row :: rows2 |} = Raise e.
Proof.
  intros H1 Hrow. apply process_state_records_raise.
  unfold collect_records. simpl.
  rewrite (traverse_first_raise _ _ _ _ _ _ H1 Hrow). reflexivity.
Qed.

Lemma main_transform_raise (REPO_ROOT : Path) (outcome : http_outcome)
  (disk : disk_outcome) (census_data : CensusResponse) (e : exn) (w : World) :
  get_census_data outcome = Ok census_data ->
  process_state_records census_data = Raise e ->
  main REPO_ROOT outcome disk w = (w, Raise e).
Proof.
  intros Hf Ht. unfold main. rewrite Hf, Ht. reflexivity.
Qed.

(** C6 (amended): when some data row has not the length of the header,
    the transform raises and the run ends with that exception, the files
    and the output untouched; the exception is the length error of [zip]
    when every row before that row is processed without one. *)
Theorem malformed_row_aborts_run (REPO_ROOT : Path) (outcome : http_outcome)
  (disk : disk_outcome) (census_data : CensusResponse) (w : World) :
  get_census_data outcome = Ok census_data ->
  (exists row, In row (data census_data) /\
               length row <> length (header census_data)) ->
  (exists e, process_state_records census_data = Raise e /\
             main REPO_ROOT outcome disk w = (w, Raise e)) /\
  (forall rows1 row rows2 recs,
     data census_data = rows1 ++ row :: rows2 ->
     length row <> length (header census_data) ->
     traverse (process_row (header census_data)) rows1 = Ok recs ->
     process_state_records census_data = Raise ZipLengthError /\
     main REPO_ROOT outcome disk w = (w, Raise ZipLengthError)).
Proof.
  intros Hf (row & Hin & Hlen). split.
  - destruct (collect_records_some_raise census_data row Hin) as [e He].
    { rewrite process_row_other_length by exact Hlen. reflexivity. }
    exists e. split; [exact He|]. eapply main_transform_raise; eassumption.
  - intros rows1 row' rows2 recs Hd Hlen' H1.
    assert (Ht : process_state_records census_data = Raise ZipLengthError).
    { destruct census_data as [h d]. simpl in *. subst d.
      eapply process_state_records_first_raise; [exact H1|].
      apply process_row_other_length. exact Hlen'. }
    split; [exact Ht|]. eapply main_transform_raise; eassumption.
Qed.

Lemma malformed_row_aborts_run_witness :
  (exists e,
     process_state_records
       {| header := example_header; data := [alabama_row; short_guam_row] |} = Raise e /\
     main ["repo"] (Response 200 (Some [example_header; alabama_row; short_guam_row]))
       WriteAll empty_world = (empty_world, Raise e)).
Proof.
  apply (malformed_row_aborts_run ["repo"]
           (Response 200 (Some [example_header; alabama_row; short_guam_row]))
           WriteAll
           {| header := example_header; data := [alabama_row; short_guam_row] |}
           empty_world).
  - reflexivity.
  - exists short_guam_row. split; [simpl; auto | vm_compute; lia].
Defined.

(** C6, as stated, fails: a row of the table that reports no household
    stands before the short row, and the transform raises the division
    error, not the length error. *)
Lemma malformed_row_error_preempted :
  let census_data :=
    {| header := example_header; data := [empty_state_row; short_guam_row] |} in
  In short_guam_row (data census_data) /\
  length short_guam_row <> length (header census_data) /\
  process_state_records census_data = Raise ZeroDivisionError /\
  ZeroDivisionError <> ZipLengthError.
Proof.
  cbv zeta. split; [simpl; auto|]. split; [vm_compute; lia|].
  split; [vm_compute; reflexivity | discriminate].
Qed.

(** A row that appends nothing can be left out. *)
Lemma traverse_skip {A B : Type} (f : A -> result (list B)) (l1 l2 : list A) (a : A) :
  f a = Ok [] ->
  (let* r := traverse f (l1 ++ a :: l2) in Ok (concat r)) =
  (let* r := traverse f (l1 ++ l2) in Ok (concat r)).
Proof.
  intros Ha. rewrite !traverse_app.
  destruct (traverse f l1) as [r1|e]; simpl; [|reflexivity].
  rewrite Ha. simpl.
  destruct (traverse f l2) as [r2|e]; simpl; [|reflexivity].
  rewrite !concat_app. reflexivity.
Qed.

(** C8 (amended): a data row of the length of the header whose state code
    is not a key of [REGION_MAPPING] appends no record and raises nothing,
    and the transform gives what it gives without that row. *)
Theorem unlisted_state_skipped (header : list string)
  (rows1 rows2 : list (list string)) (row : list string) (state_fips : string) :
  length row = length header ->
  state_code header row = Some state_fips ->
  REGION_MAPPING !! state_fips = None ->
  process_row header row = Ok [] /\
  process_state_records {| header := header; data := rows1 ++ row :: rows2 |} =
  process_state_records {| header := header; data := rows1 ++ rows2 |}.
Proof.
  intros Hlen Hcode Hreg.
  pose proof (process_row_skipped header row state_fips Hlen Hcode Hreg) as Hrow.
  split; [exact Hrow|].
  unfold process_state_records, collect_records. simpl.
  rewrite (traverse_skip _ rows1 rows2 row Hrow). reflexivity.
Qed.

Lemma unlisted_state_skipped_witness :
  process_row example_header guam_row = Ok [] /\
  process_state_records
    {| header := example_header; data := [alabama_row] ++ guam_row :: [] |} =
  process_state_records
    {| header := example_header; data := [alabama_row] ++ [] |}.
Proof.
  apply (unlisted_state_skipped example_header [alabama_row] [] guam_row "66").
  - reflexivity.
  - vm_compute. reflexivity.
  - vm_compute. reflexivity.
Defined.

(** C8, as stated, fails: the state code of [short_guam_row] is not a key
    of [REGION_MAPPING], and the row makes the transform raise. *)
Lemma unlisted_state_row_raises :
  state_code example_header short_guam_row = Some "66" /\
  REGION_MAPPING !! "66" = None /\
  process_state_records
    {| header := example_header; data := [short_guam_row] |} = Raise ZipLengthError.
Proof.
  split; [vm_compute; reflexivity|]. split; vm_compute; reflexivity.
Qed.

(** C10 (amended): a data row that has not the length of the header
    raises the length error whatever its state code, the code of a state
    of the table or not; the transform raises it when every row before
    that row is processed without an error. *)
Theorem length_checked_before_region (header : list string)
  (rows1 rows2 : list (list string)) (row : list string)
  (recs : list (list StateIncome)) :
  length row <> length header ->
  traverse (process_row header) rows1 = Ok recs ->
  process_row header row = Raise ZipLengthError /\
  process_state_records {| header := header; data := rows1 ++ row :: rows2 |} =
  Raise ZipLengthError.
Proof.
  intros Hlen H1.
  pose proof (process_row_other_length header row Hlen) as Hrow.
  split; [exact Hrow|].
  eapply process_state_records_first_raise; eassumption.
Qed.

Lemma length_checked_before_region_witness :
  in_region_table example_header short_guam_row = false /\
  process_row example_header short_guam_row = Raise ZipLengthError /\
  process_state_records
    {| header := example_header; data := [guam_row] ++ short_guam_row :: [alabama_row] |} =
  Raise ZipLengthError.
Proof.
  split; [vm_compute; reflexivity|].
  apply (length_checked_before_region example_header [guam_row] [alabama_row]
           short_guam_row [[]]).
  - vm_compute. lia.
  - vm_compute. reflexivity.
Defined.

(** C10, as stated, fails: the row before the short row has a total that
    is not a number, and the transform raises the error of [int]. *)
Lemma length_error_preempted :
  let census_data :=
    {| header := example_header; data := [unreadable_total_row; short_guam_row] |} in
  length short_guam_row <> length (header census_data) /\
  in_region_table (header census_data) short_guam_row = false /\
  process_state_records census_data = Raise (IntLiteralError "n/a") /\
  IntLiteralError "n/a" <> ZipLengthError.
Proof.
  cbv zeta. split; [vm_compute; lia|]. split; [vm_compute; reflexivity|].
  split; [vm_compute; reflexivity | discriminate].
Qed.

(** ** The fetch *)

(** C9 (amended): the fetch raises exactly when there is no response, the
    status is from 400 to 599, the body is not JSON or the body has fewer
    than two entries; when it returns, the header is the first entry of
    the body and the data rows are all the others. *)
Theorem fetch_fails_iff (outcome : http_outcome) :
  (is_ok (get_census_data outcome) = false <-> fetch_fails outcome) /\
  (forall census_data,
     get_census_data outcome = Ok census_data <->
     exists status_code,
       outcome = Response status_code
                   (Some (header census_data :: data census_data)) /\
       ~ 400 <= status_code < 600 /\ data census_data <> []).
Proof.
  destruct outcome as [|status_code body]; simpl.
  - split; [tauto|]. intros cd. split; [discriminate|].
    intros (s & H & _). discriminate H.
  - unfold raise_for_status.
    destruct ((400 <=? status_code) && (status_code <? 600)) eqn:Es; simpl.
    + assert (Hs : 400 <= status_code < 600) by lia.
      split; [tauto|]. intros cd. split; [discriminate|].
      intros (s & H & Hn & _). injection H as -> _. contradiction.
    + assert (Hs : ~ 400 <= status_code < 600) by lia.
      destruct body as [[|first [|second rest]]|]; simpl.
      * split; [split; [intros _; right; lia | reflexivity]|].
        intros cd. split; [discriminate|]. intros (s & H & _). discriminate H.
      * split; [split; [intros _; right; lia | reflexivity]|].
        intros cd. split; [discriminate|].
        intros (s & H & _ & Hd). injection H as _ _ H. congruence.
      * split; [split; [discriminate | intros [H|H]; [contradiction | lia]]|].
        intros [h d]. simpl. split.
        -- intros H. injection H as <- <-. exists status_code.
           split; [reflexivity|]. split; [exact Hs | discriminate].
        -- intros (s & H & _ & _). injection H as _ -> ->. reflexivity.
      * split; [tauto|]. intros cd. split; [discriminate|].
        intros (s & H & _). discriminate H.
Qed.

(** C9, as stated, fails: a response with status 300, which is not a 2xx
    status, and a body of two entries is returned, not raised. *)
Lemma fetch_accepts_status_300 :
  ~ 200 <= 300 < 300 /\
  get_census_data (Response 300 (Some [example_header; alabama_row])) =
  Ok {| header := example_header; data := [alabama_row] |}.
Proof. split; [lia | reflexivity]. Qed.

(** ** Floats: rounding and range *)

Lemma round_half_even_bound (n d : Z) :
  0 < d -> - d <= 2 * (round_half_even n d * d - n) <= d.
Proof.
  intros Hd. unfold round_half_even.
  pose proof (Z.div_mod n d ltac:(lia)) as Hdm.
  pose proof (Z.mod_pos_bound n d Hd) as Hm.
  destruct (Z.compare_spec (2 * (n mod d)) d) as [E|E|E].
  - destruct (Z.even (n / d)); nia.
  - nia.
  - nia.
Qed.

Lemma round_half_even_le (n d N : Z) :
  0 < d -> n <= N * d -> round_half_even n d <= N.
Proof.
  intros Hd Hn. pose proof (round_half_even_bound n d Hd). nia.
Qed.

Lemma round_half_even_ge (n d N : Z) :
  0 < d -> N * d <= n -> N <= round_half_even n d.
Proof.
  intros Hd Hn. pose proof (round_half_even_bound n d Hd). nia.
Qed.

Lemma binary_exponent_le (a b E : Z) :
  0 < a -> 0 < b -> 0 <= E -> a <= 2 ^ E * b -> binary_exponent a b <= E.
Proof.
  intros Ha Hb HE Hab. unfold binary_exponent.
  assert (Z.log2 a <= E + Z.log2 b).
  { rewrite <- Z.log2_mul_pow2 by lia. apply Z.log2_le_mono. lia. }
  destruct (ratio_lt_pow2 a b (Z.log2 a - Z.log2 b)); lia.
Qed.

Lemma binary_exponent_upper (a b : Z) :
  0 < a -> 0 < b -> ratio_lt_pow2 a b (binary_exponent a b + 1) = true.
Proof.
  intros Ha Hb. unfold binary_exponent.
  set (e0 := Z.log2 a - Z.log2 b).
  destruct (ratio_lt_pow2 a b e0) eqn:E.
  - replace (e0 - 1 + 1) with e0 by lia. exact E.
  - clear E. unfold ratio_lt_pow2.
    pose proof (Z.log2_spec a Ha) as [_ Hua].
    pose proof (Z.log2_spec b Hb) as [Hlb _].
    pose proof (Z.log2_nonneg a). pose proof (Z.log2_nonneg b).
    destruct (0 <=? e0 + 1) eqn:Es.
    + apply Z.leb_le in Es. apply Z.ltb_lt.
      replace (Z.succ (Z.log2 a)) with (Z.log2 b + (e0 + 1)) in Hua by lia.
      rewrite Z.pow_add_r in Hua by lia.
      assert (0 < 2 ^ (e0 + 1)) by (apply Z.pow_pos_nonneg; lia). nia.
    + apply Z.leb_gt in Es. apply Z.ltb_lt.
      assert (Hp : 2 ^ Z.succ (Z.log2 a) * 2 ^ (- (e0 + 1)) = 2 ^ Z.log2 b).
      { rewrite <- Z.pow_add_r by lia. f_equal. lia. }
      assert (0 < 2 ^ (- (e0 + 1))) by (apply Z.pow_pos_nonneg; lia). nia.
Qed.

(** What [binary64_of_ratio] computes for a ratio of magnitude at most
    [2 ^ E]: no overflow, and a significand [m] with unit [2 ^ u]. *)
Lemma binary64_of_ratio_core (n d E : Z) :
  n <> 0 -> d <> 0 -> 0 <= E <= 1023 -> Z.abs n <= 2 ^ E * Z.abs d ->
  exists m u,
    binary64_of_ratio n d = Ok (dyadic (Z.sgn n * Z.sgn d * m) u) /\
    0 <= m /\ -1074 <= u <= E - 52 /\
    (0 <= u -> m * 2 ^ u <= 2 ^ E) /\
    (u < 0 -> m <= 2 ^ E * 2 ^ (- u) /\
              - Z.abs d <= 2 * (m * Z.abs d - Z.abs n * 2 ^ (- u)) <= Z.abs d).
Proof.
  intros Hn Hd HE Hle. unfold binary64_of_ratio.
  destruct (n =? 0) eqn:En; [lia|]. clear En.
  set (a := Z.abs n) in *. set (b := Z.abs d) in *.
  assert (Ha : 0 < a) by lia. assert (Hb : 0 < b) by lia.
  pose proof (binary_exponent_le a b E Ha Hb ltac:(lia) Hle) as He.
  set (u := Z.max (binary_exponent a b - 52) (-1074)).
  assert (Hu : -1074 <= u <= E - 52) by lia.
  assert (HpE : 0 < 2 ^ E) by (apply Z.pow_pos_nonneg; lia).
  destruct (0 <=? u) eqn:Eu.
  - apply Z.leb_le in Eu.
    assert (Hpu : 0 < 2 ^ u) by (apply Z.pow_pos_nonneg; lia).
    set (m := round_half_even a (b * 2 ^ u)).
    assert (Hsplit : 2 ^ E = 2 ^ (E - u) * 2 ^ u).
    { rewrite <- Z.pow_add_r by lia. f_equal. lia. }
    assert (Hm1 : m <= 2 ^ (E - u)).
    { apply round_half_even_le; [nia|]. rewrite Hsplit in Hle. nia. }
    assert (Hm0 : 0 <= m) by (apply round_half_even_ge; nia).
    assert (Hmu : m * 2 ^ u <= 2 ^ E) by (rewrite Hsplit; nia).
    assert (Hlt : 2 ^ E < 2 ^ 1024) by (apply Z.pow_lt_mono_r; lia).
    destruct (2 ^ 1024 <=? m * 2 ^ u) eqn:Eo; [apply Z.leb_le in Eo; lia|].
    simpl. exists m, u. repeat split; try lia.
  - apply Z.leb_gt in Eu. simpl.
    assert (Hpu : 0 < 2 ^ (- u)) by (apply Z.pow_pos_nonneg; lia).
    set (m := round_half_even (a * 2 ^ (- u)) b).
    exists m, u.
    pose proof (round_half_even_bound (a * 2 ^ (- u)) b Hb) as Hbd.
    assert (Hm1 : m <= 2 ^ E * 2 ^ (- u)) by (apply round_half_even_le; nia).
    assert (Hm0 : 0 <= m) by (apply round_half_even_ge; nia).
    repeat split; try lia.
Qed.

Lemma Zpos_to_pos_pow2 (k : Z) : 0 <= k -> Zpos (Z.to_pos (2 ^ k)) = 2 ^ k.
Proof. intros Hk. apply Z2Pos.id. apply Z.pow_pos_nonneg; lia. Qed.

Lemma dyadic_bounds (M u N : Z) :
  (0 <= u -> Z.abs M * 2 ^ u <= N) ->
  (u < 0 -> Z.abs M <= N * 2 ^ (- u)) ->
  (- inject_Z N <= dyadic M u <= inject_Z N)%Q.
Proof.
  intros H0 H1. unfold dyadic. destruct (0 <=? u) eqn:Eu.
  - apply Z.leb_le in Eu. specialize (H0 Eu).
    assert (0 < 2 ^ u) by (apply Z.pow_pos_nonneg; lia).
    change (- inject_Z N)%Q with (inject_Z (- N)).
    rewrite <- !Zle_Qle. nia.
  - apply Z.leb_gt in Eu. specialize (H1 Eu).
    rewrite Qred_correct. unfold Qle. simpl.
    rewrite Zpos_to_pos_pow2 by lia. nia.
Qed.

Lemma dyadic_nonneg (M u : Z) : 0 <= M -> (0 <= dyadic M u)%Q.
Proof.
  intros HM. unfold dyadic. destruct (0 <=? u) eqn:Eu.
  - apply Z.leb_le in Eu.
    assert (0 < 2 ^ u) by (apply Z.pow_pos_nonneg; lia).
    change 0%Q with (inject_Z 0). rewrite <- Zle_Qle. nia.
  - rewrite Qred_correct. unfold Qle. simpl. lia.
Qed.

(** A ratio of magnitude at most [2 ^ E] has a float, of magnitude at most
    [2 ^ E]. *)
Lemma binary64_of_ratio_in_range (n d E : Z) :
  d <> 0 -> 0 <= E <= 1023 -> Z.abs n <= 2 ^ E * Z.abs d ->
  exists x, binary64_of_ratio n d = Ok x /\
            (- inject_Z (2 ^ E) <= x <= inject_Z (2 ^ E))%Q.
Proof.
  intros Hd HE Hle.
  assert (HpE : 0 < 2 ^ E) by (apply Z.pow_pos_nonneg; lia).
  destruct (Z.eq_dec n 0) as [->|Hn].
  - exists (inject_Z 0). split; [reflexivity|].
    change (- inject_Z (2 ^ E))%Q with (inject_Z (- 2 ^ E)).
    rewrite <- !Zle_Qle. lia.
  - destruct (binary64_of_ratio_core n d E Hn Hd HE Hle)
      as (m & u & Hx & Hm & Hu & H0 & H1).
    eexists. split; [exact Hx|].
    apply dyadic_bounds.
    + intros Hu0. specialize (H0 Hu0).
      replace (Z.abs (Z.sgn n * Z.sgn d * m)) with m by lia. exact H0.
    + intros Hu0. destruct (H1 Hu0) as [H1' _].
      replace (Z.abs (Z.sgn n * Z.sgn d * m)) with m by lia. exact H1'.
Qed.

(** A ratio in the unit interval has a float in the unit interval, off
    by [2 ^ -53] at most. *)
Lemma binary64_of_ratio_unit (n : Z) (d : positive) :
  0 <= n <= Zpos d ->
  exists x, binary64_of_ratio n (Zpos d) = Ok x /\
            (0 <= x <= 1)%Q /\
            (- (1 # 2 ^ 53) <= x - (n # d) <= 1 # 2 ^ 53)%Q.
Proof.
  intros Hn.
  destruct (Z.eq_dec n 0) as [->|Hn0].
  - exists (inject_Z 0). split; [reflexivity|]. split.
    + split; unfold Qle; simpl; lia.
    + split; unfold Qle; simpl; lia.
  - destruct (binary64_of_ratio_core n (Zpos d) 0 Hn0 ltac:(lia) ltac:(lia) ltac:(lia))
      as (m & u & Hx & Hm & Hu & H0 & H1).
    replace (Z.sgn n * Z.sgn (Z.pos d) * m) with m in Hx by lia.
    exists (dyadic m u). split; [exact Hx|].
    assert (Hu0 : u < 0) by lia. destruct (H1 Hu0) as [Hm1 Herr].
    assert (HP : 2 ^ 52 <= 2 ^ (- u)) by (apply Z.pow_le_mono_r; lia).
    split.
    + split; [apply dyadic_nonneg; exact Hm|].
      pose proof (dyadic_bounds m u 1 ltac:(lia) ltac:(lia)) as [_ Hb]. exact Hb.
    + unfold dyadic. destruct (0 <=? u) eqn:Eu; [apply Z.leb_le in Eu; lia|].
      rewrite Qred_correct.
      replace (Z.abs n) with n in Herr by lia.
      replace (Z.abs (Z.pos d)) with (Z.pos d) in Herr by lia.
      unfold Qle, Qminus, Qplus, Qopp. simpl.
      rewrite !Pos2Z.inj_mul, Zpos_to_pos_pow2 by lia.
      set (P := 2 ^ (- u)) in *. set (D := Z.pos d) in *.
      assert (0 < D) by (unfold D; lia).
      change (Z.pos (2 ^ 53)) with (2 * 2 ^ 52).
      split; nia.
Qed.

(** The value of a float is the value it was made of. *)
Lemma value_with_sign (negative : bool) (q : Q) : (value (with_sign negative q) == q)%Q.
Proof.
  unfold with_sign. destruct ((Qnum q =? 0) && negative) eqn:E; [|reflexivity].
  apply andb_prop in E. destruct E as [E _]. apply Z.eqb_eq in E.
  destruct q as [num den]. simpl in E. subst num.
  unfold value, Qeq. simpl. reflexivity.
Qed.

Lemma with_sign_positive (q : Q) : with_sign false q = Float q.
Proof. unfold with_sign. rewrite andb_false_r. reflexivity. Qed.

(** [round(x, 3)] of a float of magnitude at most [2 ^ E] does not
    overflow. *)
Lemma round3_in_range (x : float) (E : Z) :
  0 <= E <= 1023 ->
  (- inject_Z (2 ^ E) <= x <= inject_Z (2 ^ E))%Q ->
  exists y : float, round3 x = Ok y /\
            (- inject_Z (2 ^ E) <= y <= inject_Z (2 ^ E))%Q.
Proof.
  intros HE [Hlo Hhi]. unfold round3, float_of_ratio.
  destruct (binary64_of_ratio_in_range
              (round_half_even (1000 * Qnum (value x)) (Zpos (Qden (value x)))) 1000 E)
    as (q & Hq & Hb); [lia | exact HE | |].
  - destruct (value x) as [num den]. unfold Qle in Hlo, Hhi. simpl in *.
    assert (HpE : 0 < 2 ^ E) by (apply Z.pow_pos_nonneg; lia).
    pose proof (round_half_even_le (1000 * num) (Z.pos den) (1000 * 2 ^ E)
                  ltac:(lia) ltac:(nia)).
    pose proof (round_half_even_ge (1000 * num) (Z.pos den) (- (1000 * 2 ^ E))
                  ltac:(lia) ltac:(nia)).
    lia.
  - rewrite Hq. cbn [bind]. eexists. split; [reflexivity|].
    rewrite value_with_sign. exact Hb.
Qed.

(** [round(x, 3)] of a float in the unit interval is in the unit
    interval, off by [0.0005 + 2 ^ -53] at most. *)
Lemma round3_unit (x : float) :
  (0 <= x <= 1)%Q ->
  exists y : float, round3 x = Ok y /\
            (0 <= y <= 1)%Q /\
            (- ((1 # 2000) + (1 # 2 ^ 53)) <= y - x <= (1 # 2000) + (1 # 2 ^ 53))%Q.
Proof.
  intros [Hlo Hhi]. unfold round3, float_of_ratio.
  destruct (value x) as [num den] eqn:Ex. unfold Qle in Hlo, Hhi. simpl in *.
  set (k := round_half_even (1000 * num) (Z.pos den)).
  pose proof (round_half_even_bound (1000 * num) (Z.pos den) ltac:(lia)) as Hb.
  fold k in Hb.
  assert (Hk1 : k <= 1000) by (apply round_half_even_le; lia).
  assert (Hk0 : 0 <= k) by (apply round_half_even_ge; lia).
  destruct (binary64_of_ratio_unit k 1000 ltac:(lia)) as (y & Hy & Hy01 & Hyerr).
  rewrite Hy. cbn [bind]. eexists. split; [reflexivity|].
  rewrite value_with_sign. split; [exact Hy01|].
  assert (Hkx : (- (1 # 2000) <= (k # 1000) - (num # den) <= 1 # 2000)%Q).
  { unfold Qle, Qminus, Qplus, Qopp. simpl.
    rewrite !Pos2Z.inj_mul. lia. }
  set (c := (k # 1000)%Q) in *. set (x0 := (num # den)%Q) in *.
  lra.
Qed.

(** The share of a bracket that holds [count] of [total] households:
    between 0 and 1, and off the exact share by [0.0005 + 2 ^ -52] at
    most. *)
Lemma pct_of_share (count : Z) (total : positive) :
  0 <= count <= Zpos total ->
  exists quotient pct : float,
    truediv count (Zpos total) = Ok quotient /\
    round3 quotient = Ok pct /\
    (0 <= pct <= 1)%Q /\
    (- ((1 # 2000) + (1 # 2 ^ 52)) <= pct - (count # total)
       <= (1 # 2000) + (1 # 2 ^ 52))%Q.
Proof.
  intros Hc. unfold truediv, float_of_ratio. cbn [Z.eqb].
  destruct (binary64_of_ratio_unit count total Hc) as (q & Hq & Hq01 & Hqerr).
  rewrite Hq. cbn [bind].
  set (quotient := with_sign (xorb (count <? 0) (Z.pos total <? 0)) q).
  assert (Hv : (value quotient == q)%Q) by apply value_with_sign.
  assert (Hq01' : (0 <= quotient <= 1)%Q) by (rewrite Hv; exact Hq01).
  destruct (round3_unit quotient Hq01') as (p & Hp & Hp01 & Hperr).
  exists quotient, p. split; [reflexivity|]. split; [exact Hp|]. split; [exact Hp01|].
  rewrite Hv in Hperr.
  set (s := (count # total)%Q) in *.
  assert (H52 : ((1 # 2 ^ 52) == (1 # 2 ^ 53) + (1 # 2 ^ 53))%Q) by reflexivity.
  rewrite H52. lra.
Qed.

(** A quotient of magnitude at most [2 ^ 1022] has a share. *)
Lemma pct_in_range (count total : Z) :
  total <> 0 -> Z.abs count <= 2 ^ 1022 * Z.abs total ->
  exists quotient pct,
    truediv count total = Ok quotient /\ round3 quotient = Ok pct.
Proof.
  intros Ht Hc. unfold truediv, float_of_ratio.
  destruct (total =? 0) eqn:E; [lia|].
  destruct (binary64_of_ratio_in_range count total 1022 Ht ltac:(lia) Hc) as (q & Hq & Hqr).
  rewrite Hq. cbn [bind].
  set (quotient := with_sign (xorb (count <? 0) (total <? 0)) q).
  assert (Hqr' : (- inject_Z (2 ^ 1022) <= quotient <= inject_Z (2 ^ 1022))%Q)
    by (unfold quotient; rewrite value_with_sign; exact Hqr).
  destruct (round3_in_range quotient 1022 ltac:(lia) Hqr') as (p & Hp & _).
  exists quotient, p. split; [reflexivity | exact Hp].
Qed.

(** ** What a row needs to be processed *)

Lemma foldl_insert_lookup {V : Type} (pairs : list (string * V)) (m : gmap string V)
  (k : string) (v : V) :
  foldl (fun m p => <[p.1 := p.2]> m) m pairs !! k = Some v ->
  In (k, v) pairs \/ m !! k = Some v.
Proof.
  revert m. induction pairs as [|[k' v'] pairs IH]; intros m H; simpl in *.
  - right. exact H.
  - destruct (IH _ H) as [Hin|Hm]; [left; right; exact Hin|].
    destruct (decide (k' = k)) as [->|Hne].
    + rewrite lookup_insert_eq in Hm. injection Hm as ->. left. left. reflexivity.
    + rewrite lookup_insert_ne in Hm by exact Hne. right. exact Hm.
Qed.

Lemma dict_lookup_In {V : Type} (pairs : list (string * V)) (k : string) (v : V) :
  dict pairs !! k = Some v -> In (k, v) pairs.
Proof.
  intros H. destruct (foldl_insert_lookup pairs ∅ k v H) as [Hin|He]; [exact Hin|].
  rewrite lookup_empty in He. discriminate He.
Qed.

(** Every key of [REGION_MAPPING] reads as an integer. *)
Lemma region_keys_int (state_fips region : string) :
  REGION_MAPPING !! state_fips = Some region -> is_ok (int state_fips) = true.
Proof.
  intros H. apply dict_lookup_In in H.
  assert (Hall : Forall (fun p => is_ok (int p.1) = true) REGION_ITEMS).
  { unfold REGION_ITEMS. repeat (constructor; [reflexivity|]). constructor. }
  rewrite List.Forall_forall in Hall. exact (Hall _ H).
Qed.

(** The inner loop on one item: nothing for the total, and for a bracket
    its count, then the fields of the record in the order of the keyword
    arguments. *)
Lemma process_mapping_eq (state_data : gmap string string) (state_fips : string)
  (households : Z) (item : string * mapping) :
  process_mapping state_data state_fips households item =
  match group_of item with
  | None => Ok []
  | Some group =>
      let* count := bracket_count state_data item in
      let* name := getitem state_data "NAME" in
      let* region := getitem REGION_MAPPING state_fips in
      let* id := int state_fips in
      let* quotient := truediv count households in
      let* pct := round3 quotient in
      Ok [ {| name := name; region := region; id := id; pct := pct;
              total := households; group := group |} ]
  end.
Proof.
  unfold process_mapping, group_of, bracket_count.
  destruct item.2 as [s|g|g vars]; [reflexivity| |reflexivity].
  cbn [bind]. destruct (getitem state_data item.1); reflexivity.
Qed.

Lemma process_mapping_ok (state_data : gmap string string) (state_fips region : string)
  (households count : Z) (item : string * mapping) :
  is_ok (getitem state_data "NAME") = true ->
  REGION_MAPPING !! state_fips = Some region ->
  households <> 0 ->
  bracket_count state_data item = Ok count ->
  Z.abs count <= 2 ^ 1022 * Z.abs households ->
  is_ok (process_mapping state_data state_fips households item) = true.
Proof.
  intros Hname Hreg Hh Hc Hrange. rewrite process_mapping_eq.
  destruct (group_of item) as [g|]; [|reflexivity].
  rewrite Hc. cbn [bind].
  destruct (getitem state_data "NAME") as [nm|]; [cbn [bind] | discriminate Hname].
  pose proof (region_keys_int _ _ Hreg) as Hid.
  unfold getitem at 1. rewrite Hreg. cbn [bind].
  destruct (int state_fips) as [i|]; [cbn [bind] | discriminate Hid].
  destruct (pct_in_range count households Hh Hrange) as (q & p & Hq & Hp).
  rewrite Hq. cbn [bind]. rewrite Hp. reflexivity.
Qed.

Lemma is_bracket_group_of (item : string * mapping) :
  is_bracket item = false -> group_of item = None.
Proof. unfold is_bracket, group_of. destruct item.2; [reflexivity | discriminate..]. Qed.

Lemma process_row_valid (header row : list string) :
  valid_row header row = true -> is_ok (process_row header row) = true.
Proof.
  unfold valid_row. cbv zeta. intros H.
  apply andb_prop in H. destruct H as [Hlen H]. apply Nat.eqb_eq in Hlen.
  rewrite process_row_same_length by exact Hlen. cbv zeta.
  unfold state_code in H.
  destruct (state_data_of header row !! "state") as [state_fips|] eqn:Ecode;
    [|discriminate H].
  unfold getitem at 1. rewrite Ecode. cbn [bind].
  destruct (REGION_MAPPING !! state_fips) as [region|] eqn:Ereg; [|reflexivity].
  apply andb_prop in H. destruct H as [Hname H].
  unfold int_field in H.
  destruct (getitem (state_data_of header row) "B19001_001E") as [s|]; cbn [bind] in *;
    [|discriminate H].
  destruct (int s) as [households|]; cbn [bind] in *; [|discriminate H].
  apply andb_prop in H. destruct H as [Hnz Hall].
  apply negb_true_iff, Z.eqb_neq in Hnz.
  rewrite forallb_forall in Hall.
  assert (Ht : is_ok (traverse (process_mapping (state_data_of header row)
                                  state_fips households) INCOME_MAPPING) = true).
  { apply traverse_all_ok. intros item Hin.
    destruct (is_bracket item) eqn:Eb.
    - assert (Hib : In item brackets) by (apply List.filter_In; auto).
      specialize (Hall _ Hib).
      destruct (bracket_count (state_data_of header row) item) as [count|] eqn:Ec;
        [|discriminate Hall].
      apply Z.leb_le in Hall.
      eapply process_mapping_ok; eassumption.
    - rewrite process_mapping_eq, is_bracket_group_of by exact Eb. reflexivity. }
  destruct (traverse _ INCOME_MAPPING); [reflexivity | discriminate Ht].
Qed.

Lemma collect_records_valid (census_data : CensusResponse) :
  valid_response census_data = true ->
  exists records, collect_records census_data = Ok records.
Proof.
  unfold valid_response, collect_records. intros H.
  rewrite forallb_forall in H.
  assert (Ht : is_ok (traverse (process_row (header census_data))
                        (data census_data)) = true).
  { apply traverse_all_ok. intros row Hin. apply process_row_valid, H, Hin. }
  destruct (traverse _ (data census_data)) as [recs|]; [|discriminate Ht].
  eexists. reflexivity.
Qed.

(** C2 (amended): for a response in which every data row is valid (the
    length of the header, a state code, and for a state of the table a
    name, a non-zero integer total and integer bracket fields whose counts
    are within the range of a float of the total), the transform returns
    exactly ten records for every data row whose state code is a key of
    [REGION_MAPPING]. *)
Theorem ten_records_per_listed_state (census_data : CensusResponse) :
  valid_response census_data = true ->
  exists out,
    process_state_records census_data = Ok out /\
    length out = (10 * count_region_rows census_data)%nat.
Proof.
  intros Hv. destruct (collect_records_valid census_data Hv) as [records Hc].
  destruct (process_state_records_ok census_data records Hc) as (out & Ho & _ & _).
  exists out. split; [exact Ho|].
  apply process_state_records_length. exact Ho.
Qed.

Lemma ten_records_per_listed_state_witness :
  exists out,
    process_state_records
      {| header := example_header; data := [guam_row; overfull_row; alabama_row] |} = Ok out /\
    length out = 20%nat.
Proof.
  apply (ten_records_per_listed_state
           {| header := example_header; data := [guam_row; overfull_row; alabama_row] |}).
  vm_compute. reflexivity.
Defined.

(** C2, as stated, fails: the response has no name column; its one row has
    the length of the header, integers in every mapped field and a
    non-zero total, and its state is in the table, but the transform
    raises and returns no record. *)
Lemma valid_as_stated_raises :
  let census_data := {| header := nameless_header; data := [nameless_row] |} in
  length nameless_row = length (header census_data) /\
  count_region_rows census_data = 1%nat /\
  int_field (state_data_of nameless_header nameless_row) "B19001_001E" = Ok 1000 /\
  forallb (fun item =>
             is_ok (bracket_count (state_data_of nameless_header nameless_row) item))
    INCOME_MAPPING = true /\
  process_state_records census_data = Raise (KeyError "NAME").
Proof.
  cbv zeta. repeat split; vm_compute; reflexivity.
Qed.

(** ** Where a record comes from *)

Lemma traverse_In {A B : Type} (f : A -> result B) (l : list A) (bs : list B) (a : A) :
  traverse f l = Ok bs -> In a l -> exists b, f a = Ok b /\ In b bs.
Proof.
  intros H. apply traverse_ok_Forall2 in H.
  induction H as [|x y l ys Hxy H IH]; simpl; [tauto|].
  intros [->|Hin].
  - exists y. auto.
  - destruct (IH Hin) as (b & Hb & Hbin). exists b. auto.
Qed.

Lemma traverse_In_inv {A B : Type} (f : A -> result B) (l : list A) (bs : list B) (b : B) :
  traverse f l = Ok bs -> In b bs -> exists a, In a l /\ f a = Ok b.
Proof.
  intros H. apply traverse_ok_Forall2 in H.
  induction H as [|x y l ys Hxy H IH]; simpl; [tauto|].
  intros [->|Hin].
  - exists x. auto.
  - destruct (IH Hin) as (a & Ha & Hab). exists a. auto.
Qed.

Lemma truediv_ok_nonzero (count households : Z) (quotient : float) :
  truediv count households = Ok quotient -> households <> 0.
Proof.
  unfold truediv. destruct (households =? 0) eqn:E; [discriminate|].
  intros _. apply Z.eqb_neq. exact E.
Qed.

(** Every record of a row is the record of one of its brackets. *)
Lemma process_row_records (header row : list string) (recs : list StateIncome)
  (r : StateIncome) :
  process_row header row = Ok recs -> In r recs ->
  exists state_fips item,
    state_code header row = Some state_fips /\
    In item INCOME_MAPPING /\
    int_field (state_data_of header row) "B19001_001E" = Ok (total r) /\
    record_of (state_data_of header row) state_fips (total r) item r.
Proof.
  intros H Hin. pose proof (process_row_ok_same_length _ _ _ H) as Hlen.
  rewrite process_row_same_length in H by exact Hlen. cbv zeta in H.
  inv_bind H. apply getitem_ok in E.
  destruct (REGION_MAPPING !! v) as [reg|].
  - inv_bind H. inv_bind H. inv_bind H. injection H as <-.
    apply in_concat in Hin. destruct Hin as (rs & Hrs & Hr).
    destruct (traverse_In_inv _ _ _ _ E2 Hrs) as (item & Hitem & Hpm).
    destruct (is_bracket item) eqn:Eb.
    + destruct (process_mapping_bracket _ _ _ _ _ Eb Hpm) as (r' & -> & Hrec).
      destruct Hr as [<-|[]].
      assert (Ht : total r' = v1).
      { destruct Hrec as (? & ? & ? & ? & ? & ? & ? & ? & ? & ?). assumption. }
      exists v, item. rewrite Ht. unfold int_field. rewrite E0. cbn [bind].
      auto.
    + rewrite process_mapping_plain in Hpm by exact Eb.
      injection Hpm as <-. destruct Hr.
  - injection H as <-. destruct Hin.
Qed.

Lemma process_state_records_records (census_data : CensusResponse)
  (out : list StateIncome) (r : StateIncome) :
  process_state_records census_data = Ok out -> In r out ->
  exists row recs,
    In row (data census_data) /\
    process_row (header census_data) row = Ok recs /\ In r recs.
Proof.
  intros H Hin. apply process_state_records_ok_inv in H.
  destruct H as (records & Hc & Hp & _).
  apply (Permutation_in _ Hp) in Hin.
  unfold collect_records in Hc. inv_bind Hc. injection Hc as <-.
  apply in_concat in Hin. destruct Hin as (recs & Hrecs & Hr).
  destruct (traverse_In_inv _ _ _ _ E Hrecs) as (row & Hrow & Hpr).
  exists row, recs. auto.
Qed.

(** With a total of zero the record of a bracket is never built: the
    count is read, then the name, then the division raises. *)
Lemma process_mapping_zero_total (state_data : gmap string string)
  (state_fips region : string) (item : string * mapping) :
  REGION_MAPPING !! state_fips = Some region ->
  is_bracket item = true ->
  process_mapping state_data state_fips 0 item =
  (let* count := bracket_count state_data item in
   let* name := getitem state_data "NAME" in
   Raise ZeroDivisionError).
Proof.
  intros Hreg Hb. rewrite process_mapping_eq.
  unfold is_bracket in Hb. unfold group_of.
  pose proof (region_keys_int _ _ Hreg) as Hid.
  destruct item.2 as [s|g|g vars]; [discriminate Hb|..];
    (destruct (bracket_count state_data item); cbn [bind]; [|reflexivity];
     destruct (getitem state_data "NAME"); cbn [bind]; [|reflexivity];
     unfold getitem; rewrite Hreg; cbn [bind];
     destruct (int state_fips); [cbn [bind] | discriminate Hid];
     reflexivity).
Qed.

Lemma process_row_zero_total (header row : list string) (state_fips region : string) :
  length row = length header ->
  state_code header row = Some state_fips ->
  REGION_MAPPING !! state_fips = Some region ->
  int_field (state_data_of header row) "B19001_001E" = Ok 0 ->
  process_row header row =
  (let* count := int_field (state_data_of header row) "B19001_002E" in
   let* name := getitem (state_data_of header row) "NAME" in
   Raise ZeroDivisionError).
Proof.
  intros Hlen Hcode Hreg Htot.
  rewrite process_row_same_length by exact Hlen. cbv zeta.
  unfold state_code in Hcode. apply getitem_ok in Hcode. rewrite Hcode. cbn [bind].
  rewrite Hreg. unfold int_field in Htot.
  destruct (getitem (state_data_of header row) "B19001_001E") as [s|];
    cbn [bind] in *; [|discriminate Htot].
  rewrite Htot. cbn [bind].
  unfold INCOME_MAPPING. cbn [traverse].
  rewrite (process_mapping_plain _ _ _ ("B19001_001E", Plain "total")) by reflexivity.
  cbn [bind].
  rewrite (process_mapping_zero_total _ _ region
             ("B19001_002E", BaseIncomeGroup "<10000")) by (exact Hreg || reflexivity).
  change (bracket_count (state_data_of header row)
            ("B19001_002E", BaseIncomeGroup "<10000"))
    with (int_field (state_data_of header row) "B19001_002E").
  destruct (int_field (state_data_of header row) "B19001_002E"); cbn [bind];
    [|reflexivity].
  destruct (getitem (state_data_of header row) "NAME"); reflexivity.
Qed.

(** C7 (amended): when a data row of the length of the header has a state
    code of the table and a total that reads as zero, the transform
    raises; it raises the division error when every row before that row
    is processed without an error and the row has a name and an integer
    in its first bracket field, which are read before the division. And
    every record that the transform returns has a non-zero total and the
    pct [round(count / total, 3)] of the count of its bracket. *)
Theorem zero_total_raises (census_data : CensusResponse)
  (rows1 rows2 : list (list string)) (row : list string)
  (state_fips region : string) :
  data census_data = rows1 ++ row :: rows2 ->
  length row = length (header census_data) ->
  state_code (header census_data) row = Some state_fips ->
  REGION_MAPPING !! state_fips = Some region ->
  int_field (state_data_of (header census_data) row) "B19001_001E" = Ok 0 ->
  (exists e, process_state_records census_data = Raise e) /\
  (forall recs,
     traverse (process_row (header census_data)) rows1 = Ok recs ->
     is_ok (int_field (state_data_of (header census_data) row) "B19001_002E") = true ->
     is_ok (getitem (state_data_of (header census_data) row) "NAME") = true ->
     process_state_records census_data = Raise ZeroDivisionError) /\
  (forall response out r,
     process_state_records response = Ok out -> In r out ->
     total r <> 0 /\
     exists row' state_fips' item,
       In row' (data response) /\ In item INCOME_MAPPING /\
       record_of (state_data_of (header response) row') state_fips' (total r) item r).
Proof.
  intros Hd Hlen Hcode Hreg Htot.
  pose proof (process_row_zero_total _ _ _ _ Hlen Hcode Hreg Htot) as Hrow.
  split; [|split].
  - apply (collect_records_some_raise census_data row).
    + rewrite Hd. apply in_or_app. right. left. reflexivity.
    + rewrite Hrow.
      destruct (int_field _ "B19001_002E"); cbn [bind]; [|reflexivity].
      destruct (getitem _ "NAME"); reflexivity.
  - intros recs H1 Hc Hn.
    destruct census_data as [h d]. cbn [header data] in *. subst d.
    eapply process_state_records_first_raise; [exact H1|].
    rewrite Hrow.
    destruct (int_field _ "B19001_002E"); cbn [bind]; [|discriminate Hc].
    destruct (getitem _ "NAME"); [reflexivity | discriminate Hn].
  - intros response out r Ho Hin.
    destruct (process_state_records_records _ _ _ Ho Hin) as (row' & recs & Hrow' & Hpr & Hr).
    destruct (process_row_records _ _ _ _ Hpr Hr) as (f & item & _ & Hitem & _ & Hrec).
    split.
    + destruct Hrec as (count & q & _ & Hq & _).
      eapply truediv_ok_nonzero. exact Hq.
    + exists row', f, item. auto.
Qed.

Lemma zero_total_raises_witness :
  process_state_records
    {| header := example_header; data := [alabama_row] ++ empty_state_row :: [guam_row] |} =
  Raise ZeroDivisionError.
Proof.
  refine (proj1 (proj2 (zero_total_raises
           {| header := example_header; data := [alabama_row] ++ empty_state_row :: [guam_row] |}
           [alabama_row] [guam_row] empty_state_row "02" "west" _ _ _ _ _)) _ _ _ _).
  - reflexivity.
  - reflexivity.
  - vm_compute. reflexivity.
  - vm_compute. reflexivity.
  - vm_compute. reflexivity.
  - vm_compute. reflexivity.
  - vm_compute. reflexivity.
  - vm_compute. reflexivity.
Defined.

(** C7, as stated, fails: the state of [unreadable_count_row] is in the
    table and its total reads as zero, but its first bracket field is not
    a number, and the transform raises the error of [int], not the
    division error. *)
Lemma zero_total_other_error :
  let census_data := {| header := example_header; data := [unreadable_count_row] |} in
  in_region_table (header census_data) unreadable_count_row = true /\
  int_field (state_data_of (header census_data) unreadable_count_row) "B19001_001E" = Ok 0 /\
  process_state_records census_data = Raise (IntLiteralError "n/a") /\
  IntLiteralError "n/a" <> ZeroDivisionError.
Proof.
  cbv zeta. split; [vm_compute; reflexivity|]. split; [vm_compute; reflexivity|].
  split; [vm_compute; reflexivity | discriminate].
Qed.

(** C5 (amended): in a valid response, a data row for state "01" with
    B19001_001E = "1000" and B19001_002E = "100" gives ten records, all
    in the output of the transform, and one of them has the group
    "<10000", the name of the row, the region "south", the id 1, the pct
    0.1 and the total 1000. *)
Theorem scenario_record (census_data : CensusResponse) (row : list string)
  (state_name : string) :
  valid_response census_data = true ->
  In row (data census_data) ->
  state_data_of (header census_data) row !! "state" = Some "01" ->
  state_data_of (header census_data) row !! "NAME" = Some state_name ->
  state_data_of (header census_data) row !! "B19001_001E" = Some "1000" ->
  state_data_of (header census_data) row !! "B19001_002E" = Some "100" ->
  exists out recs,
    process_state_records census_data = Ok out /\
    process_row (header census_data) row = Ok recs /\
    length recs = 10%nat /\
    (forall r, In r recs -> In r out) /\
    In {| name := state_name; region := "south"; id := 1; pct := float_0_1;
          total := 1000; group := "<10000" |} recs.
Proof.
  intros Hv Hin Hstate Hname Htot Hcnt.
  destruct (collect_records_valid census_data Hv) as [records Hc].
  destruct (process_state_records_ok census_data records Hc) as (out & Ho & Hp & _).
  unfold collect_records in Hc. inv_bind Hc. injection Hc as <-.
  destruct (traverse_In _ _ _ _ E Hin) as (recs & Hpr & Hrecs).
  assert (Hreg : REGION_MAPPING !! "01" = Some "south") by (vm_compute; reflexivity).
  exists out, recs. split; [exact Ho|]. split; [exact Hpr|]. split; [|split].
  - rewrite (process_row_length _ _ _ Hpr).
    unfold in_region_table, state_code. rewrite Hstate, Hreg. reflexivity.
  - intros r Hr. apply (Permutation_in _ (Permutation_sym Hp)).
    apply in_concat. exists recs. auto.
  - pose proof (process_row_ok_same_length _ _ _ Hpr) as Hlen.
    rewrite process_row_same_length in Hpr by exact Hlen. cbv zeta in Hpr.
    apply getitem_ok in Hstate, Hname, Htot, Hcnt.
    rewrite Hstate in Hpr. cbn [bind] in Hpr. rewrite Hreg, Htot in Hpr.
    cbn [bind] in Hpr.
    change (int "1000") with (Ok (A:=Z) 1000) in Hpr. cbn [bind] in Hpr.
    inv_bind Hpr. injection Hpr as <-.
    destruct (traverse_In _ _ _ ("B19001_002E", BaseIncomeGroup "<10000") E0)
      as (b & Hb & Hbin); [right; left; reflexivity|].
    rewrite process_mapping_eq in Hb. cbn [group_of snd] in Hb.
    unfold bracket_count in Hb. cbn [fst snd] in Hb.
    rewrite Hcnt, Hname in Hb. cbn [bind] in Hb.
    change (int "100") with (Ok (A:=Z) 100) in Hb. cbn [bind] in Hb.
    unfold getitem in Hb. rewrite Hreg in Hb. cbn [bind] in Hb.
    change (int "01") with (Ok (A:=Z) 1) in Hb. cbn [bind] in Hb.
    change (truediv 100 1000) with (Ok float_0_1) in Hb. cbn [bind] in Hb.
    change (round3 float_0_1) with (Ok float_0_1) in Hb. cbn [bind] in Hb.
    injection Hb as <-.
    apply in_concat. eexists. split; [exact Hbin|]. left. reflexivity.
Qed.

Lemma scenario_record_witness :
  exists out recs,
    process_state_records
      {| header := example_header; data := [guam_row; alabama_row] |} = Ok out /\
    process_row example_header alabama_row = Ok recs /\
    length recs = 10%nat /\
    (forall r, In r recs -> In r out) /\
    In {| name := "Alabama"; region := "south"; id := 1; pct := float_0_1;
          total := 1000; group := "<10000" |} recs.
Proof.
  apply (scenario_record
           {| header := example_header; data := [guam_row; alabama_row] |}
           alabama_row "Alabama").
  - vm_compute. reflexivity.
  - right. left. reflexivity.
  - vm_compute. reflexivity.
  - vm_compute. reflexivity.
  - vm_compute. reflexivity.
  - vm_compute. reflexivity.
Defined.

(** C5, as stated, fails: [huge_count_row] is a data row for state "01"
    with B19001_001E = "1000" and B19001_002E = "100", a name and an
    integer in every mapped field, under the header of the scenario; but
    the quotient of its second bracket is beyond the range of a float,
    and the transform raises: no record is returned. *)
Lemma scenario_overflows :
  let census_data := {| header := example_header; data := [huge_count_row] |} in
  let state_data := state_data_of (header census_data) huge_count_row in
  state_data !! "state" = Some "01" /\
  state_data !! "B19001_001E" = Some "1000" /\
  state_data !! "B19001_002E" = Some "100" /\
  is_ok (getitem state_data "NAME") = true /\
  forallb (fun item => is_ok (bracket_count state_data item)) brackets = true /\
  process_state_records census_data = Raise OverflowError.
Proof.
  cbv zeta. repeat split; vm_compute; reflexivity.
Qed.

(** ** Shares of the brackets of a row *)

(** The records of a row, bracket by bracket, against the counts of the
    brackets. *)
Lemma brackets_shares (state_data : gmap string string) (state_fips : string)
  (households : Z) (items : list (string * mapping))
  (rs : list (list StateIncome)) (counts : list Z) :
  traverse (process_mapping state_data state_fips households) items = Ok rs ->
  traverse (bracket_count state_data) (List.filter is_bracket items) = Ok counts ->
  Forall2 (fun r count => exists quotient,
             truediv count households = Ok quotient /\
             round3 quotient = Ok (pct r))
    (concat rs) counts.
Proof.
  revert rs counts. induction items as [|item items IH]; intros rs counts H1 H2.
  - cbn in H1, H2. injection H1 as <-. injection H2 as <-. constructor.
  - cbn [traverse] in H1. inv_bind H1. inv_bind H1. injection H1 as <-.
    cbn [List.filter] in H2. destruct (is_bracket item) eqn:Eb.
    + cbn [traverse] in H2. inv_bind H2. inv_bind H2. injection H2 as <-.
      destruct (process_mapping_bracket _ _ _ _ _ Eb E) as (r & -> & Hrec).
      destruct Hrec as (count & q & Hc & Hq & Hp & _).
      cbn [concat app]. constructor.
      * exists q. split; [congruence | exact Hp].
      * apply IH; assumption.
    + rewrite process_mapping_plain in E by exact Eb. injection E as <-.
      cbn [concat app]. apply IH; assumption.
Qed.

Lemma Zsum_ge (l : list Z) (c : Z) :
  Forall (fun x => 0 <= x) l -> In c l -> 0 <= c <= Zsum l.
Proof.
  induction 1 as [|x l Hx Hl IH]; simpl; [tauto|].
  assert (0 <= Zsum l).
  { clear IH. induction Hl; simpl; [lia|]. unfold Zsum in *. simpl. lia. }
  intros [->|Hin]; [lia|]. specialize (IH Hin). lia.
Qed.

(** The error of a sum is at most the sum of the errors. *)
Lemma Qsum_error (eps : Q) (t : positive) (ps : list float) (counts : list Z) :
  Forall2 (fun (p : float) count => - eps <= p - (count # t) <= eps)%Q ps counts ->
  (- (inject_Z (Z.of_nat (length ps)) * eps)
     <= Qsum ps - (Zsum counts # t)
     <= inject_Z (Z.of_nat (length ps)) * eps)%Q.
Proof.
  induction 1 as [|p c ps cs Hpc H IH].
  - cbn. split; unfold Qle; simpl; lia.
  - cbn [length Qsum Zsum fold_right].
    fold (Qsum ps). fold (Zsum cs).
    rewrite Nat2Z.inj_succ, <- Z.add_1_r, inject_Z_plus.
    rewrite <- Qinv_plus_distr.
    set (a := (c # t)%Q) in *. set (b := (Zsum cs # t)%Q) in *.
    set (n := inject_Z (Z.of_nat (length ps))) in *.
    change (inject_Z 1) with 1%Q.
    destruct Hpc, IH. split; lra.
Qed.

(** A row of the table whose brackets partition its households: every
    pct is between 0 and 1, and the ten of them add up to 1 within
    0.01. *)
Lemma process_row_consistent (header row : list string) (recs : list StateIncome) :
  process_row header row = Ok recs ->
  in_region_table header row = true ->
  consistent_row header row = true ->
  Forall (fun r => 0 <= pct r <= 1)%Q recs /\
  (99 # 100 <= Qsum (map pct recs) <= 101 # 100)%Q.
Proof.
  intros H Hreg Hcons.
  pose proof (process_row_length _ _ _ H) as Hlen10. rewrite Hreg in Hlen10.
  pose proof (process_row_ok_same_length _ _ _ H) as Hlen.
  rewrite process_row_same_length in H by exact Hlen. cbv zeta in H.
  inv_bind H. apply getitem_ok in E.
  unfold in_region_table, state_code in Hreg. rewrite E in Hreg.
  destruct (REGION_MAPPING !! v) as [region|]; [|discriminate Hreg].
  inv_bind H. inv_bind H. inv_bind H. injection H as <-.
  unfold consistent_row in Hcons. cbv zeta in Hcons.
  unfold int_field in Hcons. rewrite E0 in Hcons. cbn [bind] in Hcons.
  rewrite E1 in Hcons.
  destruct (traverse (bracket_count (state_data_of header row)) brackets)
    as [counts|] eqn:Ec; [|discriminate Hcons].
  apply andb_prop in Hcons. destruct Hcons as [Hcons Hsum].
  apply andb_prop in Hcons. destruct Hcons as [Hpos Hnn].
  apply Z.ltb_lt in Hpos. apply Z.eqb_eq in Hsum.
  rewrite forallb_forall in Hnn.
  assert (Hnn' : Forall (fun x => 0 <= x) counts).
  { apply List.Forall_forall. intros x Hx. apply Z.leb_le, Hnn, Hx. }
  pose proof (brackets_shares _ _ _ _ _ _ E2 Ec) as Hsh.
  set (t := Z.to_pos v1).
  assert (Ht : v1 = Zpos t) by (unfold t; rewrite Z2Pos.id; lia).
  set (eps := ((1 # 2000) + (1 # 2 ^ 52))%Q).
  assert (Hall : Forall2 (fun r count =>
                   (0 <= pct r <= 1)%Q /\
                   (- eps <= pct r - (count # t) <= eps)%Q) (concat v2) counts).
  { assert (Hin : forall c, In c counts -> 0 <= c <= Zpos t).
    { intros c Hc. rewrite <- Ht, <- Hsum. apply Zsum_ge; assumption. }
    clear - Hsh Hin Ht. induction Hsh as [|r c rs cs Hrc Hsh IH]; constructor.
    - destruct Hrc as (q & Hq & Hp).
      destruct (pct_of_share c t (Hin c (or_introl eq_refl)))
        as (q' & p' & Hq' & Hp' & H01 & Herr).
      rewrite Ht, Hq' in Hq. injection Hq as <-.
      rewrite Hp' in Hp. injection Hp as <-. split; assumption.
    - apply IH. intros c' Hc'. apply Hin. right. exact Hc'. }
  split.
  - clear - Hall. induction Hall as [|r c rs cs [H01 _] Hall IH]; constructor; assumption.
  - assert (Herr : Forall2 (fun (p : float) count => (- eps <= p - (count # t) <= eps)%Q)
                     (map pct (concat v2)) counts).
    { clear - Hall. induction Hall as [|r c rs cs [_ He] Hall IH]; cbn [map];
        constructor; assumption. }
    pose proof (Qsum_error eps t _ _ Herr) as Hq.
    rewrite length_map, Hlen10, Hsum, Ht in Hq.
    assert (H1 : (Z.pos t # t == 1)%Q) by (unfold Qeq; simpl; lia).
    rewrite H1 in Hq. unfold eps in Hq.
    change (inject_Z (Z.of_nat 10)) with (10 # 1)%Q in Hq.
    assert (Hsmall : ((1 # 2 ^ 52) <= 1 # 10000)%Q) by (unfold Qle; simpl; lia).
    destruct Hq. split; lra.
Qed.

(** C3 (amended): when the transform returns and every data row of a
    state of the table has a positive total and non-negative bracket
    counts that add up to the total, every pct of the output is between 0
    and 1, and the ten pct of each such row, all in the output, add up to
    1 within 0.01. *)
Theorem pct_shares (census_data : CensusResponse) (out : list StateIncome) :
  process_state_records census_data = Ok out ->
  consistent_response census_data = true ->
  Forall (fun r => 0 <= pct r <= 1)%Q out /\
  (forall row,
     In row (data census_data) ->
     in_region_table (header census_data) row = true ->
     exists recs,
       process_row (header census_data) row = Ok recs /\
       length recs = 10%nat /\
       (forall r, In r recs -> In r out) /\
       (99 # 100 <= Qsum (map pct recs) <= 101 # 100)%Q).
Proof.
  intros Ho Hcons. unfold consistent_response in Hcons.
  rewrite forallb_forall in Hcons. split.
  - apply List.Forall_forall. intros r Hr.
    destruct (process_state_records_records _ _ _ Ho Hr) as (row & recs & Hrow & Hpr & Hin).
    pose proof (process_row_length _ _ _ Hpr) as Hlen.
    specialize (Hcons row Hrow).
    destruct (in_region_table (header census_data) row) eqn:Et.
    + cbn [implb] in Hcons.
      destruct (process_row_consistent _ _ _ Hpr Et Hcons) as [Hall _].
      rewrite List.Forall_forall in Hall. exact (Hall r Hin).
    + destruct recs; [destruct Hin | discriminate Hlen].
  - intros row Hrow Et.
    pose proof (process_state_records_ok_inv _ _ Ho) as (records & Hc & Hp & _).
    unfold collect_records in Hc. inv_bind Hc. injection Hc as <-.
    destruct (traverse_In _ _ _ _ E Hrow) as (recs & Hpr & Hrecs).
    exists recs. split; [exact Hpr|]. split; [|split].
    + rewrite (process_row_length _ _ _ Hpr), Et. reflexivity.
    + intros r Hr. apply (Permutation_in _ (Permutation_sym Hp)).
      apply in_concat. exists recs. auto.
    + specialize (Hcons row Hrow). rewrite Et in Hcons. cbn [implb] in Hcons.
      exact (proj2 (process_row_consistent _ _ _ Hpr Et Hcons)).
Qed.

Lemma pct_shares_witness :
  exists out,
    process_state_records
      {| header := example_header; data := [guam_row; alabama_row] |} = Ok out /\
    Forall (fun r => 0 <= pct r <= 1)%Q out.
Proof.
  destruct (process_state_records
              {| header := example_header; data := [guam_row; alabama_row] |})
    as [out|e] eqn:Ho; [|vm_compute in Ho; discriminate Ho].
  exists out. split; [reflexivity|].
  refine (proj1 (pct_shares _ out Ho _)).
  vm_compute. reflexivity.
Defined.

(** C3, as stated, fails: [overfull_row] has the length of the header,
    integers in every mapped field and a non-zero total, but its first
    bracket holds twice the total: its first pct is 2.0 and its ten pct
    add up to more than 1.01. *)
Lemma shares_beyond_one :
  valid_response {| header := example_header; data := [overfull_row] |} = true /\
  exists out,
    process_state_records
      {| header := example_header; data := [overfull_row] |} = Ok out /\
    map id out = [6; 6; 6; 6; 6; 6; 6; 6; 6; 6] /\
    hd (Float (inject_Z 0)) (map pct out) = Float (inject_Z 2) /\
    (101 # 100 < Qsum (map pct out))%Q.
Proof.
  split; [vm_compute; reflexivity|].
  eexists. split; [vm_compute; reflexivity|].
  split; [reflexivity|]. split; [reflexivity|].
  vm_compute. reflexivity.
Qed.

(** ** The writer and the run *)

Lemma encode_array_last (indent level : nat) (items : list json) :
  exists body, encode indent level (JArr items) = body ++ ["]"%char].
Proof.
  destruct items as [|x items].
  - exists ["["%char]. reflexivity.
  - exists ("["%char :: newline_indent indent (S level)
            ++ join (","%char :: newline_indent indent (S level))
                 (map (encode indent (S level)) (x :: items))
            ++ newline_indent indent level).
    cbn [encode app]. rewrite <- !app_assoc. reflexivity.
Qed.

(** The text that [write_json] writes ends with the closing bracket of
    the array: [json.dumps] adds no line feed after it, and [write_text]
    writes the text as it is. *)
Theorem dump_ends_with_bracket (data : list StateIncome) :
  (exists body,
     list_ascii_of_string (json_dumps_indent2 data) = body ++ ["]"%char]) /\
  ends_with_newline (json_dumps_indent2 data) = false.
Proof.
  unfold json_dumps_indent2, ends_with_newline.
  rewrite list_ascii_of_string_of_list_ascii.
  destruct (encode_array_last 2 0 (map StateIncome_items data)) as [body ->].
  split; [exists body; reflexivity|].
  rewrite rev_app_distr. reflexivity.
Qed.

Lemma chain_self (p : Path) : p <> [] -> In p (chain p).
Proof.
  intros Hp. unfold chain. apply in_map_iff. exists (length p). split.
  - apply firstn_all.
  - apply in_seq. destruct p; [congruence | simpl; lia].
Qed.

Lemma chain_length (p d : Path) : In d (chain p) -> (length d <= length p)%nat.
Proof.
  unfold chain. intros H. apply in_map_iff in H. destruct H as (n & <- & Hn).
  rewrite length_take. lia.
Qed.

Lemma parent_OUTPUT_FILE (REPO_ROOT : Path) :
  parent (OUTPUT_FILE REPO_ROOT) = OUTPUT_DIR REPO_ROOT.
Proof. unfold parent, OUTPUT_FILE. apply removelast_last. Qed.

Lemma OUTPUT_FILE_not_in_chain (REPO_ROOT : Path) :
  ~ In (OUTPUT_FILE REPO_ROOT) (chain (OUTPUT_DIR REPO_ROOT)).
Proof.
  intros H. apply chain_length in H. unfold OUTPUT_FILE in H.
  rewrite length_app in H. simpl in H. lia.
Qed.

Lemma is_dir_true (fs : FileSystem) (p : Path) :
  is_dir fs p = true <-> p = [] \/ p ∈ dirs fs.
Proof. unfold is_dir. apply bool_decide_eq_true. Qed.

Lemma is_dir_false (fs : FileSystem) (p : Path) :
  is_dir fs p = false <-> p <> [] /\ p ∉ dirs fs.
Proof. unfold is_dir. rewrite bool_decide_eq_false. tauto. Qed.

(** The two closing statements of [main] when no regular file stands
    where a directory is needed and no directory where the file goes. *)
Lemma write_OUTPUT_FILE (REPO_ROOT : Path) (data : list StateIncome)
  (disk : disk_outcome) (fs : FileSystem) :
  existsb (is_file fs) (chain (OUTPUT_DIR REPO_ROOT)) = false ->
  is_dir fs (OUTPUT_FILE REPO_ROOT) = false ->
  mkdir_parents_exist_ok (parent (OUTPUT_FILE REPO_ROOT)) fs =
    Ok {| dirs := dirs fs ∪ list_to_set (chain (OUTPUT_DIR REPO_ROOT));
          files := files fs |} /\
  write_json data (OUTPUT_FILE REPO_ROOT) disk
    {| dirs := dirs fs ∪ list_to_set (chain (OUTPUT_DIR REPO_ROOT));
       files := files fs |} =
    ({| dirs := dirs fs ∪ list_to_set (chain (OUTPUT_DIR REPO_ROOT));
        files := <[OUTPUT_FILE REPO_ROOT :=
                     written_bytes disk (utf8 (json_dumps_indent2 data))]> (files fs) |},
     write_result disk).
Proof.
  intros Hfiles Hdir. rewrite parent_OUTPUT_FILE. split.
  - unfold mkdir_parents_exist_ok. rewrite Hfiles. reflexivity.
  - unfold write_json, write_text. rewrite parent_OUTPUT_FILE.
    set (fs1 := {| dirs := dirs fs ∪ list_to_set (chain (OUTPUT_DIR REPO_ROOT));
                   files := files fs |}).
    assert (H1 : is_dir fs1 (OUTPUT_FILE REPO_ROOT) = false).
    { apply is_dir_false. apply is_dir_false in Hdir. destruct Hdir as [Hne Hnot].
      split; [exact Hne|]. unfold fs1. cbn [dirs].
      rewrite elem_of_union, elem_of_list_to_set, list_elem_of_In.
      intros [H|H]; [contradiction | exact (OUTPUT_FILE_not_in_chain _ H)]. }
    assert (H2 : existsb (is_file fs1) (chain (OUTPUT_DIR REPO_ROOT)) = false)
      by exact Hfiles.
    assert (H3 : is_dir fs1 (OUTPUT_DIR REPO_ROOT) = true).
    { apply is_dir_true. right. unfold fs1. cbn [dirs].
      rewrite elem_of_union, elem_of_list_to_set, list_elem_of_In.
      right. apply chain_self. unfold OUTPUT_DIR. destruct REPO_ROOT; discriminate. }
    rewrite H1, H2, H3. reflexivity.
Qed.

(** The run when the fetch and the transform return and nothing stands
    in the way of the directories and of the file: the first line is
    printed, the directories are made and the file is written, as far as
    the disk takes it; the second line is printed when it took it all. *)
Lemma main_returns (REPO_ROOT : Path) (outcome : http_outcome) (disk : disk_outcome)
  (census_data : CensusResponse) (records : list StateIncome) (w : World) :
  get_census_data outcome = Ok census_data ->
  process_state_records census_data = Ok records ->
  existsb (is_file (fs w)) (chain (OUTPUT_DIR REPO_ROOT)) = false ->
  is_dir (fs w) (OUTPUT_FILE REPO_ROOT) = false ->
  main REPO_ROOT outcome disk w =
    (let w2 :=
       {| fs := {| dirs := dirs (fs w) ∪ list_to_set (chain (OUTPUT_DIR REPO_ROOT));
                   files := <[OUTPUT_FILE REPO_ROOT :=
                                written_bytes disk (utf8 (json_dumps_indent2 records))]>
                              (files (fs w)) |};
          stdout := stdout w ++ [found_line records] |} in
     match disk with
     | WriteAll =>
         (print (String.append "Data written to " (path_str (OUTPUT_FILE REPO_ROOT))) w2,
          Ok tt)
     | WriteFails _ => (w2, Raise WriteError)
     end).
Proof.
  intros Hf Ht Hfiles Hdir. unfold main. rewrite Hf, Ht.
  destruct (write_OUTPUT_FILE REPO_ROOT records disk (fs w) Hfiles Hdir) as [Hm Hw].
  cbn [print fs stdout]. rewrite Hm, Hw. destruct disk; reflexivity.
Qed.

(** When the fetch and the transform return, no regular file stands on
    the way to the data directory, the output path is no directory and
    the disk takes the bytes, [main] ends without an exception: the
    directories down to the data directory exist, the output file holds
    the UTF-8 text of the dump of the records, every other file is as
    before, and the two lines are printed, the first with the number of
    records, ten for every data row of a state of the table. *)
Theorem main_writes_output (REPO_ROOT : Path) (outcome : http_outcome)
  (census_data : CensusResponse) (records : list StateIncome) (w : World) :
  get_census_data outcome = Ok census_data ->
  process_state_records census_data = Ok records ->
  existsb (is_file (fs w)) (chain (OUTPUT_DIR REPO_ROOT)) = false ->
  is_dir (fs w) (OUTPUT_FILE REPO_ROOT) = false ->
  main REPO_ROOT outcome WriteAll w =
    ({| fs := {| dirs := dirs (fs w) ∪ list_to_set (chain (OUTPUT_DIR REPO_ROOT));
                 files := <[OUTPUT_FILE REPO_ROOT := utf8 (json_dumps_indent2 records)]>
                            (files (fs w)) |};
        stdout := (stdout w
                   ++ [String.append "Found "
                         (String.append
                            (int_repr (Z.of_nat (10 * count_region_rows census_data)))
                            " state-income group combinations")])
                  ++ [String.append "Data written to " (path_str (OUTPUT_FILE REPO_ROOT))] |},
     Ok tt).
Proof.
  intros Hf Ht Hfiles Hdir.
  rewrite (main_returns REPO_ROOT outcome WriteAll census_data records w Hf Ht Hfiles Hdir).
  cbv zeta. unfold found_line, print. cbn [fs stdout written_bytes].
  rewrite (process_state_records_length _ _ Ht). reflexivity.
Qed.

Lemma main_writes_output_witness :
  exists w',
    main ["repo"] (Response 200 (Some [example_header; guam_row; alabama_row]))
      WriteAll empty_world
    = (w', Ok tt) /\
    stdout w' = [ "Found 10 state-income group combinations";
                  "Data written to /repo/data/income.json" ].
Proof.
  destruct (process_state_records
              {| header := example_header; data := [guam_row; alabama_row] |})
    as [records|e] eqn:Ht; [|vm_compute in Ht; discriminate Ht].
  eexists. split.
  - apply (main_writes_output ["repo"]
             (Response 200 (Some [example_header; guam_row; alabama_row]))
             {| header := example_header; data := [guam_row; alabama_row] |}
             records empty_world).
    + reflexivity.
    + exact Ht.
    + vm_compute. reflexivity.
    + vm_compute. reflexivity.
  - vm_compute. reflexivity.
Defined.

Lemma existsb_false {A : Type} (f : A -> bool) (l : list A) :
  existsb f l = false <-> forall a, In a l -> f a = false.
Proof.
  induction l as [|x l IH]; simpl; [tauto|].
  rewrite orb_false_iff, IH. split.
  - intros [Hx Hl] a [<-|Ha]; auto.
  - intros H. split; [apply H; auto | intros a Ha; apply H; auto].
Qed.

(** What a run that ends without an exception has gone through. *)
Lemma main_ok_inv (REPO_ROOT : Path) (outcome : http_outcome) (disk : disk_outcome)
  (w : World) :
  (main REPO_ROOT outcome disk w).2 = Ok tt ->
  exists census_data records,
    get_census_data outcome = Ok census_data /\
    process_state_records census_data = Ok records /\
    existsb (is_file (fs w)) (chain (OUTPUT_DIR REPO_ROOT)) = false /\
    is_dir (fs w) (OUTPUT_FILE REPO_ROOT) = false /\
    disk = WriteAll.
Proof.
  unfold main. intros H.
  destruct (get_census_data outcome) as [census_data|] eqn:Hf0; [|discriminate H].
  destruct (process_state_records census_data) as [records|] eqn:Ht0;
    [|discriminate H].
  exists census_data, records. split; [reflexivity|]. split; [exact Ht0|].
  unfold mkdir_parents_exist_ok in H. rewrite parent_OUTPUT_FILE in H.
  cbn [print fs stdout] in H.
  destruct (existsb (is_file (fs w)) (chain (OUTPUT_DIR REPO_ROOT))) eqn:Hf;
    [discriminate H|].
  split; [reflexivity|].
  unfold write_json, write_text in H.
  match type of H with
  | context [is_dir ?f (OUTPUT_FILE REPO_ROOT)] =>
      destruct (is_dir f (OUTPUT_FILE REPO_ROOT)) eqn:Hd; [discriminate H|]
  end.
  split.
  - apply is_dir_false in Hd. cbn [dirs] in Hd. apply is_dir_false.
    destruct Hd as [Hne Hnot]. split; [exact Hne|].
    intros Hin. apply Hnot. apply elem_of_union. left. exact Hin.
  - destruct (existsb _ _) in H; [discriminate H|].
    destruct (negb _) in H; [discriminate H|].
    destruct disk; [reflexivity | discriminate H].
Qed.

(** A second run after a run that ended without an exception, with the
    same response, ends without an exception too and leaves the
    directories and the files as the first run left them: the output file
    is written over with the same text. *)
Theorem main_rerun_same_files (REPO_ROOT : Path) (outcome : http_outcome)
  (disk : disk_outcome) (w w1 : World) :
  main REPO_ROOT outcome disk w = (w1, Ok tt) ->
  exists w2, main REPO_ROOT outcome disk w1 = (w2, Ok tt) /\ fs w2 = fs w1.
Proof.
  intros H.
  destruct (main_ok_inv REPO_ROOT outcome disk w)
    as (census_data & records & Hf & Ht & Hfiles & Hdir & ->);
    [rewrite H; reflexivity|].
  pose proof (main_returns REPO_ROOT outcome WriteAll census_data records w
                Hf Ht Hfiles Hdir) as H1.
  rewrite H in H1. cbv zeta in H1. injection H1 as ->.
  assert (Hfiles1 : existsb (is_file
              {| dirs := dirs (fs w) ∪ list_to_set (chain (OUTPUT_DIR REPO_ROOT));
                 files := <[OUTPUT_FILE REPO_ROOT := utf8 (json_dumps_indent2 records)]>
                            (files (fs w)) |}) (chain (OUTPUT_DIR REPO_ROOT)) = false).
  { apply existsb_false. intros d Hd.
    rewrite existsb_false in Hfiles. specialize (Hfiles d Hd).
    unfold is_file in *. cbn [files].
    rewrite lookup_insert_ne; [exact Hfiles|].
    intros <-. exact (OUTPUT_FILE_not_in_chain _ Hd). }
  assert (Hdir1 : is_dir
              {| dirs := dirs (fs w) ∪ list_to_set (chain (OUTPUT_DIR REPO_ROOT));
                 files := <[OUTPUT_FILE REPO_ROOT := utf8 (json_dumps_indent2 records)]>
                            (files (fs w)) |} (OUTPUT_FILE REPO_ROOT) = false).
  { apply is_dir_false. apply is_dir_false in Hdir. destruct Hdir as [Hne Hnot].
    split; [exact Hne|]. cbn [dirs].
    rewrite elem_of_union, elem_of_list_to_set, list_elem_of_In.
    intros [Hin|Hin]; [contradiction | exact (OUTPUT_FILE_not_in_chain _ Hin)]. }
  eexists. split.
  - rewrite (main_returns REPO_ROOT outcome WriteAll census_data records _ Hf Ht);
      [reflexivity | cbn [print fs]; exact Hfiles1 | cbn [print fs]; exact Hdir1].
  - cbn [print fs dirs files written_bytes]. f_equal.
    + apply set_eq. intros d. rewrite !elem_of_union. tauto.
    + apply insert_insert_eq.
Qed.

Lemma main_rerun_same_files_witness :
  exists w1 w2,
    main ["repo"] (Response 200 (Some [example_header; alabama_row])) WriteAll empty_world
    = (w1, Ok tt) /\
    main ["repo"] (Response 200 (Some [example_header; alabama_row])) WriteAll w1
    = (w2, Ok tt) /\ fs w2 = fs w1.
Proof.
  destruct (main ["repo"] (Response 200 (Some [example_header; alabama_row]))
              WriteAll empty_world)
    as [w1 r] eqn:H1.
  assert (Hr : r = Ok tt) by (apply (f_equal snd) in H1; vm_compute in H1; congruence).
  subst r. exists w1.
  destruct (main_rerun_same_files _ _ _ _ _ H1) as (w2 & H2 & Hfs).
  exists w2. auto.
Defined.

(** ** The sort key and the order of the output *)

Lemma index_ok (x : string) (t : list string) (j : Z) :
  index x t = Ok j ->
  0 <= j /\ nth_error t (Z.to_nat j) = Some x /\ ~ In x (firstn (Z.to_nat j) t).
Proof.
  revert j. induction t as [|y t IH]; intros j H; cbn [index] in H; [discriminate H|].
  destruct (String.eqb y x) eqn:E.
  - injection H as <-. apply String.eqb_eq in E. subst y.
    split; [lia|]. split; [reflexivity | simpl; tauto].
  - apply String.eqb_neq in E. inv_bind H. injection H as <-.
    destruct (IH _ E0) as (H0 & Hn & Hf).
    replace (Z.to_nat (v + 1)) with (S (Z.to_nat v)) by lia.
    split; [lia|]. split; [exact Hn|].
    cbn [firstn]. intros [Hy|Hin]; [congruence | contradiction].
Qed.

Lemma index_raise (x : string) (t : list string) (e : exn) :
  index x t = Raise e -> e = NotInTupleError x /\ ~ In x t.
Proof.
  induction t as [|y t IH]; intros H; cbn [index] in H.
  - injection H as <-. split; [reflexivity | intros []].
  - destruct (String.eqb y x) eqn:E; [discriminate H|].
    apply String.eqb_neq in E.
    destruct (index x t) as [i|e'] eqn:Ei; cbn [bind] in H; [discriminate H|].
    injection H as <-. destruct (IH eq_refl) as [He Hn].
    split; [exact He|]. intros [Hy|Hin]; [congruence | contradiction].
Qed.

(** The sort key of a record is its id with the position of the first
    occurrence of its group in the tuple; computing it raises exactly
    when the group is not in the tuple. *)
Theorem sort_key_position (tp : list string) (r : StateIncome) :
  (In (group r) tp ->
   exists j, by_state_income_group tp r = Ok (id r, j) /\
             0 <= j /\
             nth_error tp (Z.to_nat j) = Some (group r) /\
             ~ In (group r) (firstn (Z.to_nat j) tp)) /\
  (~ In (group r) tp ->
   by_state_income_group tp r = Raise (NotInTupleError (group r))).
Proof.
  unfold by_state_income_group.
  destruct (index (group r) tp) as [j|e] eqn:E; cbn [bind].
  - destruct (index_ok _ _ _ E) as (H0 & Hn & Hf). split.
    + intros _. exists j. auto.
    + intros Hnot. exfalso. apply Hnot. eapply nth_error_In. exact Hn.
  - destruct (index_raise _ _ _ E) as [-> Hnot]. split.
    + intros Hin. contradiction.
    + intros _. reflexivity.
Qed.

Lemma index_inj (t : list string) (x y : string) (j : Z) :
  index x t = Ok j -> index y t = Ok j -> x = y.
Proof.
  intros Hx Hy. apply index_ok in Hx, Hy.
  destruct Hx as (_ & Hx & _), Hy as (_ & Hy & _). congruence.
Qed.

(** ** The sort is stable *)

Lemma key_le_false_neq (a b : Z * Z) : key_le a b = false -> key_eqb a b = false.
Proof. unfold key_le, key_eqb. destruct a, b; simpl. lia. Qed.

Lemma key_eqb_trans_false (a b k : Z * Z) :
  key_eqb a b = false -> key_eqb a k = true -> key_eqb b k = false.
Proof. unfold key_eqb. destruct a, b, k; simpl. lia. Qed.

Lemma insert_keyed_filter {A : Type} (k : Z * Z) (x : (Z * Z) * A)
  (s : list ((Z * Z) * A)) :
  List.filter (fun p => key_eqb p.1 k) (insert_keyed x s) =
  if key_eqb x.1 k then x :: List.filter (fun p => key_eqb p.1 k) s
  else List.filter (fun p => key_eqb p.1 k) s.
Proof.
  induction s as [|y s IH]; cbn [insert_keyed].
  - cbn [List.filter]. destruct (key_eqb x.1 k); reflexivity.
  - destruct (key_le x.1 y.1) eqn:E.
    + cbn [List.filter]. destruct (key_eqb x.1 k); reflexivity.
    + cbn [List.filter]. rewrite IH.
      apply key_le_false_neq in E.
      destruct (key_eqb x.1 k) eqn:Ex; [|reflexivity].
      rewrite (key_eqb_trans_false _ _ _ E Ex). reflexivity.
Qed.

Lemma sort_keyed_filter {A : Type} (k : Z * Z) (l : list ((Z * Z) * A)) :
  List.filter (fun p => key_eqb p.1 k) (sort_keyed l) =
  List.filter (fun p => key_eqb p.1 k) l.
Proof.
  induction l as [|x l IH]; [reflexivity|].
  cbn [sort_keyed List.filter]. rewrite insert_keyed_filter, IH. reflexivity.
Qed.

Lemma filter_map_snd {A K : Type} (Q : A -> bool) (l : list (K * A)) :
  List.filter Q (map snd l) = map snd (List.filter (fun p => Q p.2) l).
Proof.
  induction l as [|p l IH]; [reflexivity|].
  cbn [map List.filter]. rewrite IH. destruct (Q p.2); reflexivity.
Qed.

Lemma filter_all_false {A : Type} (f : A -> bool) (l : list A) :
  (forall a, In a l -> f a = false) -> List.filter f l = [].
Proof.
  induction l as [|x l IH]; intros H; [reflexivity|].
  cbn [List.filter]. rewrite (H x (or_introl eq_refl)).
  apply IH. intros a Ha. apply H. right. exact Ha.
Qed.

Lemma sorted_stable (tp : list string) (l out : list StateIncome) (i : Z) (g : string) :
  sorted (by_state_income_group tp) l = Ok out ->
  List.filter (of_state_group i g) out = List.filter (of_state_group i g) l.
Proof.
  intros H. apply sorted_ok_inv in H. destruct H as (keys & Hk & ->).
  destruct (combine_keys_snd _ l keys Hk) as [Hsnd Hall].
  rewrite <- Hsnd at 2. rewrite !filter_map_snd. f_equal.
  assert (Hall' : Forall (fun p => by_state_income_group tp p.2 = Ok p.1)
                    (sort_keyed (combine keys l))).
  { eapply Permutation_Forall;
      [apply Permutation_sym, sort_keyed_Permutation | exact Hall]. }
  rewrite List.Forall_forall in Hall, Hall'.
  destruct (index g tp) as [j|e] eqn:Eg.
  - assert (Hext : forall p, by_state_income_group tp p.2 = Ok p.1 ->
                     of_state_group i g p.2 = key_eqb p.1 (i, j)).
    { intros [[a b] r] Hp. cbn [fst snd] in *.
      unfold by_state_income_group in Hp. inv_bind Hp. injection Hp as <- <-.
      unfold of_state_group, key_eqb. cbn [fst snd]. f_equal.
      destruct (String.eqb (group r) g) eqn:Es.
      - apply String.eqb_eq in Es. rewrite Es in E. symmetry. apply Z.eqb_eq. congruence.
      - apply String.eqb_neq in Es. symmetry. apply Z.eqb_neq.
        intros ->. apply Es. eapply index_inj; eassumption. }
    rewrite (filter_ext_in _ (fun p => key_eqb p.1 (i, j)) (sort_keyed (combine keys l)))
      by (intros p Hp; apply Hext, Hall', Hp).
    rewrite (filter_ext_in _ (fun p => key_eqb p.1 (i, j)) (combine keys l))
      by (intros p Hp; apply Hext, Hall, Hp).
    apply sort_keyed_filter.
  - assert (Hnone : forall p, by_state_income_group tp p.2 = Ok p.1 ->
                      of_state_group i g p.2 = false).
    { intros [[a b] r] Hp. cbn [fst snd] in *.
      unfold by_state_income_group in Hp. inv_bind Hp.
      unfold of_state_group. apply andb_false_iff. right.
      apply String.eqb_neq. intros Hg. rewrite Hg in E. congruence. }
    rewrite !filter_all_false; [reflexivity | |].
    + intros p Hp. apply Hnone, Hall, Hp.
    + intros p Hp. apply Hnone, Hall', Hp.
Qed.

(** The output of the transform is the list of records that the loop
    built, rearranged: sorted by state id and, within a state, by the
    position of the group in [IncomeGroup]; and the sort is stable, so
    the records of one state and one group (from several rows of the
    same state) stay in the order of their rows. *)
Theorem transform_sorts_stably (census_data : CensusResponse) (out : list StateIncome) :
  process_state_records census_data = Ok out ->
  exists records,
    collect_records census_data = Ok records /\
    Permutation out records /\
    StronglySorted
      (fun a b =>
         id a < id b \/
         (id a = id b /\
          exists i j, index (group a) IncomeGroup = Ok i /\
                      index (group b) IncomeGroup = Ok j /\ i <= j)) out /\
    (forall i g,
       List.filter (of_state_group i g) out = List.filter (of_state_group i g) records).
Proof.
  intros H.
  destruct (process_state_records_ok_inv _ _ H) as (records & Hc & Hp & Hs).
  exists records. split; [exact Hc|]. split; [exact Hp|]. split.
  - unfold sorted_by_key in Hs.
    eapply (StronglySorted_impl_on _ _ (fun _ => True)); [| |exact Hs].
    + intros a b _ _ (ka & kb & Ha & Hb & Hle).
      unfold by_state_income_group in Ha, Hb. inv_bind Ha. inv_bind Hb.
      injection Ha as <-. injection Hb as <-.
      unfold key_le in Hle. cbn [fst snd] in Hle.
      destruct (Z.ltb_spec (id a) (id b)) as [Hlt|Hge]; [left; exact Hlt|].
      right. cbn [orb] in Hle. apply andb_prop in Hle. destruct Hle as [He Hl].
      apply Z.eqb_eq in He. apply Z.leb_le in Hl.
      split; [exact He|]. exists v, v0. auto.
    + apply List.Forall_forall. intros; exact I.
  - intros i g. unfold process_state_records in H. rewrite Hc in H. cbn [bind] in H.
    eapply sorted_stable. exact H.
Qed.

Lemma transform_sorts_stably_witness :
  exists out records,
    process_state_records
      {| header := example_header; data := [overfull_row; alabama_row; overfull_row] |}
    = Ok out /\
    collect_records
      {| header := example_header; data := [overfull_row; alabama_row; overfull_row] |}
    = Ok records /\
    Permutation out records /\
    (forall i g,
       List.filter (of_state_group i g) out = List.filter (of_state_group i g) records).
Proof.
  destruct (process_state_records
              {| header := example_header;
                 data := [overfull_row; alabama_row; overfull_row] |})
    as [out|e] eqn:Ho; [|vm_compute in Ho; discriminate Ho].
  destruct (transform_sorts_stably _ out Ho) as (records & Hc & Hp & _ & Hst).
  exists out, records. auto.
Defined.

(** ** The fields of a record *)

Lemma region_items_checked (state_fips region : string) :
  In (state_fips, region) REGION_ITEMS ->
  In region Region /\ exists n, int state_fips = Ok n /\ 1 <= n <= 72.
Proof.
  intros H.
  assert (Hall : forallb (fun p =>
                            existsb (String.eqb p.2) Region &&
                            match int p.1 with
                            | Ok n => (1 <=? n) && (n <=? 72)
                            | Raise _ => false
                            end) REGION_ITEMS = true)
    by (vm_compute; reflexivity).
  rewrite forallb_forall in Hall. specialize (Hall _ H). cbn [fst snd] in Hall.
  apply andb_prop in Hall. destruct Hall as [Hr Hn]. split.
  - apply existsb_exists in Hr. destruct Hr as (x & Hx & He).
    apply String.eqb_eq in He. subst x. exact Hx.
  - destruct (int state_fips) as [n|]; [|discriminate Hn].
    exists n. split; [reflexivity | lia].
Qed.

Lemma income_mapping_groups (item : string * mapping) (g : string) :
  In item INCOME_MAPPING -> group_of item = Some g -> In g IncomeGroup.
Proof.
  intros Hin Hg.
  pose proof income_mapping_groups_indexed as Hall.
  rewrite List.Forall_forall in Hall. specialize (Hall item Hin g Hg).
  destruct (index g IncomeGroup) as [j|] eqn:E; [|discriminate Hall].
  destruct (index_ok _ _ _ E) as (_ & Hn & _).
  eapply nth_error_In. exact Hn.
Qed.

(** Every record of the output has a group of [IncomeGroup], a region of
    [Region] that is the region of a key of [REGION_MAPPING], the integer
    of that key as its id, between 1 and 72, and a total that is not
    zero. *)
Theorem record_fields_typed (census_data : CensusResponse) (out : list StateIncome) :
  process_state_records census_data = Ok out ->
  Forall (fun r =>
            In (group r) IncomeGroup /\
            In (region r) Region /\
            1 <= id r <= 72 /\
            total r <> 0 /\
            exists state_fips,
              REGION_MAPPING !! state_fips = Some (region r) /\
              int state_fips = Ok (id r)) out.
Proof.
  intros H. apply List.Forall_forall. intros r Hr.
  destruct (process_state_records_records _ _ _ H Hr) as (row & recs & Hrow & Hpr & Hin).
  destruct (process_row_records _ _ _ _ Hpr Hin)
    as (state_fips & item & Hsc & Hitem & Htot & Hrec).
  destruct Hrec as (count & quotient & Hbc & Htd & Hr3 & Hg & Hn & Hreg & Hid & Ht).
  destruct (region_items_checked _ _ (dict_lookup_In _ _ _ Hreg)) as (HR & n & Hn' & Hb).
  assert (n = id r) by congruence. subst n.
  split; [exact (income_mapping_groups _ _ Hitem Hg)|].
  split; [exact HR|]. split; [exact Hb|].
  split; [exact (truediv_ok_nonzero _ _ _ Htd)|].
  exists state_fips. auto.
Qed.

Lemma record_fields_typed_witness :
  exists out,
    process_state_records
      {| header := example_header; data := [guam_row; alabama_row] |} = Ok out /\
    Forall (fun r => In (group r) IncomeGroup /\ In (region r) Region /\ 1 <= id r <= 72) out.
Proof.
  destruct (process_state_records
              {| header := example_header; data := [guam_row; alabama_row] |})
    as [out|e] eqn:Ho; [|vm_compute in Ho; discriminate Ho].
  exists out. split; [reflexivity|].
  eapply List.Forall_impl; [|exact (record_fields_typed _ out Ho)].
  intros r (Hg & Hr & Hi & _). auto.
Defined.

(** ** The records of one row *)

Lemma traverse_process_mapping_fields (state_data : gmap string string)
  (state_fips : string) (households : Z) (items : list (string * mapping))
  (rs : list (list StateIncome)) :
  traverse (process_mapping state_data state_fips households) items = Ok rs ->
  map group (concat rs) = omap group_of items /\
  Forall (fun r => state_data !! "NAME" = Some (name r) /\
                   REGION_MAPPING !! state_fips = Some (region r) /\
                   int state_fips = Ok (id r) /\
                   total r = households) (concat rs).
Proof.
  revert rs. induction items as [|item items IH]; intros rs H; cbn [traverse] in H.
  - injection H as <-. split; [reflexivity | constructor].
  - inv_bind H. inv_bind H. injection H as <-.
    destruct (IH _ E0) as [IHg IHf]. cbn [concat].
    change (omap group_of (item :: items))
      with (match group_of item with
            | Some g => g :: omap group_of items
            | None => omap group_of items
            end).
    rewrite map_app, IHg.
    destruct (is_bracket item) eqn:Eb.
    + destruct (process_mapping_bracket _ _ _ _ _ Eb E) as (r & -> & Hrec).
      destruct Hrec as (count & quotient & _ & _ & _ & Hg & Hn & Hreg & Hid & Ht).
      rewrite Hg. split; [reflexivity|].
      apply List.Forall_app. split; [|exact IHf].
      constructor; [auto | constructor].
    + rewrite process_mapping_plain in E by exact Eb. injection E as <-.
      rewrite (is_bracket_group_of _ Eb). split; [reflexivity | exact IHf].
Qed.

(** The ten records that a row of a state of the table appends are in
    the order of [INCOME_MAPPING], from the lowest bracket to the
    highest, and share the name of the row, the region and the integer of
    its state code, and its total. *)
Theorem row_records_in_mapping_order (header row : list string)
  (recs : list StateIncome) (state_fips : string) :
  process_row header row = Ok recs ->
  state_code header row = Some state_fips ->
  is_Some (REGION_MAPPING !! state_fips) ->
  map group recs = brackets_low_to_high /\
  exists households,
    int_field (state_data_of header row) "B19001_001E" = Ok households /\
    Forall (fun r => state_data_of header row !! "NAME" = Some (name r) /\
                     REGION_MAPPING !! state_fips = Some (region r) /\
                     int state_fips = Ok (id r) /\
                     total r = households) recs.
Proof.
  intros H Hsc [reg Hreg]. pose proof (process_row_ok_same_length _ _ _ H) as Hlen.
  rewrite process_row_same_length in H by exact Hlen. cbv zeta in H.
  unfold state_code in Hsc. apply getitem_ok in Hsc. rewrite Hsc in H. cbn [bind] in H.
  rewrite Hreg in H. inv_bind H. inv_bind H. inv_bind H. injection H as <-.
  destruct (traverse_process_mapping_fields _ _ _ _ _ E1) as [Hg Hf].
  split; [rewrite Hg; reflexivity|].
  exists v0. split; [|exact Hf].
  unfold int_field. rewrite E. cbn [bind]. exact E0.
Qed.

Lemma row_records_in_mapping_order_witness :
  exists recs,
    process_row example_header alabama_row = Ok recs /\
    map group recs = brackets_low_to_high.
Proof.
  destruct (process_row example_header alabama_row) as [recs|e] eqn:Hr;
    [|vm_compute in Hr; discriminate Hr].
  exists recs. split; [reflexivity|].
  refine (proj1 (row_records_in_mapping_order example_header alabama_row recs "01" Hr _ _)).
  - vm_compute. reflexivity.
  - exists "south". vm_compute. reflexivity.
Defined.

(** ** The fields of a row *)

Lemma foldl_insert_notin {V : Type} (pairs : list (string * V)) (m : gmap string V)
  (k : string) :
  (forall p, In p pairs -> p.1 <> k) ->
  foldl (fun m p => <[p.1 := p.2]> m) m pairs !! k = m !! k.
Proof.
  revert m. induction pairs as [|p pairs IH]; intros m H; cbn [foldl]; [reflexivity|].
  rewrite IH by (intros q Hq; apply H; right; exact Hq).
  apply lookup_insert_ne. apply H. left. reflexivity.
Qed.

Lemma foldl_insert_last {V : Type} (pairs : list (string * V)) (m : gmap string V)
  (k : string) (v : V) (i : nat) :
  nth_error pairs i = Some (k, v) ->
  (forall j p, (i < j)%nat -> nth_error pairs j = Some p -> p.1 <> k) ->
  foldl (fun m p => <[p.1 := p.2]> m) m pairs !! k = Some v.
Proof.
  revert m i. induction pairs as [|p pairs IH]; intros m i Hi Hlast.
  - destruct i; discriminate Hi.
  - cbn [foldl]. destruct i as [|i].
    + injection Hi as ->. cbn [fst snd].
      rewrite foldl_insert_notin; [apply lookup_insert_eq|].
      intros q Hq. apply In_nth_error in Hq. destruct Hq as [j Hj].
      apply (Hlast (S j) q); [lia | exact Hj].
    + apply (IH _ i); [exact Hi|].
      intros j q Hj Hq. apply (Hlast (S j) q); [lia | exact Hq].
Qed.

Lemma nth_error_combine {A B : Type} (a : list A) (b : list B) (i : nat) (x : A) (y : B) :
  nth_error a i = Some x -> nth_error b i = Some y ->
  nth_error (combine a b) i = Some (x, y).
Proof.
  revert b i. induction a as [|x' a IH]; intros [|y' b] [|i] Ha Hb;
    try discriminate; cbn in *.
  - congruence.
  - apply IH; assumption.
Qed.

Lemma nth_error_combine_inv {A B : Type} (a : list A) (b : list B) (i : nat) (p : A * B) :
  nth_error (combine a b) i = Some p ->
  nth_error a i = Some p.1 /\ nth_error b i = Some p.2.
Proof.
  revert b i. induction a as [|x' a IH]; intros [|y' b] [|i] H;
    try discriminate; cbn in *.
  - injection H as <-. auto.
  - apply IH; assumption.
Qed.

(** [dict(zip(header, row, strict=True))] keeps, for a name that the
    header has several times, the value of the last column of that name;
    a name that the header does not have is a [KeyError]. *)
Theorem duplicate_field_last_column (header row : list string)
  (pairs : list (string * string)) (k : string) :
  zip_strict header row = Ok pairs ->
  (forall i v,
     nth_error header i = Some k ->
     nth_error row i = Some v ->
     (forall j, (i < j)%nat -> nth_error header j <> Some k) ->
     getitem (dict pairs) k = Ok v) /\
  (~ In k header -> getitem (dict pairs) k = Raise (KeyError k)).
Proof.
  intros H. apply zip_strict_ok_inv in H. destruct H as [Hlen ->]. split.
  - intros i v Hh Hr Hlast. apply getitem_ok. unfold dict.
    apply (foldl_insert_last _ _ _ _ i).
    + apply nth_error_combine; assumption.
    + intros j p Hj Hp Hk. apply nth_error_combine_inv in Hp.
      destruct Hp as [Hp _]. apply (Hlast j Hj). congruence.
  - intros Hnot. unfold getitem.
    destruct (dict (combine header row) !! k) as [v|] eqn:E; [|reflexivity].
    apply dict_lookup_In in E. apply in_combine_l in E. contradiction.
Qed.

Lemma duplicate_field_last_column_witness :
  getitem (dict [("state", "01"); ("NAME", "Alabama"); ("state", "72")]) "state" = Ok "72".
Proof.
  refine (proj1 (duplicate_field_last_column ["state"; "NAME"; "state"]
                   ["01"; "Alabama"; "72"] _ "state" _) 2%nat "72" _ _ _).
  - reflexivity.
  - reflexivity.
  - reflexivity.
  - intros j Hj. destruct j as [|[|[|[|j]]]]; try lia; discriminate.
Defined.

(** ** A header without the state column *)

(** When the header has no ["state"] field, the transform raises at the
    first data row: the error of [zip] when the row has not the length of
    the header, a [KeyError] otherwise, whatever the rows hold. *)
Theorem missing_state_column (census_data : CensusResponse)
  (first : list string) (rest : list (list string)) :
  ~ In "state" (header census_data) ->
  data census_data = first :: rest ->
  process_state_records census_data =
  Raise (if (length first =? length (header census_data))%nat
         then KeyError "state" else ZipLengthError).
Proof.
  intros Hnot Hdata. apply process_state_records_raise.
  unfold collect_records. rewrite Hdata. cbn [traverse].
  destruct (Nat.eqb_spec (length first) (length (header census_data))) as [Hlen|Hlen].
  - unfold process_row. rewrite zip_strict_same_length by congruence. cbn [bind].
    unfold getitem at 1.
    destruct (dict (combine (header census_data) first) !! "state") as [v|] eqn:E.
    + apply dict_lookup_In in E. apply in_combine_l in E. contradiction.
    + reflexivity.
  - rewrite process_row_other_length by exact Hlen. reflexivity.
Qed.

Lemma missing_state_column_witness :
  process_state_records {| header := ["NAME"; "B19001_001E"]; data := [["Alabama"; "1000"]] |}
  = Raise (KeyError "state").
Proof.
  apply (missing_state_column
           {| header := ["NAME"; "B19001_001E"]; data := [["Alabama"; "1000"]] |}
           ["Alabama"; "1000"] []).
  - cbn. intros [H|[H|[]]]; discriminate H.
  - reflexivity.
Defined.

(** ** The order of the rows *)

Lemma key_le_antisym (a b : Z * Z) :
  key_le a b = true -> key_le b a = true -> a = b.
Proof.
  unfold key_le. destruct a as [a1 a2], b as [b1 b2]. cbn [fst snd].
  intros H1 H2. f_equal; lia.
Qed.

Lemma sorted_by_key_unique {A : Type} (key : A -> result (Z * Z)) (l1 l2 : list A) :
  sorted_by_key key l1 -> sorted_by_key key l2 -> Permutation l1 l2 ->
  (forall a b, In a l1 -> In b l1 -> key a = key b -> a = b) ->
  l1 = l2.
Proof.
  unfold sorted_by_key. intros H1. revert l2.
  induction H1 as [|a t1 Ht1 IH Ha]; intros l2 H2 Hp Hinj.
  - apply Permutation_nil in Hp. congruence.
  - destruct H2 as [|b t2 Ht2 Hb].
    + apply Permutation_sym, Permutation_nil in Hp. discriminate Hp.
    + assert (Hab : a = b).
      { assert (Hina : In a (b :: t2))
          by (apply (Permutation_in _ Hp); left; reflexivity).
        assert (Hinb : In b (a :: t1))
          by (apply (Permutation_in _ (Permutation_sym Hp)); left; reflexivity).
        destruct Hina as [Hba|Hina]; [congruence|].
        destruct Hinb as [Hab|Hinb]; [exact Hab|].
        rewrite List.Forall_forall in Ha, Hb.
        destruct (Ha _ Hinb) as (ka & kb & Hka & Hkb & Hle).
        destruct (Hb _ Hina) as (kb' & ka' & Hkb' & Hka' & Hle').
        assert (ka' = ka) by congruence. assert (kb' = kb) by congruence. subst.
        apply Hinj; [left; reflexivity | right; exact Hinb |].
        rewrite Hka, Hkb. f_equal. apply key_le_antisym; assumption. }
      subst b. f_equal. apply IH.
      * exact Ht2.
      * exact (Permutation_cons_inv Hp).
      * intros x y Hx Hy. apply Hinj; right; assumption.
Qed.

Lemma traverse_concat_records (header : list string) (rows : list (list string))
  (rs : list (list StateIncome)) :
  traverse (process_row header) rows = Ok rs ->
  concat rs = flat_map (records_of_row header) rows.
Proof.
  revert rs. induction rows as [|row rows IH]; intros rs H; cbn [traverse] in H.
  - injection H as <-. reflexivity.
  - inv_bind H. inv_bind H. injection H as <-.
    cbn [concat flat_map]. unfold records_of_row at 1. rewrite E.
    rewrite (IH _ E0). reflexivity.
Qed.

Lemma traverse_Permutation_ok {A B : Type} (f : A -> result B) (l l' : list A)
  (bs : list B) :
  Permutation l l' -> traverse f l = Ok bs -> exists bs', traverse f l' = Ok bs'.
Proof.
  intros Hp H. apply is_ok_true. apply traverse_all_ok. intros a Ha.
  apply (Permutation_in _ (Permutation_sym Hp)) in Ha.
  destruct (traverse_In _ _ _ _ H Ha) as (b & Hb & _). rewrite Hb. reflexivity.
Qed.

Lemma region_keys_int_inj (a b ra rb : string) (n : Z) :
  REGION_MAPPING !! a = Some ra -> REGION_MAPPING !! b = Some rb ->
  int a = Ok n -> int b = Ok n -> a = b.
Proof.
  intros Ha Hb Hia Hib. apply dict_lookup_In in Ha, Hb.
  assert (Hall : forallb (fun p =>
                   forallb (fun q =>
                              match int p.1, int q.1 with
                              | Ok x, Ok y => implb (x =? y) (String.eqb p.1 q.1)
                              | _, _ => true
                              end) REGION_ITEMS) REGION_ITEMS = true)
    by (vm_compute; reflexivity).
  rewrite forallb_forall in Hall. specialize (Hall _ Ha).
  rewrite forallb_forall in Hall. specialize (Hall _ Hb).
  cbn [fst snd] in Hall. rewrite Hia, Hib, Z.eqb_refl in Hall. cbn [implb] in Hall.
  apply String.eqb_eq. exact Hall.
Qed.

Lemma map_state_group (n : Z) (recs : list StateIncome) :
  Forall (fun r => id r = n) recs ->
  map state_group recs = map (pair n) (map group recs).
Proof.
  induction 1 as [|r recs Hr _ IH]; [reflexivity|].
  cbn [map]. rewrite IH. unfold state_group at 1. rewrite Hr. reflexivity.
Qed.

(** The keys of the records of one row. *)
Lemma process_row_keys (header row : list string) (recs : list StateIncome) :
  process_row header row = Ok recs ->
  (listed_code header row = [] /\ recs = []) \/
  (exists state_fips n,
     listed_code header row = [state_fips] /\
     int state_fips = Ok n /\
     map state_group recs = map (pair n) brackets_low_to_high).
Proof.
  intros H. pose proof (process_row_ok_same_length _ _ _ H) as Hlen.
  rewrite process_row_same_length in H by exact Hlen. cbv zeta in H.
  inv_bind H. apply getitem_ok in E.
  unfold listed_code, state_code. rewrite E.
  destruct (REGION_MAPPING !! v) as [reg|] eqn:Hreg.
  - right. inv_bind H. inv_bind H. inv_bind H. injection H as <-.
    destruct (traverse_process_mapping_fields _ _ _ _ _ E2) as [Hg Hf].
    pose proof (region_keys_int _ _ Hreg) as Hint.
    destruct (int v) as [n|] eqn:En; [|discriminate Hint].
    exists v, n. split; [reflexivity|]. split; [exact En|].
    rewrite (map_state_group n).
    + rewrite Hg. reflexivity.
    + eapply List.Forall_impl; [|exact Hf].
      intros r (_ & _ & Hid & _). congruence.
  - left. injection H as <-. auto.
Qed.

Lemma records_of_row_listed (header row : list string) (r : StateIncome) :
  In r (records_of_row header row) ->
  exists state_fips, listed_code header row = [state_fips] /\ int state_fips = Ok (id r).
Proof.
  unfold records_of_row. destruct (process_row header row) as [recs|e] eqn:H;
    [|intros []].
  intros Hin.
  destruct (process_row_keys _ _ _ H) as [[_ ->]|(state_fips & n & Hl & Hn & Hk)];
    [destruct Hin|].
  exists state_fips. split; [exact Hl|].
  apply (in_map state_group) in Hin. rewrite Hk in Hin.
  apply in_map_iff in Hin. destruct Hin as (g & Hg & _).
  unfold state_group in Hg. injection Hg as Hg _. congruence.
Qed.

Lemma listed_code_region (header row : list string) (state_fips : string) :
  listed_code header row = [state_fips] ->
  exists region, REGION_MAPPING !! state_fips = Some region.
Proof.
  unfold listed_code. destruct (state_code header row) as [c|]; [|discriminate].
  destruct (REGION_MAPPING !! c) as [reg|] eqn:E; [|discriminate].
  intros H. injection H as <-. exists reg. exact E.
Qed.

Lemma brackets_NoDup : List.NoDup brackets_low_to_high.
Proof.
  unfold brackets_low_to_high.
  repeat (apply List.NoDup_cons;
          [cbn [In]; intros H;
           repeat (destruct H as [H|H]; [discriminate H|]); exact H|]).
  apply List.NoDup_nil.
Qed.

Lemma records_keys_NoDup (header : list string) (rows : list (list string)) :
  (forall row, In row rows -> is_ok (process_row header row) = true) ->
  List.NoDup (flat_map (listed_code header) rows) ->
  List.NoDup (map state_group (flat_map (records_of_row header) rows)).
Proof.
  induction rows as [|row rows IH]; intros Hok Hnd; [apply List.NoDup_nil|].
  cbn [flat_map] in *. rewrite map_app.
  assert (Hrow : is_ok (process_row header row) = true)
    by (apply Hok; left; reflexivity).
  assert (Hrows : forall row', In row' rows -> is_ok (process_row header row') = true)
    by (intros; apply Hok; right; assumption).
  unfold records_of_row at 1.
  destruct (process_row header row) as [recs|e] eqn:Hpr; [|discriminate Hrow].
  destruct (process_row_keys _ _ _ Hpr) as [[Hl ->]|(state_fips & n & Hl & Hn & Hk)];
    rewrite Hl in Hnd; cbn [app] in Hnd.
  - cbn [map app]. apply IH; assumption.
  - apply List.NoDup_cons_iff in Hnd. destruct Hnd as [Hnot Hnd].
    apply List.NoDup_app.
    + rewrite Hk. apply Finite.Injective_map_NoDup; [|exact brackets_NoDup].
      intros x y Hxy. congruence.
    + apply IH; assumption.
    + intros k Hk1 Hk2. rewrite Hk in Hk1.
      apply in_map_iff in Hk1. destruct Hk1 as (g & <- & _).
      apply in_map_iff in Hk2. destruct Hk2 as (r & Hr & Hin).
      apply in_flat_map in Hin. destruct Hin as (row' & Hrow' & Hin).
      destruct (records_of_row_listed _ _ _ Hin) as (fips' & Hl' & Hn').
      unfold state_group in Hr. injection Hr as Hid _.
      destruct (listed_code_region _ _ _ Hl) as [reg Hreg].
      destruct (listed_code_region _ _ _ Hl') as [reg' Hreg'].
      rewrite Hid in Hn'.
      pose proof (region_keys_int_inj _ _ _ _ _ Hreg Hreg' Hn Hn'). subst fips'.
      apply Hnot. apply in_flat_map. exists row'. split; [exact Hrow'|].
      rewrite Hl'. left. reflexivity.
Qed.

Lemma NoDup_map_In_inj {A B : Type} (f : A -> B) (l : list A) (a b : A) :
  List.NoDup (map f l) -> In a l -> In b l -> f a = f b -> a = b.
Proof.
  induction l as [|x l IH]; intros Hnd Ha Hb Hf; [destruct Ha|].
  cbn [map] in Hnd. apply List.NoDup_cons_iff in Hnd. destruct Hnd as [Hnot Hnd].
  destruct Ha as [->|Ha], Hb as [->|Hb].
  - reflexivity.
  - exfalso. apply Hnot. rewrite Hf. apply in_map. exact Hb.
  - exfalso. apply Hnot. rewrite <- Hf. apply in_map. exact Ha.
  - apply IH; assumption.
Qed.

(** When no state of the table has two rows, the order of the data rows
    does not matter: a response with the same header and the rows in
    another order gives the same output. *)
Theorem row_order_irrelevant (census_data census_data' : CensusResponse)
  (out : list StateIncome) :
  header census_data' = header census_data ->
  Permutation (data census_data) (data census_data') ->
  List.NoDup (listed_codes census_data) ->
  process_state_records census_data = Ok out ->
  process_state_records census_data' = Ok out.
Proof.
  intros Hh Hp Hnd H.
  destruct (process_state_records_ok_inv _ _ H) as (records & Hc & Hpo & Hso).
  pose proof (collect_records_groups_indexed _ _ Hc) as Hidx.
  unfold collect_records in Hc. inv_bind Hc. injection Hc as <-.
  destruct (traverse_Permutation_ok _ _ _ _ Hp E) as [rs' E'].
  assert (Hc' : collect_records census_data' = Ok (concat rs')).
  { unfold collect_records. rewrite Hh, E'. reflexivity. }
  destruct (process_state_records_ok _ _ Hc') as (out' & H' & Hpo' & Hso').
  rewrite H'. f_equal. symmetry.
  assert (Hrec : Permutation (concat v) (concat rs')).
  { rewrite (traverse_concat_records _ _ _ E), (traverse_concat_records _ _ _ E').
    apply Permutation_flat_map. exact Hp. }
  apply (sorted_by_key_unique (by_state_income_group IncomeGroup)).
  - exact Hso.
  - exact Hso'.
  - eapply Permutation_trans; [exact Hpo|].
    eapply Permutation_trans; [exact Hrec|]. apply Permutation_sym. exact Hpo'.
  - intros a b Ha Hb Hk.
    apply (Permutation_in _ Hpo) in Ha, Hb.
    apply (NoDup_map_In_inj state_group (concat v)); [|exact Ha | exact Hb|].
    + rewrite (traverse_concat_records _ _ _ E).
      apply records_keys_NoDup; [|exact Hnd].
      intros row Hrow. destruct (traverse_In _ _ _ _ E Hrow) as (b' & Hb' & _).
      rewrite Hb'. reflexivity.
    + rewrite List.Forall_forall in Hidx.
      pose proof (Hidx _ Ha) as Hka. pose proof (Hidx _ Hb) as Hkb.
      unfold by_state_income_group in *.
      destruct (index (group a) IncomeGroup) as [i|] eqn:Ei; [|discriminate Hka].
      destruct (index (group b) IncomeGroup) as [j|] eqn:Ej; [|discriminate Hkb].
      cbn [bind] in Hk. injection Hk as Hid Hij. subst j.
      unfold state_group. f_equal; [exact Hid|].
      eapply index_inj; eassumption.
Qed.

Lemma row_order_irrelevant_witness :
  process_state_records
    {| header := example_header; data := [alabama_row; guam_row; overfull_row] |} =
  process_state_records
    {| header := example_header; data := [guam_row; alabama_row; overfull_row] |}.
Proof.
  destruct (process_state_records
              {| header := example_header; data := [guam_row; alabama_row; overfull_row] |})
    as [out|e] eqn:Ho; [|vm_compute in Ho; discriminate Ho].
  apply (row_order_irrelevant
           {| header := example_header; data := [guam_row; alabama_row; overfull_row] |}
           {| header := example_header; data := [alabama_row; guam_row; overfull_row] |}
           out).
  - reflexivity.
  - apply perm_swap.
  - vm_compute.
    repeat (apply List.NoDup_cons;
            [cbn [In]; intros H;
             repeat (destruct H as [H|H]; [discriminate H|]); exact H|]).
    apply List.NoDup_nil.
  - exact Ho.
Defined.

(** ** The exceptions of the transform *)

Lemma getitem_raise {V : Type} (d : gmap string V) (k : string) (e : exn) :
  getitem d k = Raise e -> e = KeyError k.
Proof. unfold getitem. destruct (d !! k); congruence. Qed.

Lemma int_raise (s : string) (e : exn) :
  int s = Raise e -> e = IntLiteralError s \/ e = IntDigitsLimitError.
Proof.
  unfold int. cbv zeta.
  destruct (digits_value 0 false _) as [v|]; [|left; congruence].
  destruct (_ <? _)%nat; [right; congruence | discriminate].
Qed.

Lemma binary64_of_ratio_raise (n d : Z) (e : exn) :
  binary64_of_ratio n d = Raise e -> e = OverflowError.
Proof.
  unfold binary64_of_ratio. destruct (n =? 0); [discriminate|]. cbv zeta.
  destruct (_ && _); [congruence | discriminate].
Qed.

Lemma float_of_ratio_raise (negative : bool) (n d : Z) (e : exn) :
  float_of_ratio negative n d = Raise e -> e = OverflowError.
Proof.
  unfold float_of_ratio. destruct (binary64_of_ratio n d) as [q|e1] eqn:E;
    cbn [bind]; [discriminate|].
  intros H. injection H as <-. exact (binary64_of_ratio_raise _ _ _ E).
Qed.

Lemma truediv_raise (a b : Z) (e : exn) :
  truediv a b = Raise e -> e = ZeroDivisionError \/ e = OverflowError.
Proof.
  unfold truediv. destruct (b =? 0); [left; congruence|].
  intros H. right. exact (float_of_ratio_raise _ _ _ _ H).
Qed.

Lemma sum_of_vars_raise (state_data : gmap string string) (sum_vars : list string)
  (acc : Z) (e : exn) :
  sum_of_vars state_data sum_vars acc = Raise e ->
  (exists k, In k sum_vars /\ e = KeyError k) \/
  (exists s, e = IntLiteralError s) \/ e = IntDigitsLimitError.
Proof.
  revert acc. induction sum_vars as [|var rest IH]; intros acc H; cbn [sum_of_vars] in H;
    [discriminate H|].
  destruct (getitem state_data var) as [s|e1] eqn:Eg; cbn [bind] in H.
  - destruct (int s) as [n|e2] eqn:Ei; cbn [bind] in H.
    + destruct (IH _ H) as [(k & Hk & He)|Hint].
      * left. exists k. split; [right; exact Hk | exact He].
      * right. exact Hint.
    + injection H as <-. right.
      destruct (int_raise _ _ Ei) as [->| ->]; [left; eexists; reflexivity | right; reflexivity].
  - injection H as <-. left. exists var. split; [left; reflexivity|].
    exact (getitem_raise _ _ _ Eg).
Qed.

Lemma bracket_count_raise (state_data : gmap string string) (item : string * mapping)
  (e : exn) :
  bracket_count state_data item = Raise e ->
  (exists k, In k (vars_of item) /\ e = KeyError k) \/
  (exists s, e = IntLiteralError s) \/ e = IntDigitsLimitError.
Proof.
  unfold bracket_count, vars_of. destruct item.2 as [s|g|g sum_vars]; intros H.
  - discriminate H.
  - destruct (getitem state_data item.1) as [s|e1] eqn:Eg; cbn [bind] in H.
    + right. destruct (int_raise _ _ H) as [->| ->];
        [left; eexists; reflexivity | right; reflexivity].
    + injection H as <-. left. exists item.1. split; [left; reflexivity|].
      exact (getitem_raise _ _ _ Eg).
  - exact (sum_of_vars_raise _ _ _ _ H).
Qed.

Lemma process_mapping_raise (state_data : gmap string string) (state_fips region : string)
  (households : Z) (item : string * mapping) (e : exn) :
  REGION_MAPPING !! state_fips = Some region ->
  In item INCOME_MAPPING ->
  process_mapping state_data state_fips households item = Raise e ->
  row_error e.
Proof.
  intros Hreg Hitem H. rewrite process_mapping_eq in H.
  destruct (group_of item) as [g|]; [|discriminate H].
  destruct (bracket_count state_data item) as [count|e1] eqn:Ec; cbn [bind] in H.
  2:{ injection H as <-.
      destruct (bracket_count_raise _ _ _ Ec) as [(k & Hk & ->)|[[s ->]| ->]];
        [|exact I..].
      cbn [row_error]. right. right. right.
      apply in_flat_map. exists item. auto. }
  destruct (getitem state_data "NAME") as [nm|e1] eqn:En; cbn [bind] in H.
  2:{ injection H as <-. rewrite (getitem_raise _ _ _ En).
      cbn [row_error]. right. right. left. reflexivity. }
  unfold getitem at 1 in H. rewrite Hreg in H. cbn [bind] in H.
  pose proof (region_keys_int _ _ Hreg) as Hid.
  destruct (int state_fips) as [i|]; [cbn [bind] in H | discriminate Hid].
  destruct (truediv count households) as [q|e1] eqn:Eq; cbn [bind] in H.
  2:{ injection H as <-. destruct (truediv_raise _ _ _ Eq) as [->| ->]; exact I. }
  destruct (round3 q) as [p|e1] eqn:Ep; cbn [bind] in H; [discriminate H|].
  injection H as <-. unfold round3 in Ep.
  rewrite (float_of_ratio_raise _ _ _ _ Ep). exact I.
Qed.

Lemma traverse_raise_inv {A B : Type} (f : A -> result B) (l : list A) (e : exn) :
  traverse f l = Raise e ->
  exists l1 a l2 bs, l = l1 ++ a :: l2 /\ traverse f l1 = Ok bs /\ f a = Raise e.
Proof.
  induction l as [|x l IH]; intros H; cbn [traverse] in H; [discriminate H|].
  destruct (f x) as [b|e1] eqn:Ex; cbn [bind] in H.
  - destruct (traverse f l) as [bs|e2] eqn:El; cbn [bind] in H; [discriminate H|].
    injection H as <-. destruct (IH eq_refl) as (l1 & a & l2 & bs & -> & H1 & Ha).
    exists (x :: l1), a, l2, (b :: bs). split; [reflexivity|].
    split; [|exact Ha]. cbn [traverse]. rewrite Ex, H1. reflexivity.
  - injection H as <-. exists [], x, l, []. auto.
Qed.

Lemma process_row_raise (header row : list string) (e : exn) :
  process_row header row = Raise e -> row_error e.
Proof.
  intros H.
  destruct (Nat.eq_dec (length row) (length header)) as [Hlen|Hlen].
  2:{ rewrite process_row_other_length in H by exact Hlen. injection H as <-. exact I. }
  rewrite process_row_same_length in H by exact Hlen. cbv zeta in H.
  destruct (getitem (state_data_of header row) "state") as [state_fips|e1] eqn:Es;
    cbn [bind] in H.
  2:{ injection H as <-. rewrite (getitem_raise _ _ _ Es).
      cbn [row_error]. left. reflexivity. }
  destruct (REGION_MAPPING !! state_fips) as [region|] eqn:Hreg; [|discriminate H].
  destruct (getitem (state_data_of header row) "B19001_001E") as [s|e1] eqn:Et;
    cbn [bind] in H.
  2:{ injection H as <-. rewrite (getitem_raise _ _ _ Et).
      cbn [row_error]. right. left. reflexivity. }
  destruct (int s) as [households|e1] eqn:Ei; cbn [bind] in H.
  2:{ injection H as <-. destruct (int_raise _ _ Ei) as [->| ->]; exact I. }
  destruct (traverse _ INCOME_MAPPING) as [recs|e1] eqn:Em; cbn [bind] in H;
    [discriminate H|].
  injection H as <-.
  destruct (traverse_raise_inv _ _ _ Em) as (l1 & item & l2 & bs & Hl & _ & Hitem).
  refine (process_mapping_raise _ _ _ _ item _ Hreg _ Hitem).
  rewrite Hl. apply in_or_app. right. left. reflexivity.
Qed.

Lemma process_state_records_raise_inv (census_data : CensusResponse) (e : exn) :
  process_state_records census_data = Raise e ->
  exists rows1 row rows2 recs,
    data census_data = rows1 ++ row :: rows2 /\
    traverse (process_row (header census_data)) rows1 = Ok recs /\
    process_row (header census_data) row = Raise e.
Proof.
  intros H. apply process_state_records_raise in H.
  unfold collect_records in H.
  destruct (traverse (process_row (header census_data)) (data census_data))
    as [rs|e1] eqn:Et; cbn [bind] in H; [discriminate H|].
  injection H as <-. exact (traverse_raise_inv _ _ _ Et).
Qed.

(** An exception of the transform is the exception of the first data row
    that raises, the rows before it having been processed; it is the
    [ValueError] of [zip] or of [int], the [KeyError] of a field that the
    transform reads, [ZeroDivisionError] or [OverflowError]. In
    particular the sort never raises: every group of [INCOME_MAPPING] is
    in [IncomeGroup]. *)
Theorem transform_exceptions (census_data : CensusResponse) (e : exn) :
  process_state_records census_data = Raise e ->
  row_error e /\
  exists rows1 row rows2 recs,
    data census_data = rows1 ++ row :: rows2 /\
    traverse (process_row (header census_data)) rows1 = Ok recs /\
    process_row (header census_data) row = Raise e.
Proof.
  intros H.
  destruct (process_state_records_raise_inv _ _ H)
    as (rows1 & row & rows2 & recs & Hd & H1 & Hrow).
  split; [exact (process_row_raise _ _ _ Hrow)|].
  exists rows1, row, rows2, recs. auto.
Qed.

Lemma transform_exceptions_witness :
  row_error ZeroDivisionError /\
  exists rows1 row rows2 recs,
    [alabama_row; empty_state_row; guam_row] = rows1 ++ row :: rows2 /\
    traverse (process_row example_header) rows1 = Ok recs /\
    process_row example_header row = Raise ZeroDivisionError.
Proof.
  apply (transform_exceptions
           {| header := example_header;
              data := [alabama_row; empty_state_row; guam_row] |} ZeroDivisionError).
  vm_compute. reflexivity.
Defined.

(** ** The shares at the two ends *)

Lemma round_half_even_mul (k a : Z) : 0 < a -> round_half_even (k * a) a = k.
Proof.
  intros Ha. unfold round_half_even.
  rewrite Z.div_mul, Z.mod_mul by lia. rewrite Z.mul_0_r.
  destruct a; try lia. reflexivity.
Qed.

Lemma binary64_of_ratio_same (n : Z) : n <> 0 -> binary64_of_ratio n n = Ok (inject_Z 1).
Proof.
  intros Hn. unfold binary64_of_ratio.
  destruct (n =? 0) eqn:E; [apply Z.eqb_eq in E; contradiction|]. cbv zeta.
  assert (Hb : binary_exponent (Z.abs n) (Z.abs n) = 0).
  { unfold binary_exponent. rewrite Z.sub_diag. unfold ratio_lt_pow2.
    change (0 <=? 0) with true. cbv iota.
    rewrite Z.pow_0_r, Z.mul_1_r, Z.ltb_irrefl. reflexivity. }
  rewrite Hb. change (Z.max (0 - 52) (-1074)) with (-52).
  change (0 <=? -52) with false. cbv iota. cbn [andb].
  change (- -52) with 52.
  rewrite (Z.mul_comm (Z.abs n)), round_half_even_mul by lia.
  replace (Z.sgn n * Z.sgn n) with 1 by (destruct n; try reflexivity; contradiction).
  f_equal.
Qed.

(** No two items of [INCOME_MAPPING] have the same group. *)
Lemma income_mapping_group_inj (a b : string * mapping) (g : string) :
  In a INCOME_MAPPING -> In b INCOME_MAPPING ->
  group_of a = Some g -> group_of b = Some g -> a = b.
Proof.
  unfold INCOME_MAPPING. cbn [In]. intros Ha Hb.
  repeat (destruct Ha as [<-|Ha]); try contradiction;
    repeat (destruct Hb as [<-|Hb]); try contradiction;
    cbn [group_of snd]; intros H1 H2; congruence.
Qed.

(** The pct of a record is exact at the two ends: a bracket that holds
    no household of its row has the pct zero, [0.0] for a positive total
    and [-0.0] for a negative one, and a bracket that holds all the
    households of its row has the pct [1.0]. *)
Theorem pct_extremes (header row : list string) (recs : list StateIncome)
  (r : StateIncome) (item : string * mapping) (count : Z) :
  process_row header row = Ok recs ->
  In r recs ->
  In item INCOME_MAPPING ->
  group_of item = Some (group r) ->
  bracket_count (state_data_of header row) item = Ok count ->
  (count = 0 -> pct r = if total r <? 0 then NegZero else Float (inject_Z 0)) /\
  (count = total r -> pct r = Float (inject_Z 1)).
Proof.
  intros Hpr Hin Hitem Hg Hc.
  destruct (process_row_records _ _ _ _ Hpr Hin)
    as (state_fips & item' & Hsc & Hitem' & Htot & Hrec).
  destruct Hrec as (count' & quotient & Hbc & Htd & Hr3 & Hg' & _).
  assert (item' = item) by (eapply income_mapping_group_inj; eassumption). subst item'.
  assert (count' = count) by congruence. subst count'.
  pose proof (truediv_ok_nonzero _ _ _ Htd) as Hnz.
  unfold truediv, float_of_ratio in Htd.
  destruct (total r =? 0); [discriminate Htd|]. split.
  - intros ->.
    change (binary64_of_ratio 0 (total r)) with (Ok (A := Q) (inject_Z 0)) in Htd.
    cbn [bind] in Htd. injection Htd as <-.
    change (0 <? 0) with false in Hr3. cbn [xorb] in Hr3.
    unfold with_sign in Hr3. cbn [Qnum inject_Z Z.eqb andb] in Hr3.
    destruct (total r <? 0).
    + assert (H0 : round3 NegZero = Ok NegZero) by (vm_compute; reflexivity).
      congruence.
    + assert (H0 : round3 (Float (inject_Z 0)) = Ok (Float (inject_Z 0)))
        by (vm_compute; reflexivity).
      congruence.
  - intros ->.
    rewrite binary64_of_ratio_same in Htd by exact Hnz. cbn [bind] in Htd.
    rewrite xorb_nilpotent, with_sign_positive in Htd. injection Htd as <-.
    assert (H1 : round3 (Float (inject_Z 1)) = Ok (Float (inject_Z 1)))
      by (vm_compute; reflexivity).
    congruence.
Qed.

Lemma pct_extremes_witness :
  exists recs r1 r2,
    process_row example_header single_bracket_row = Ok recs /\
    In r1 recs /\ group r1 = "<10000" /\ pct r1 = Float (inject_Z 1) /\
    In r2 recs /\ group r2 = "200000+" /\ pct r2 = Float (inject_Z 0).
Proof.
  destruct (process_row example_header single_bracket_row) as [recs|e] eqn:Hr;
    [|vm_compute in Hr; discriminate Hr].
  pose proof Hr as Hr'. vm_compute in Hr'. injection Hr' as <-.
  eexists _, _, _. split; [reflexivity|].
  split; [left; reflexivity|]. split; [reflexivity|]. split.
  { refine (proj2 (pct_extremes example_header single_bracket_row _ _
                     ("B19001_002E", BaseIncomeGroup "<10000") 1000 Hr _ _ _ _) _).
    - left. reflexivity.
    - right. left. reflexivity.
    - reflexivity.
    - vm_compute. reflexivity.
    - reflexivity. }
  split; [do 9 right; left; reflexivity|]. split; [reflexivity|].
  refine (proj1 (pct_extremes example_header single_bracket_row _ _
                   ("B19001_017E", BaseIncomeGroup "200000+") 0 Hr _ _ _ _) _).
  - do 9 right. left. reflexivity.
  - do 10 right. left. reflexivity.
  - reflexivity.
  - vm_compute. reflexivity.
  - reflexivity.
Defined.

(** ** How the run ends *)

Lemma get_census_data_raise (outcome : http_outcome) (e : exn) :
  get_census_data outcome = Raise e ->
  e = ConnectionError \/ (exists status, e = HTTPError status) \/
  e = JSONDecodeError \/ e = InvalidFormatError.
Proof.
  unfold get_census_data, raise_for_status. intros H.
  destruct outcome as [|status body].
  - injection H as <-. auto.
  - destruct ((400 <=? status) && (status <? 600)); cbn [bind] in H.
    + injection H as <-. right. left. exists status. reflexivity.
    + destruct body as [data|]; [|injection H as <-; auto].
      destruct data as [|first rest]; [injection H as <-; auto|].
      destruct (length (first :: rest) <? 2)%nat; [|discriminate H].
      injection H as <-. auto.
Qed.

Lemma main_fetch_raise (REPO_ROOT : Path) (outcome : http_outcome) (disk : disk_outcome)
  (e : exn) (w : World) :
  get_census_data outcome = Raise e ->
  main REPO_ROOT outcome disk w = (w, Raise e).
Proof. intros Hf. unfold main. rewrite Hf. reflexivity. Qed.

(** The run when a regular file stands where a directory is needed:
    [mkdir] raises after the first line is printed. *)
Lemma main_mkdir_raise (REPO_ROOT : Path) (outcome : http_outcome) (disk : disk_outcome)
  (census_data : CensusResponse) (records : list StateIncome) (w : World) :
  get_census_data outcome = Ok census_data ->
  process_state_records census_data = Ok records ->
  existsb (is_file (fs w)) (chain (OUTPUT_DIR REPO_ROOT)) = true ->
  main REPO_ROOT outcome disk w =
    ({| fs := fs w; stdout := stdout w ++ [found_line records] |},
     Raise (if is_file (fs w) (OUTPUT_DIR REPO_ROOT)
            then FileExistsError else NotADirectoryError)).
Proof.
  intros Hf Ht Hfiles. unfold main. rewrite Hf, Ht.
  unfold mkdir_parents_exist_ok. rewrite parent_OUTPUT_FILE.
  cbn [print fs stdout]. rewrite Hfiles. reflexivity.
Qed.

(** The run when a directory stands where the file goes: the
    directories are made, then the file cannot be opened. *)
Lemma main_open_raise (REPO_ROOT : Path) (outcome : http_outcome) (disk : disk_outcome)
  (census_data : CensusResponse) (records : list StateIncome) (w : World) :
  get_census_data outcome = Ok census_data ->
  process_state_records census_data = Ok records ->
  existsb (is_file (fs w)) (chain (OUTPUT_DIR REPO_ROOT)) = false ->
  is_dir (fs w) (OUTPUT_FILE REPO_ROOT) = true ->
  main REPO_ROOT outcome disk w =
    ({| fs := {| dirs := dirs (fs w) ∪ list_to_set (chain (OUTPUT_DIR REPO_ROOT));
                 files := files (fs w) |};
        stdout := stdout w ++ [found_line records] |},
     Raise IsADirectoryError).
Proof.
  intros Hf Ht Hfiles Hdir. unfold main. rewrite Hf, Ht.
  unfold mkdir_parents_exist_ok. rewrite parent_OUTPUT_FILE.
  cbn [print fs stdout]. rewrite Hfiles.
  unfold write_json, write_text.
  set (fs1 := {| dirs := dirs (fs w) ∪ list_to_set (chain (OUTPUT_DIR REPO_ROOT));
                 files := files (fs w) |}).
  assert (H1 : is_dir fs1 (OUTPUT_FILE REPO_ROOT) = true).
  { apply is_dir_true. apply is_dir_true in Hdir. destruct Hdir as [Hd|Hd];
      [left; exact Hd|]. right. unfold fs1. cbn [dirs].
    apply elem_of_union. left. exact Hd. }
  rewrite H1. reflexivity.
Qed.

Lemma row_error_not_of_files (e : exn) :
  row_error e ->
  e <> WriteError /\ e <> FileExistsError /\ e <> NotADirectoryError /\
  e <> IsADirectoryError.
Proof. destruct e; cbn [row_error]; intros H; try contradiction; repeat split; discriminate. Qed.

(** [main] ends without an exception exactly when the fetch and the
    transform return, no regular file stands on the way to the data
    directory, the output path is no directory and the disk takes the
    bytes: after [mkdir], the file cannot fail to open for a missing
    directory. And when the fetch and the transform have returned but
    [main] ends with an exception, the first line is printed and the
    second is not, and the exception is that of [mkdir] finding a regular
    file, of the output path being a directory, or of the write. *)
Theorem main_succeeds_iff (REPO_ROOT : Path) (outcome : http_outcome)
  (disk : disk_outcome) (w : World) :
  ((main REPO_ROOT outcome disk w).2 = Ok tt <->
   is_ok (let* census_data := get_census_data outcome in
          process_state_records census_data) = true /\
   existsb (is_file (fs w)) (chain (OUTPUT_DIR REPO_ROOT)) = false /\
   is_dir (fs w) (OUTPUT_FILE REPO_ROOT) = false /\
   disk = WriteAll) /\
  (forall census_data records e,
     get_census_data outcome = Ok census_data ->
     process_state_records census_data = Ok records ->
     (main REPO_ROOT outcome disk w).2 = Raise e ->
     stdout (main REPO_ROOT outcome disk w).1 = stdout w ++ [found_line records] /\
     (e = FileExistsError \/ e = NotADirectoryError \/
      e = IsADirectoryError \/ e = WriteError)).
Proof.
  split.
  - split.
    + intros H.
      destruct (main_ok_inv _ _ _ _ H) as (cd & records & Hf & Ht & Hfiles & Hdir & Hd).
      rewrite Hf. cbn [bind]. rewrite Ht. auto.
    + intros (Hok & Hfiles & Hdir & ->).
      destruct (get_census_data outcome) as [cd|] eqn:Hf; [|discriminate Hok].
      cbn [bind] in Hok.
      destruct (process_state_records cd) as [records|] eqn:Ht; [|discriminate Hok].
      rewrite (main_returns REPO_ROOT outcome WriteAll cd records w Hf Ht Hfiles Hdir).
      reflexivity.
  - intros cd records e Hf Ht H.
    destruct (existsb (is_file (fs w)) (chain (OUTPUT_DIR REPO_ROOT))) eqn:Hfiles.
    { rewrite (main_mkdir_raise _ _ _ _ _ _ Hf Ht Hfiles) in *. cbn [fst snd stdout] in *.
      split; [reflexivity|]. injection H as <-.
      destruct (is_file (fs w) (OUTPUT_DIR REPO_ROOT)); auto. }
    destruct (is_dir (fs w) (OUTPUT_FILE REPO_ROOT)) eqn:Hdir.
    { rewrite (main_open_raise _ _ _ _ _ _ Hf Ht Hfiles Hdir) in *.
      cbn [fst snd stdout] in *. split; [reflexivity|]. injection H as <-. auto. }
    rewrite (main_returns _ _ _ _ _ _ Hf Ht Hfiles Hdir) in *. cbv zeta in *.
    destruct disk; cbn [fst snd stdout] in *; [discriminate H|].
    split; [reflexivity|]. injection H as <-. auto.
Qed.

(** When [main] ends with an exception, every file but the output file
    is as before, and the output file too unless the exception is that
    of the write: then the fetch and the transform had returned, and the
    output file holds the bytes of the dump that the disk took before it
    failed. When the fetch or the transform raises, nothing at all is
    changed and nothing is printed. *)
Theorem main_failure_keeps_files (REPO_ROOT : Path) (outcome : http_outcome)
  (disk : disk_outcome) (w : World) (e : exn) :
  (main REPO_ROOT outcome disk w).2 = Raise e ->
  (forall p, p <> OUTPUT_FILE REPO_ROOT ->
             files (fs (main REPO_ROOT outcome disk w).1) !! p = files (fs w) !! p) /\
  (e <> WriteError -> files (fs (main REPO_ROOT outcome disk w).1) = files (fs w)) /\
  (e = WriteError ->
   exists records written,
     (let* census_data := get_census_data outcome in
      process_state_records census_data) = Ok records /\
     disk = WriteFails written /\
     files (fs (main REPO_ROOT outcome disk w).1) !! OUTPUT_FILE REPO_ROOT =
       Some (string_of_list_ascii
               (take written
                  (list_ascii_of_string (utf8 (json_dumps_indent2 records)))))) /\
  (is_ok (let* census_data := get_census_data outcome in
          process_state_records census_data) = false ->
   (main REPO_ROOT outcome disk w).1 = w).
Proof.
  intros H.
  destruct (get_census_data outcome) as [cd|e1] eqn:Hf.
  2:{ rewrite (main_fetch_raise _ _ _ _ _ Hf) in *. cbn [fst snd] in *.
      injection H as <-. repeat split; auto.
      intros ->. exfalso.
      destruct (get_census_data_raise _ _ Hf) as [He|[[st He]|[He|He]]]; discriminate He. }
  cbn [bind].
  destruct (process_state_records cd) as [records|e1] eqn:Ht.
  2:{ rewrite (main_transform_raise _ _ _ _ _ _ Hf Ht) in *. cbn [fst snd] in *.
      injection H as <-. repeat split; auto.
      intros ->. exfalso.
      destruct (process_state_records_raise_inv _ _ Ht) as (_ & row & _ & _ & _ & _ & Hrow).
      exact (process_row_raise _ _ _ Hrow). }
  cbn [is_ok].
  destruct (existsb (is_file (fs w)) (chain (OUTPUT_DIR REPO_ROOT))) eqn:Hfiles.
  { rewrite (main_mkdir_raise _ _ _ _ _ _ Hf Ht Hfiles) in *. cbn [fst snd fs] in *.
    injection H as <-. repeat split; auto; try discriminate.
    intros He. destruct (is_file (fs w) (OUTPUT_DIR REPO_ROOT)); discriminate He. }
  destruct (is_dir (fs w) (OUTPUT_FILE REPO_ROOT)) eqn:Hdir.
  { rewrite (main_open_raise _ _ _ _ _ _ Hf Ht Hfiles Hdir) in *.
    cbn [fst snd fs files] in *. injection H as <-.
    repeat split; auto; discriminate. }
  rewrite (main_returns _ _ _ _ _ _ Hf Ht Hfiles Hdir) in *. cbv zeta in *.
  destruct disk as [|written]; cbn [fst snd fs files written_bytes] in *;
    [discriminate H|].
  injection H as <-. split; [|split; [|split]].
  - intros p Hp. apply lookup_insert_ne. congruence.
  - intros Hne. contradiction.
  - intros _. exists records, written. split; [reflexivity|]. split; [reflexivity|].
    apply lookup_insert_eq.
  - discriminate.
Qed.

Lemma main_failure_keeps_files_witness :
  (forall p, p <> OUTPUT_FILE ["repo"] ->
     files (fs (main ["repo"] (Response 200 (Some [example_header; alabama_row]))
                  (WriteFails 3) empty_world).1) !! p
     = files (fs empty_world) !! p) /\
  exists records written,
    process_state_records {| header := example_header; data := [alabama_row] |}
    = Ok records /\
    WriteFails 3 = WriteFails written /\
    files (fs (main ["repo"] (Response 200 (Some [example_header; alabama_row]))
                 (WriteFails 3) empty_world).1) !! OUTPUT_FILE ["repo"] =
      Some (string_of_list_ascii
              (take written (list_ascii_of_string (utf8 (json_dumps_indent2 records))))).
Proof.
  pose proof (main_failure_keeps_files ["repo"]
                (Response 200 (Some [example_header; alabama_row]))
                (WriteFails 3) empty_world WriteError) as H.
  destruct H as (H1 & _ & H3 & _); [vm_compute; reflexivity|].
  split; [exact H1 | exact (H3 eq_refl)].
Defined.

(** ** The characters of the dump *)

Lemma ascii_app (l1 l2 : list ascii) :
  forallb is_ascii l1 = true -> forallb is_ascii l2 = true ->
  forallb is_ascii (l1 ++ l2) = true.
Proof. intros H1 H2. rewrite forallb_app, H1, H2. reflexivity. Qed.

Lemma ascii_cons (a : ascii) (l : list ascii) :
  is_ascii a = true -> forallb is_ascii l = true -> forallb is_ascii (a :: l) = true.
Proof. intros H1 H2. cbn [forallb]. rewrite H1, H2. reflexivity. Qed.

Lemma ascii_of_small (z : Z) : 0 <= z < 128 -> is_ascii (ascii_of_N (Z.to_N z)) = true.
Proof.
  intros Hz. unfold is_ascii, code.
  rewrite N_ascii_embedding by lia. rewrite Z2N.id by lia. apply Z.ltb_lt. lia.
Qed.

Lemma digit_char_ascii (n : Z) : is_ascii (digit_char (n mod 10)) = true.
Proof.
  unfold digit_char. apply ascii_of_small.
  pose proof (Z.mod_pos_bound n 10 ltac:(lia)). lia.
Qed.

Lemma digits_of_ascii (fuel : nat) (n : Z) (acc : list ascii) :
  forallb is_ascii acc = true -> forallb is_ascii (digits_of fuel n acc) = true.
Proof.
  revert n acc. induction fuel as [|fuel IH]; intros n acc H; cbn [digits_of];
    [exact H|].
  cbv zeta. destruct (n <? 10).
  - apply ascii_cons; [apply digit_char_ascii | exact H].
  - apply IH. apply ascii_cons; [apply digit_char_ascii | exact H].
Qed.

Lemma decimal_ascii (n : Z) : forallb is_ascii (decimal n) = true.
Proof. unfold decimal. apply digits_of_ascii. reflexivity. Qed.

Lemma int_repr_ascii (n : Z) :
  forallb is_ascii (list_ascii_of_string (int_repr n)) = true.
Proof.
  unfold int_repr. rewrite list_ascii_of_string_of_list_ascii.
  destruct (n <? 0).
  - apply ascii_cons; [reflexivity | apply decimal_ascii].
  - apply decimal_ascii.
Qed.

Lemma zeros_ascii (n : Z) : forallb is_ascii (zeros n) = true.
Proof.
  unfold zeros. induction (Z.to_nat n) as [|k IH]; [reflexivity|].
  cbn [repeat]. apply ascii_cons; [reflexivity | exact IH].
Qed.

Lemma two_digits_ascii (n : Z) : forallb is_ascii (two_digits n) = true.
Proof.
  unfold two_digits. destruct (n <? 10).
  - apply ascii_cons; [reflexivity | apply decimal_ascii].
  - apply decimal_ascii.
Qed.

Lemma ascii_take_drop (n : nat) (l : list ascii) :
  forallb is_ascii l = true ->
  forallb is_ascii (take n l) = true /\ forallb is_ascii (drop n l) = true.
Proof.
  intros H. rewrite <- (firstn_skipn n l), forallb_app in H.
  apply andb_prop in H. exact H.
Qed.

Lemma format_short_ascii (ds : list ascii) (decpt : Z) :
  forallb is_ascii ds = true -> forallb is_ascii (format_short ds decpt) = true.
Proof.
  intros H. unfold format_short. cbv zeta.
  destruct ((decpt <=? -4) || (16 <? decpt)).
  - apply ascii_app.
    + destruct ds as [|d [|d' rest]]; [reflexivity | exact H |].
      cbn [forallb] in H. apply andb_prop in H. destruct H as [Hd H].
      apply ascii_cons; [exact Hd|]. apply ascii_cons; [reflexivity | exact H].
    + apply ascii_cons; [reflexivity|].
      destruct (decpt - 1 <? 0);
        (apply ascii_cons; [reflexivity | apply two_digits_ascii]).
  - destruct (decpt <=? 0).
    + apply ascii_cons; [reflexivity|]. apply ascii_cons; [reflexivity|].
      apply ascii_app; [apply zeros_ascii | exact H].
    + destruct (Z.of_nat (length ds) <=? decpt).
      * apply ascii_app; [exact H|]. apply ascii_app; [apply zeros_ascii | reflexivity].
      * destruct (ascii_take_drop (Z.to_nat decpt) ds H) as [Ht Hd].
        apply ascii_app; [exact Ht|]. apply ascii_cons; [reflexivity | exact Hd].
Qed.

Lemma float_repr_ascii (x : float) :
  forallb is_ascii (list_ascii_of_string (float_repr x)) = true.
Proof.
  unfold float_repr. destruct x as [x|]; [|reflexivity].
  destruct (Qnum x =? 0); [reflexivity|]. cbv zeta.
  rewrite list_ascii_of_string_of_list_ascii.
  destruct (Qnum x <? 0).
  - apply ascii_cons; [reflexivity|]. apply format_short_ascii, decimal_ascii.
  - apply format_short_ascii, decimal_ascii.
Qed.

Lemma escape_char_ascii (a : ascii) : forallb is_ascii (escape_char a) = true.
Proof.
  destruct a as [[] [] [] [] [] [] [] []]; vm_compute; reflexivity.
Qed.

Lemma encode_string_ascii (s : string) : forallb is_ascii (encode_string s) = true.
Proof.
  unfold encode_string. apply ascii_cons; [reflexivity|].
  apply ascii_app; [|reflexivity].
  induction (list_ascii_of_string s) as [|a l IH]; [reflexivity|].
  cbn [map concat]. apply ascii_app; [apply escape_char_ascii | exact IH].
Qed.

Lemma newline_indent_ascii (indent level : nat) :
  forallb is_ascii (newline_indent indent level) = true.
Proof.
  unfold newline_indent. apply ascii_cons; [reflexivity|].
  induction (indent * level)%nat as [|k IH]; [reflexivity|].
  cbn [repeat]. apply ascii_cons; [reflexivity | exact IH].
Qed.

Lemma join_ascii (sep : list ascii) (parts : list (list ascii)) :
  forallb is_ascii sep = true ->
  Forall (fun p => forallb is_ascii p = true) parts ->
  forallb is_ascii (join sep parts) = true.
Proof.
  intros Hsep H. induction H as [|p parts Hp Hparts IH]; [reflexivity|].
  cbn [join]. destruct parts as [|q parts]; [exact Hp|].
  apply ascii_app; [exact Hp|]. apply ascii_app; [exact Hsep | exact IH].
Qed.

Lemma member_ascii (k : string) (v : list ascii) :
  forallb is_ascii v = true ->
  forallb is_ascii (encode_string k ++ ":"%char :: " "%char :: v) = true.
Proof.
  intros H. apply ascii_app; [apply encode_string_ascii|].
  apply ascii_cons; [reflexivity|]. apply ascii_cons; [reflexivity | exact H].
Qed.

Lemma StateIncome_items_ascii (indent level : nat) (r : StateIncome) :
  forallb is_ascii (encode indent level (StateIncome_items r)) = true.
Proof.
  unfold StateIncome_items. cbn [encode map fst snd].
  apply ascii_cons; [reflexivity|].
  apply ascii_app; [apply newline_indent_ascii|].
  apply ascii_app; [|apply ascii_app; [apply newline_indent_ascii | reflexivity]].
  apply join_ascii.
  - apply ascii_cons; [reflexivity | apply newline_indent_ascii].
  - repeat (apply List.Forall_cons;
            [apply member_ascii;
             first [apply encode_string_ascii | apply int_repr_ascii
                   | apply float_repr_ascii]|]).
    apply List.Forall_nil.
Qed.

Lemma utf8_ascii (l : list ascii) :
  forallb is_ascii l = true -> concat (map utf8_char l) = l.
Proof.
  induction l as [|a l IH]; intros H; [reflexivity|].
  cbn [forallb] in H. apply andb_prop in H. destruct H as [Ha Hl].
  cbn [map concat]. rewrite (IH Hl). unfold utf8_char. cbv zeta.
  unfold is_ascii in Ha. rewrite Ha. reflexivity.
Qed.

Lemma json_dumps_indent2_ascii (data : list StateIncome) :
  forallb is_ascii (list_ascii_of_string (json_dumps_indent2 data)) = true.
Proof.
  unfold json_dumps_indent2. rewrite list_ascii_of_string_of_list_ascii.
  destruct data as [|r data]; [reflexivity|].
  cbn [map encode].
  apply ascii_cons; [reflexivity|].
  apply ascii_app; [apply newline_indent_ascii|].
  apply ascii_app; [|apply ascii_app; [apply newline_indent_ascii | reflexivity]].
  apply join_ascii.
  - apply ascii_cons; [reflexivity | apply newline_indent_ascii].
  - change (encode 2 1 (StateIncome_items r) :: map (encode 2 1) (map StateIncome_items data))
      with (map (encode 2 1) (map StateIncome_items (r :: data))).
    rewrite map_map. apply List.Forall_map.
    apply List.Forall_forall. intros r' _. apply StateIncome_items_ascii.
Qed.

Lemma utf8_json_dumps_indent2 (data : list StateIncome) :
  utf8 (json_dumps_indent2 data) = json_dumps_indent2 data.
Proof.
  unfold utf8. rewrite (utf8_ascii _ (json_dumps_indent2_ascii data)).
  apply string_of_list_ascii_of_string.
Qed.

(** The text of the dump has ASCII characters only, whatever the names
    in the records hold ([json.dumps] escapes the others), so the bytes
    that [write_json] writes in UTF-8 are the characters of the dump, one
    byte each. *)
Theorem dump_is_ascii (data : list StateIncome) :
  forallb is_ascii (list_ascii_of_string (json_dumps_indent2 data)) = true /\
  utf8 (json_dumps_indent2 data) = json_dumps_indent2 data.
Proof.
  split; [apply json_dumps_indent2_ascii | apply utf8_json_dumps_indent2].
Qed.

(** ** Making the directory and writing the file *)





